(** * OpenRouterClient: the chat-completion gateway of the Stagehand fork

    A shallow embedding of [OpenRouterClient.createChatCompletion] in its two
    source variants:

    - [Native]: [src/lib/llm/OpenRouterClient.ts], which asks the vendor for
      a [response_format] built by [zodResponseFormat];
    - [Instr]: the second copy of the same class ([src/unnamed/part_001]),
      which always appends a schema instruction and decodes the reply with a
      tool-call and a markdown fallback.

    JavaScript strings are modelled as Rocq strings (code units below 256),
    JavaScript numbers of the sampling parameters as binary64 floats, the
    asynchronous method as a state-passing function over a [World] holding
    the vendor calls issued so far, the log and the cache store.

    Behind the gateway come its constructor and the evaluation harness of
    the fork ([src/evals], [src/unnamed/part_000]): the configuration of a
    run, the choice of the client by model name, the test cases, the
    summary and the task [zquery_extract_multiple]; object literals are
    modelled as lists of properties in their order. *)

From Stdlib Require Import List String Ascii ZArith NArith Bool Lia Floats.
From Stdlib Require Import DecimalString.
Import ListNotations.
Local Open Scope string_scope.
Local Open Scope bool_scope.

(* ================================================================== *)
(** ** JavaScript values *)
(* ================================================================== *)

Module JS.

(** Truthiness of a string: every string but the empty one. *)
Definition truthy_string (s : string) : bool :=
  match s with EmptyString => false | String _ _ => true end.

(** Truthiness of a number: every number but [+0], [-0] and [NaN]. *)
Definition truthy_number (x : float) : bool :=
  negb (PrimFloat.eqb x 0%float) && PrimFloat.eqb x x.

(** [a || d] on an optional string. *)
Definition or_string (a : option string) (d : string) : string :=
  match a with
  | Some s => if truthy_string s then s else d
  | None => d
  end.

(** [a || null] on an optional string. *)
Definition or_null (a : option string) : option string :=
  match a with
  | Some s => if truthy_string s then Some s else None
  | None => None
  end.

(** [a || d] on an optional number. *)
Definition or_number (a : option float) (d : float) : float :=
  match a with
  | Some x => if truthy_number x then x else d
  | None => d
  end.

(** [a || 0] on an optional integer count. *)
Definition or_zero (a : option Z) : Z :=
  match a with Some n => n | None => 0%Z end.

(** [String(n)] for a non-negative integer. *)
Definition string_of_nat (n : nat) : string :=
  NilEmpty.string_of_uint (Nat.to_uint n).

(** The exceptions the method meets, each with the argument of its
    constructor. *)
Inductive Exn : Type :=
| CreateChatCompletionResponseError (message : string)
| ZodSchemaValidationError (message : string)
| SyntaxError (message : string)
| TypeError (message : string)
| Error (message : string).

(** Modelled from the spec: the error classes of [types/stagehandErrors],
    which are not among the sources; the spec names the terminal error
    ([CompletionRequestError]) and says nothing of its text.  The message
    of a [CreateChatCompletionResponseError] is taken as the class of the
    library builds it, the name of the class and a colon in front of the
    argument of the constructor; the message of any other error is the
    argument itself. *)
Definition message (e : Exn) : string :=
  match e with
  | CreateChatCompletionResponseError m =>
      "CreateChatCompletionResponseError: " ++ m
  | ZodSchemaValidationError m
  | SyntaxError m
  | TypeError m
  | Error m => m
  end.

(** [e instanceof ZodSchemaValidationError] *)
Definition instanceof_ZodSchemaValidationError (e : Exn) : bool :=
  match e with ZodSchemaValidationError _ => true | _ => false end.

End JS.

(* ================================================================== *)
(** ** JSON.parse *)
(* ================================================================== *)

(** The built-in [JSON.parse] (ECMA-262, 25.5.1; grammar of ECMA-404) as a
    recursive-descent parser.  A number is kept as its lexeme (the rounding
    to binary64 is not modelled); a decoded string is a list of UTF-16 code
    units, since a [\uXXXX] escape can denote a unit above 255; an object
    keeps its members in source order, a repeated key overwriting the value
    at the key's first position. *)
Module JSON.

#[local] Set Warnings "-register-all".

Inductive Json : Type :=
| JNull
| JBool (b : bool)
| JNumber (lexeme : string)
| JString (units : list N)
| JArray (elements : list Json)
| JObject (members : list (list N * Json)).

(** The quotation mark. *)
Definition quote : ascii := ascii_of_nat 34.

Definition units_of_string (s : string) : list N :=
  map N_of_ascii (list_ascii_of_string s).

Definition is_ws (c : ascii) : bool :=
  match N_of_ascii c with
  | 32%N | 9%N | 10%N | 13%N => true
  | _ => false
  end.

Definition is_digit (c : ascii) : bool :=
  (48 <=? N_of_ascii c)%N && (N_of_ascii c <=? 57)%N.

Definition hex_value (c : ascii) : option N :=
  let n := N_of_ascii c in
  if (48 <=? n)%N && (n <=? 57)%N then Some (n - 48)%N
  else if (65 <=? n)%N && (n <=? 70)%N then Some (n - 55)%N
  else if (97 <=? n)%N && (n <=? 102)%N then Some (n - 87)%N
  else None.

Fixpoint skip_ws (s : string) : string :=
  match s with
  | String c r => if is_ws c then skip_ws r else s
  | EmptyString => s
  end.

(** The longest run of digits at the head of [s], and what follows. *)
Fixpoint take_digits (s : string) : string * string :=
  match s with
  | String c r =>
      if is_digit c
      then let (d, rest) := take_digits r in (String c d, rest)
      else (EmptyString, s)
  | EmptyString => (EmptyString, s)
  end.

(** [int]: a single [0], or a digit [1-9] followed by digits. *)
Definition parse_int (s : string) : option (string * string) :=
  match s with
  | String c r =>
      if Ascii.eqb c "0" then Some ("0", r)
      else if is_digit c
      then let (d, rest) := take_digits r in Some (String c d, rest)
      else None
  | EmptyString => None
  end.

(** [frac]: nothing, or [.] and at least one digit. *)
Definition parse_frac (s : string) : option (string * string) :=
  match s with
  | String c r =>
      if Ascii.eqb c "." then
        match take_digits r with
        | (EmptyString, _) => None
        | (d, rest) => Some (String c d, rest)
        end
      else Some (EmptyString, s)
  | EmptyString => Some (EmptyString, s)
  end.

(** An optional sign: one of the two characters, when [s] starts with it. *)
Definition take_sign (plus minus : bool) (s : string) : string * string :=
  match s with
  | String c r =>
      if (plus && Ascii.eqb c "+") || (minus && Ascii.eqb c "-")
      then (String c EmptyString, r)
      else (EmptyString, s)
  | EmptyString => (EmptyString, s)
  end.

(** [exp]: nothing, or [e]/[E], an optional sign and at least one digit. *)
Definition parse_exp (s : string) : option (string * string) :=
  match s with
  | String c r =>
      if Ascii.eqb c "e" || Ascii.eqb c "E" then
        let (sign, r') := take_sign true true r in
        match take_digits r' with
        | (EmptyString, _) => None
        | (d, rest) => Some (String c (sign ++ d), rest)
        end
      else Some (EmptyString, s)
  | EmptyString => Some (EmptyString, s)
  end.

Definition parse_number (s : string) : option (string * string) :=
  let (sign, s1) := take_sign false true s in
  match parse_int s1 with
  | None => None
  | Some (i, s2) =>
      match parse_frac s2 with
      | None => None
      | Some (f, s3) =>
          match parse_exp s3 with
          | None => None
          | Some (e, s4) => Some (sign ++ i ++ f ++ e, s4)
          end
      end
  end.

(** The code unit a single-character escape stands for. *)
Definition escape (e : ascii) : option N :=
  if Ascii.eqb e quote then Some 34%N
  else if Ascii.eqb e "\" then Some 92%N
  else if Ascii.eqb e "/" then Some 47%N
  else if Ascii.eqb e "b" then Some 8%N
  else if Ascii.eqb e "f" then Some 12%N
  else if Ascii.eqb e "n" then Some 10%N
  else if Ascii.eqb e "r" then Some 13%N
  else if Ascii.eqb e "t" then Some 9%N
  else None.

(** The code unit of [\uXXXX] from its four hexadecimal digits. *)
Definition hex4 (h1 h2 h3 h4 : ascii) : option N :=
  match hex_value h1, hex_value h2, hex_value h3, hex_value h4 with
  | Some a, Some b, Some c, Some d => Some (((a * 16 + b) * 16 + c) * 16 + d)%N
  | _, _, _, _ => None
  end.

(** The characters of a string literal after its opening quote, up to and
    including the closing quote. *)
Fixpoint parse_chars (s : string) : option (list N * string) :=
  match s with
  | EmptyString => None
  | String c r =>
      if Ascii.eqb c quote then Some ([], r)
      else if Ascii.eqb c "\" then
        match r with
        | EmptyString => None
        | String e r1 =>
            if Ascii.eqb e "u" then
              match r1 with
              | String h1 (String h2 (String h3 (String h4 r2))) =>
                  match hex4 h1 h2 h3 h4, parse_chars r2 with
                  | Some u, Some (us, rest) => Some (u :: us, rest)
                  | _, _ => None
                  end
              | _ => None
              end
            else
              match escape e, parse_chars r1 with
              | Some u, Some (us, rest) => Some (u :: us, rest)
              | _, _ => None
              end
        end
      else if (N_of_ascii c <? 32)%N then None
      else
        match parse_chars r with
        | Some (us, rest) => Some (N_of_ascii c :: us, rest)
        | None => None
        end
  end.

Fixpoint eqb_units (a b : list N) : bool :=
  match a, b with
  | [], [] => true
  | x :: a', y :: b' => N.eqb x y && eqb_units a' b'
  | _, _ => false
  end.

(** Defining property [k] of an object under construction. *)
Fixpoint set_member (k : list N) (v : Json) (ms : list (list N * Json))
  : list (list N * Json) :=
  match ms with
  | [] => [(k, v)]
  | (k', v') :: rest =>
      if eqb_units k k' then (k, v) :: rest
      else (k', v') :: set_member k v rest
  end.

Definition expect (c : ascii) (s : string) : option string :=
  match s with
  | String c' r => if Ascii.eqb c c' then Some r else None
  | EmptyString => None
  end.

(** What follows [lit] when [s] starts with it. *)
Fixpoint literal (lit : string) (s : string) : option string :=
  match lit, s with
  | EmptyString, _ => Some s
  | String a lit', String b s' =>
      if Ascii.eqb a b then literal lit' s' else None
  | String _ _, EmptyString => None
  end.

(** A value that is neither object nor array: a string, one of the three
    literals or a number, at the head of [s]. *)
Definition parse_scalar (s : string) : option (Json * string) :=
  match s with
  | EmptyString => None
  | String c r =>
      if Ascii.eqb c quote then
        match parse_chars r with
        | Some (us, rest) => Some (JString us, rest)
        | None => None
        end
      else if Ascii.eqb c "t" then
        option_map (pair (JBool true)) (literal "true" s)
      else if Ascii.eqb c "f" then
        option_map (pair (JBool false)) (literal "false" s)
      else if Ascii.eqb c "n" then
        option_map (pair JNull) (literal "null" s)
      else
        match parse_number s with
        | Some (lexeme, rest) => Some (JNumber lexeme, rest)
        | None => None
        end
  end.

(** [parse_value] reads one value with the white space before it;
    [parse_elements] reads [value (, value)* ]] after an opening bracket;
    [parse_members] reads [string : value (, string : value)* }] after an
    opening brace.  The fuel bounds the depth of the calls; twice the
    length of the text is enough (see [parse_value_fuel] below). *)
Fixpoint parse_value (fuel : nat) (s : string) : option (Json * string) :=
  match fuel with
  | O => None
  | S fuel' =>
      match skip_ws s with
      | EmptyString => None
      | String c r as t =>
          if Ascii.eqb c "{" then
            match expect "}" (skip_ws r) with
            | Some rest => Some (JObject [], rest)
            | None => parse_members fuel' [] r
            end
          else if Ascii.eqb c "[" then
            match expect "]" (skip_ws r) with
            | Some rest => Some (JArray [], rest)
            | None => parse_elements fuel' [] r
            end
          else parse_scalar t
      end
  end

with parse_elements (fuel : nat) (acc : list Json) (s : string)
  : option (Json * string) :=
  match fuel with
  | O => None
  | S fuel' =>
      match parse_value fuel' s with
      | None => None
      | Some (v, rest) =>
          match skip_ws rest with
          | EmptyString => None
          | String d rest' =>
              if Ascii.eqb d "]" then Some (JArray (acc ++ [v]), rest')
              else if Ascii.eqb d ","
              then parse_elements fuel' (acc ++ [v]) rest'
              else None
          end
      end
  end

with parse_members (fuel : nat) (acc : list (list N * Json)) (s : string)
  : option (Json * string) :=
  match fuel with
  | O => None
  | S fuel' =>
      match expect quote (skip_ws s) with
      | None => None
      | Some r =>
          match parse_chars r with
          | None => None
          | Some (k, r1) =>
              match expect ":" (skip_ws r1) with
              | None => None
              | Some r2 =>
                  match parse_value fuel' r2 with
                  | None => None
                  | Some (v, rest) =>
                      match skip_ws rest with
                      | EmptyString => None
                      | String d rest' =>
                          if Ascii.eqb d "}"
                          then Some (JObject (set_member k v acc), rest')
                          else if Ascii.eqb d ","
                          then parse_members fuel' (set_member k v acc) rest'
                          else None
                      end
                  end
              end
          end
      end
  end.

(** [JSON.parse(text)]: one value, white space around it, nothing else.
    [None] stands for the [SyntaxError] the built-in throws. *)
Definition parse (text : string) : option Json :=
  match parse_value (2 * String.length text + 2) text with
  | Some (v, rest) =>
      match skip_ws rest with
      | EmptyString => Some v
      | String _ _ => None
      end
  | None => None
  end.

(** The message of the [SyntaxError]; its wording is the engine's and is
    not modelled beyond naming the text. *)
Definition syntax_error (text : string) : JS.Exn :=
  JS.SyntaxError ("Unexpected token in JSON: " ++ text).

End JSON.

Definition LF : string := String (ascii_of_nat 10) EmptyString.

(** JSON texts are written below with an apostrophe wherever the text has a
    quotation mark; [dq] puts the quotation marks in. *)
Fixpoint dq (s : string) : string :=
  match s with
  | EmptyString => EmptyString
  | String c r => String (if Ascii.eqb c "'" then JSON.quote else c) (dq r)
  end.

(* ================================================================== *)
(** ** The regular expressions of the markdown fallback *)
(* ================================================================== *)

Module Text.

Definition backtick : ascii := ascii_of_nat 96.
Definition fence : string := String backtick (String backtick (String backtick EmptyString)).
Definition fence_json : string := fence ++ "json".

(** [s.replace(/<marker>\n?/g, empty)] for a literal, non-empty marker: scan
    from the left; at an occurrence of the marker drop it and one line
    feed after it, if there is one, and go on behind what was dropped.
    [skip] counts the characters of the current occurrence still to drop,
    [after] says that an occurrence has just ended. *)
Fixpoint remove_marker (marker : string) (skip : nat) (after : bool)
         (s : string) : string :=
  match s with
  | EmptyString => EmptyString
  | String c r =>
      match skip with
      | S k => remove_marker marker k true r
      | O =>
          if after && Ascii.eqb c (ascii_of_nat 10)
          then remove_marker marker 0 false r
          else if String.prefix marker s
          then remove_marker marker (String.length marker - 1) true r
          else String c (remove_marker marker 0 false r)
      end
  end.

(** [cleanedData.replace(/```json\n?/g, empty).replace(/```\n?/g, empty)] *)
Definition strip_code_fences (s : string) : string :=
  remove_marker fence 0 false (remove_marker fence_json 0 false s).

(** The suffix of [s] that starts at its first opening brace. *)
Fixpoint from_first_open (s : string) : option string :=
  match s with
  | EmptyString => None
  | String c r => if Ascii.eqb c "{" then Some s else from_first_open r
  end.

(** The longest prefix of [s] that ends in a closing brace. *)
Fixpoint upto_last_close (s : string) : option string :=
  match s with
  | EmptyString => None
  | String c r =>
      match upto_last_close r with
      | Some p => Some (String c p)
      | None => if Ascii.eqb c "}" then Some (String c EmptyString) else None
      end
  end.

(** [cleanedData.match(/\{[\s\S]*\}/)]: the leftmost match starts at the
    first opening brace, and the greedy star runs to the last closing
    brace behind it; [jsonMatch[0]] when there is a match. *)
Definition match_json_object (s : string) : option string :=
  match from_first_open s with
  | Some t => upto_last_close t
  | None => None
  end.

(** Membership of a character in a string. *)
Fixpoint occurs (c : ascii) (s : string) : bool :=
  match s with
  | EmptyString => false
  | String c' r => Ascii.eqb c c' || occurs c r
  end.

End Text.

Definition fenced_reply : string :=
  "Here is the result:" ++ LF ++ Text.fence_json ++ LF
    ++ dq "{'a':1}" ++ LF ++ Text.fence.

(* ================================================================== *)
(** ** Requests, replies and results *)
(* ================================================================== *)

(** [message.role] *)
Inductive Role : Type := system | user | assistant.

(** One part of an array-valued [message.content]: an image part is one
    that has the property [image_url]; any other part is read as text. *)
Record ContentPart : Type := {
  part_type : string;
  part_image_url : option string;    (* image_url.url, when present *)
  part_text : option string
}.

Inductive MessageContent : Type :=
| ContentString (text : string)
| ContentParts (parts : list ContentPart).

Record ChatMessage : Type := {
  role : Role;
  content : MessageContent
}.

(** The vendor's message parameters ([ChatCompletionMessageParam]). *)
Inductive ContentPartParam : Type :=
| ImagePart (url : string)            (* { image_url: { url }, type: "image_url" } *)
| TextPart (text : option string).    (* { text, type: "text" } *)

Inductive ContentParam : Type :=
| StringParam (text : string)
| PartsParam (parts : list ContentPartParam).

Record MessageParam : Type := {
  param_role : Role;
  param_content : ContentParam
}.

(** The schema object of [response_model], seen through the three library
    calls the method makes on it: [schema.safeParse] under
    [validateZodSchema] ([None] when the data conforms, the issues
    otherwise), [JSON.stringify(zodToJsonSchema(schema))], and
    [zodResponseFormat(schema, name)], which yields a JSON schema or
    throws. *)
Record ZodSchema : Type := {
  safeParse : JSON.Json -> option string;
  jsonSchema : string;
  strictJsonSchema : JS.Exn + string
}.

Record ResponseModel : Type := {
  name : string;
  schema : ZodSchema
}.

Record Image : Type := {
  buffer : list Byte.byte;
  description : option string
}.

Record LLMTool : Type := {
  tool_name : string;
  tool_description : string;
  tool_properties : option JSON.Json;    (* parameters.properties *)
  tool_required : option JSON.Json       (* parameters.required *)
}.

(** [options] of [createChatCompletion]. *)
Record ChatCompletionOptions : Type := {
  messages : list ChatMessage;
  temperature : option float;
  top_p : option float;
  frequency_penalty : option float;
  presence_penalty : option float;
  image : option Image;
  requestId : string;
  response_model : option ResponseModel;
  tools : option (list LLMTool);
  tool_choice : option string;
  maxTokens : option Z
}.

(** The object handed to the cache as the key of a request. *)
Record CacheOptions : Type := {
  key_model : string;
  key_messages : list ChatMessage;
  key_temperature : option float;
  key_top_p : option float;
  key_frequency_penalty : option float;
  key_presence_penalty : option float;
  key_image : option Image;
  key_response_model : option ResponseModel;
  key_tools : option (list LLMTool);
  key_tool_choice : option string;
  key_maxTokens : option Z
}.

(** A tool in the vendor's function-calling form. *)
Record FunctionTool : Type := {
  function_name : string;
  function_description : string;
  function_properties : option JSON.Json;
  function_required : option JSON.Json
}.

(** [response_format] as [zodResponseFormat] builds it. *)
Record ResponseFormat : Type := {
  format_name : string;
  format_schema : string
}.

(** The argument of [client.chat.completions.create]. *)
Record CompletionParams : Type := {
  p_model : string;
  p_messages : list MessageParam;
  p_temperature : float;
  p_max_tokens : option Z;
  p_tools : option (list FunctionTool);
  p_tool_choice : option string;
  p_response_format : option ResponseFormat;
  p_top_p : option float;
  p_frequency_penalty : option float;
  p_presence_penalty : option float
}.

Record ToolCall : Type := {
  call_id : string;
  call_function_name : string;
  call_arguments : string      (* function.arguments *)
}.

(** The vendor's reply, with every field the method reads as optional as
    the method treats it. *)
Record ApiMessage : Type := {
  api_content : option string;
  api_tool_calls : option (list ToolCall)
}.

Record ApiChoice : Type := {
  api_message : option ApiMessage;
  api_finish_reason : option string
}.

Record ApiUsage : Type := {
  api_prompt_tokens : option Z;
  api_completion_tokens : option Z;
  api_total_tokens : option Z
}.

Record ApiResponse : Type := {
  api_id : string;
  api_created : Z;
  api_choices : list ApiChoice;
  api_usage : option ApiUsage
}.

(** [LLMResponse], whose [choices] always holds exactly one choice. *)
Record Message : Type := {
  msg_role : Role;
  msg_content : option string;      (* [None] is null *)
  msg_tool_calls : list ToolCall
}.

Record Usage : Type := {
  prompt_tokens : Z;
  completion_tokens : Z;
  total_tokens : Z
}.

Record LLMResponse : Type := {
  id : string;
  object : string;
  created : Z;
  model : string;
  choice_index : Z;
  choice_message : Message;
  finish_reason : string;
  usage : Usage
}.

(** What the method resolves to, and what the cache stores: the response,
    or the pair of decoded data and usage when a [response_model] was
    given. *)
Inductive Completion : Type :=
| Response (response : LLMResponse)
| Extracted (data : JSON.Json) (usage : Usage).

(** The settled promise. *)
Inductive Outcome : Type :=
| Resolved (value : Completion)
| Rejected (error : JS.Exn).

Record LogLine : Type := {
  category : string;
  log_message : string;
  level : nat
}.

(* ================================================================== *)
(** ** Pure parts shared by both variants *)
(* ================================================================== *)

Module Base64.

Definition digit (n : N) : ascii :=
  if (n <? 26)%N then ascii_of_N (65 + n)
  else if (n <? 52)%N then ascii_of_N (97 + (n - 26))
  else if (n <? 62)%N then ascii_of_N (48 + (n - 52))
  else if (n =? 62)%N then "+"%char
  else "/"%char.

(** [buffer.toString("base64")] *)
Fixpoint encode (bs : list Byte.byte) : string :=
  match bs with
  | [] => EmptyString
  | [a] =>
      let n := (Byte.to_N a * 65536)%N in
      String (digit (n / 262144)) (String (digit ((n / 4096) mod 64)) "==")
  | [a; b] =>
      let n := (Byte.to_N a * 65536 + Byte.to_N b * 256)%N in
      String (digit (n / 262144))
        (String (digit ((n / 4096) mod 64))
           (String (digit ((n / 64) mod 64)) "="))
  | a :: b :: c :: rest =>
      let n := (Byte.to_N a * 65536 + Byte.to_N b * 256 + Byte.to_N c)%N in
      String (digit (n / 262144))
        (String (digit ((n / 4096) mod 64))
           (String (digit ((n / 64) mod 64))
              (String (digit (n mod 64)) (encode rest))))
  end.

End Base64.

(** The mapping of [message.content] parts. *)
Definition contentPart (c : ContentPart) : ContentPartParam :=
  match part_image_url c with
  | Some url => ImagePart url
  | None => TextPart (part_text c)
  end.

(** [content.type === "text"] on a mapped part. *)
Definition is_text (c : ContentPartParam) : bool :=
  match c with TextPart _ => true | ImagePart _ => false end.

(** The callback of [options.messages.map]. *)
Definition formatMessage (message : ChatMessage) : MessageParam :=
  match content message with
  | ContentParts parts =>
      let contentParts := map contentPart parts in
      match role message with
      | system =>
          {| param_role := system;
             param_content := PartsParam (filter is_text contentParts) |}
      | user =>
          {| param_role := user;
             param_content := PartsParam contentParts |}
      | assistant =>
          {| param_role := assistant;
             param_content := PartsParam (filter is_text contentParts) |}
      end
  | ContentString text =>
      match role message with
      | system => {| param_role := system; param_content := StringParam text |}
      | assistant => {| param_role := assistant; param_content := StringParam text |}
      | user => {| param_role := user; param_content := StringParam text |}
      end
  end.

(** The message pushed for [options.image]. *)
Definition imageMessage (img : Image) : MessageParam :=
  {| param_role := user;
     param_content :=
       PartsParam
         [TextPart (Some (JS.or_string (description img)
                                       "Please analyze this image."));
          ImagePart ("data:image/png;base64," ++ Base64.encode (buffer img))] |}.

(** [formattedMessages] before the schema instruction is considered. *)
Definition formattedMessages (options : ChatCompletionOptions)
  : list MessageParam :=
  map formatMessage (messages options)
    ++ match image options with
       | Some img => [imageMessage img]
       | None => []
       end.

(** [options.tools?.map(...)] *)
Definition formatTools (options : ChatCompletionOptions)
  : option (list FunctionTool) :=
  option_map
    (map (fun tool =>
            {| function_name := tool_name tool;
               function_description := tool_description tool;
               function_properties := tool_properties tool;
               function_required := tool_required tool |}))
    (tools options).

(** [tools && tools.length > 0 ? options.tool_choice || "auto" : undefined] *)
Definition toolChoice (options : ChatCompletionOptions)
           (tools : option (list FunctionTool)) : option string :=
  match tools with
  | Some (_ :: _) => Some (JS.or_string (tool_choice options) "auto")
  | _ => None
  end.

(** 0.7, that is the binary64 number nearest to it. *)
Definition default_temperature : float := 0x1.6666666666666p-1%float.

(** The argument of [create], given the messages and the response format
    the variant has settled on. *)
Definition completionParams (modelName : string)
           (options : ChatCompletionOptions)
           (msgs : list MessageParam)
           (responseFormat : option ResponseFormat) : CompletionParams :=
  let tools := formatTools options in
  {| p_model := modelName;
     p_messages := msgs;
     p_temperature := JS.or_number (temperature options) default_temperature;
     p_max_tokens := maxTokens options;
     p_tools := tools;
     p_tool_choice := toolChoice options tools;
     p_response_format := responseFormat;
     p_top_p := top_p options;
     p_frequency_penalty := frequency_penalty options;
     p_presence_penalty := presence_penalty options |}.

(** [cacheOptions] *)
Definition cacheOptions (modelName : string) (options : ChatCompletionOptions)
  : CacheOptions :=
  {| key_model := modelName;
     key_messages := messages options;
     key_temperature := temperature options;
     key_top_p := top_p options;
     key_frequency_penalty := frequency_penalty options;
     key_presence_penalty := presence_penalty options;
     key_image := image options;
     key_response_model := response_model options;
     key_tools := tools options;
     key_tool_choice := tool_choice options;
     key_maxTokens := maxTokens options |}.

(** [apiResponse.choices[0]] *)
Definition firstChoice (apiResponse : ApiResponse) : option ApiChoice :=
  match api_choices apiResponse with
  | c :: _ => Some c
  | [] => None
  end.

(** [apiResponse.choices[0]?.message] *)
Definition firstMessage (apiResponse : ApiResponse) : option ApiMessage :=
  match firstChoice apiResponse with
  | Some c => api_message c
  | None => None
  end.

(** The [response] built from the vendor's reply. *)
Definition formatResponse (modelName : string) (apiResponse : ApiResponse)
  : LLMResponse :=
  {| id := api_id apiResponse;
     object := "chat.completion";
     created := api_created apiResponse;
     model := modelName;
     choice_index := 0;
     choice_message :=
       {| msg_role := assistant;
          msg_content :=
            JS.or_null (match firstMessage apiResponse with
                        | Some m => api_content m
                        | None => None
                        end);
          msg_tool_calls :=
            match firstMessage apiResponse with
            | Some m => match api_tool_calls m with
                        | Some calls => calls
                        | None => []
                        end
            | None => []
            end |};
     finish_reason :=
       JS.or_string (match firstChoice apiResponse with
                     | Some c => api_finish_reason c
                     | None => None
                     end) "stop";
     usage :=
       {| prompt_tokens :=
            JS.or_zero (match api_usage apiResponse with
                        | Some u => api_prompt_tokens u
                        | None => None
                        end);
          completion_tokens :=
            JS.or_zero (match api_usage apiResponse with
                        | Some u => api_completion_tokens u
                        | None => None
                        end);
          total_tokens :=
            JS.or_zero (match api_usage apiResponse with
                        | Some u => api_total_tokens u
                        | None => None
                        end) |} |}.

(* ================================================================== *)
(** ** The world of a call: vendor, log and cache *)
(* ================================================================== *)

(** The cache object as the method uses it: [get(cacheOptions, requestId)]
    and [set(cacheOptions, value, requestId)] over a store of type [Store].
    Like any awaited call either may throw, which is the left summand. *)
Record LLMCache (Store : Type) : Type := {
  cache_get : CacheOptions -> string -> Store -> (JS.Exn + option Completion) * Store;
  cache_set : CacheOptions -> Completion -> string -> Store -> (JS.Exn + unit) * Store
}.
Arguments cache_get {Store}.
Arguments cache_set {Store}.

(** The vendor behind [client.chat.completions.create]: what the call
    number [n] of a run answers to its argument, a reply or a rejection. *)
Definition Vendor : Type := nat -> CompletionParams -> JS.Exn + ApiResponse.

(** [this] *)
Record OpenRouterClient (Store : Type) : Type := {
  modelName : string;
  enableCaching : bool;
  cache : option (LLMCache Store);       (* [None] is undefined *)
  client : Vendor
}.
Arguments modelName {Store}.
Arguments enableCaching {Store}.
Arguments cache {Store}.
Arguments client {Store}.

(** What a run has done so far: the arguments of the vendor calls in the
    order they were issued, the lines passed to [logger] (without their
    auxiliary payload), and the cache store. *)
Record World (Store : Type) : Type := {
  calls : list CompletionParams;
  logs : list LogLine;
  store : Store
}.
Arguments calls {Store}.
Arguments logs {Store}.
Arguments store {Store}.

Section Effects.

Context {Store : Type}.

Definition logger (line : LogLine) (w : World Store) : World Store :=
  {| calls := calls w; logs := logs w ++ [line]; store := store w |}.

Definition with_store (s : Store) (w : World Store) : World Store :=
  {| calls := calls w; logs := logs w; store := s |}.

(** [await this.client.chat.completions.create(params)] *)
Definition create (this : OpenRouterClient Store) (params : CompletionParams)
           (w : World Store) : (JS.Exn + ApiResponse) * World Store :=
  (client this (List.length (calls w)) params,
   {| calls := calls w ++ [params]; logs := logs w; store := store w |}).

(** A [try] block either completes by [return], handing over the promise
    it returns, or throws into its [catch] clause.  A promise returned
    without [await] is not observed by the [catch] clause, so the outcome
    of a retry passes through as it is. *)
Inductive Completed : Type :=
| Returned (result : Outcome * World Store)
| Thrown (error : JS.Exn) (w : World Store).

Inductive Lookup : Type :=
| Hit (cachedResponse : Completion) (w : World Store)
| Miss (w : World Store)
| LookupThrew (error : JS.Exn) (w : World Store).

(** The block [if (this.enableCaching) { ... }] that opens the method. *)
Definition lookup (this : OpenRouterClient Store) (key : CacheOptions)
           (options : ChatCompletionOptions) (w : World Store) : Lookup :=
  if enableCaching this then
    match cache this with
    | None =>
        LookupThrew
          (JS.TypeError "Cannot read properties of undefined (reading 'get')") w
    | Some c =>
        match cache_get c key (requestId options) (store w) with
        | (inl error, s) => LookupThrew error (with_store s w)
        | (inr (Some cachedResponse), s) =>
            Hit cachedResponse
                (logger {| category := "llm_cache";
                           log_message := "LLM cache hit - returning cached response";
                           level := 1 |} (with_store s w))
        | (inr None, s) =>
            Miss (logger {| category := "llm_cache";
                            log_message := "LLM cache miss - no cached response found";
                            level := 1 |} (with_store s w))
        end
    end
  else Miss w.

(** [if (this.enableCaching) { await this.cache.set(...) }] *)
Definition save (this : OpenRouterClient Store) (key : CacheOptions)
           (value : Completion) (options : ChatCompletionOptions)
           (w : World Store) : (JS.Exn + unit) * World Store :=
  if enableCaching this then
    match cache this with
    | None =>
        (inl (JS.TypeError "Cannot read properties of undefined (reading 'set')"), w)
    | Some c =>
        match cache_set c key value (requestId options) (store w) with
        | (r, s) => (r, with_store s w)
        end
    end
  else (inr tt, w).

End Effects.

(** Modelled from the spec: [validateZodSchema] of [lib/utils], which is not
    among the sources.  It validates the parsed value against the schema; a
    mismatch throws a [ZodSchemaValidationError] carrying the validator's
    diagnostic.  [None] is the normal return. *)
Definition validateZodSchema (schema : ZodSchema) (data : JSON.Json)
  : option JS.Exn :=
  match safeParse schema data with
  | Some issues => Some (JS.ZodSchemaValidationError issues)
  | None => None
  end.

Definition openrouter (msg : string) (lvl : nat) : LogLine :=
  {| category := "openrouter"; log_message := msg; level := lvl |}.

(* ================================================================== *)
(** ** The instruction-based variant ([src/unnamed/part_001]) *)
(* ================================================================== *)

Module Instr.

(** The two parts of the template literal around [parsedSchema]. *)
Definition instruction_head : string :=
  "Respond with ONLY valid JSON that matches this exact schema:" ++ LF.

Definition instruction_tail : string :=
  LF ++ LF
    ++ "IMPORTANT: Your response must be valid JSON with no additional text, explanations, or markdown formatting. Start your response with '{' and end with '}'. Do not use "
    ++ Text.fence_json ++ " or any other formatting.".

(** The user message that carries the schema. *)
Definition instruction (rm : ResponseModel) : MessageParam :=
  {| param_role := user;
     param_content :=
       StringParam
         (instruction_head ++ jsonSchema (schema rm) ++ instruction_tail) |}.

(** The messages sent: the formatted ones, and the instruction whenever
    there is a [response_model]. *)
Definition requestMessages (options : ChatCompletionOptions)
  : list MessageParam :=
  formattedMessages options
    ++ match response_model options with
       | Some rm => [instruction rm]
       | None => []
       end.

(** The argument of [create]; this variant passes no [response_format]. *)
Definition request (modelName : string) (options : ChatCompletionOptions)
  : CompletionParams :=
  completionParams modelName options (requestMessages options) None.

(** [extractedData]: the content when it is truthy, else the arguments of
    the first tool call, else nothing. *)
Definition extractedData (response : LLMResponse) : option string :=
  match msg_content (choice_message response) with
  | Some text =>
      if JS.truthy_string text then Some text
      else match msg_tool_calls (choice_message response) with
           | toolCall :: _ => Some (call_arguments toolCall)
           | [] => None
           end
  | None =>
      match msg_tool_calls (choice_message response) with
      | toolCall :: _ => Some (call_arguments toolCall)
      | [] => None
      end
  end.

(** The [try { JSON.parse } catch { ... }] that yields [parsedData]. *)
Inductive Decoded : Type :=
| Parsed (parsedData : JSON.Json)
| SecondParseError (span : string)    (* [JSON.parse(jsonMatch[0])] threw *)
| NoMatch.                            (* [jsonMatch] is null *)

Definition decode (extracted : string) : Decoded :=
  match JSON.parse extracted with
  | Some parsedData => Parsed parsedData
  | None =>
      let cleanedData := Text.strip_code_fences extracted in
      match Text.match_json_object cleanedData with
      | Some span =>
          match JSON.parse span with
          | Some parsedData => Parsed parsedData
          | None => SecondParseError span
          end
      | None => NoMatch
      end
  end.

Section Method.

Context {Store : Type}.

(** The [try] block of one call.  [retry] is
    [this.createChatCompletion({ options, retries: retries - 1, logger })]
    when [retries > 0], and [None] when [retries] is 0. *)
Definition attempt (this : OpenRouterClient Store)
           (retry : option (World Store -> Outcome * World Store))
           (options : ChatCompletionOptions) (key : CacheOptions)
           (w : World Store) : Completed :=
  match create this (request (modelName this) options) w with
  | (inl error, w) => Thrown error w
  | (inr apiResponse, w) =>
      let response := formatResponse (modelName this) apiResponse in
      let w := logger (openrouter "OpenRouter chat completion finished" 1) w in
      match response_model options with
      | Some rm =>
          match extractedData response with
          | None =>
              let w := logger (openrouter "No content or tool calls found in OpenRouter response" 0) w in
              match retry with
              | Some again => Returned (again w)
              | None =>
                  Thrown (JS.CreateChatCompletionResponseError
                            "No content or tool calls found in OpenRouter response for response_model") w
              end
          | Some extracted =>
              match decode extracted with
              | SecondParseError span =>
                  let w := logger (openrouter "Failed to parse cleaned response as JSON" 0) w in
                  match retry with
                  | Some again => Returned (again w)
                  | None =>
                      Thrown (JS.CreateChatCompletionResponseError
                                ("Failed to parse OpenRouter response as JSON: "
                                   ++ JS.message (JSON.syntax_error span))) w
                  end
              | NoMatch =>
                  let w := logger (openrouter "No JSON found in response" 0) w in
                  match retry with
                  | Some again => Returned (again w)
                  | None =>
                      Thrown (JS.CreateChatCompletionResponseError
                                ("No JSON found in OpenRouter response: "
                                   ++ JS.message (JSON.syntax_error extracted))) w
                  end
              | Parsed parsedData =>
                  match validateZodSchema (schema rm) parsedData with
                  | Some e =>
                      let w := logger (openrouter "Response failed Zod schema validation" 0) w in
                      match retry with
                      | Some again => Returned (again w)
                      | None =>
                          if JS.instanceof_ZodSchemaValidationError e then
                            let w := logger (openrouter ("Error during OpenRouter chat completion: " ++ JS.message e) 0) w in
                            Thrown (JS.CreateChatCompletionResponseError (JS.message e)) w
                          else Thrown e w
                      end
                  | None =>
                      let result := Extracted parsedData (usage response) in
                      match save this key result options w with
                      | (inl error, w) => Thrown error w
                      | (inr _, w) => Returned (Resolved result, w)
                      end
                  end
              end
          end
      | None =>
          match save this key (Response response) options w with
          | (inl error, w) => Thrown error w
          | (inr _, w) => Returned (Resolved (Response response), w)
          end
      end
  end.

(** The body of the method. *)
Definition createChatCompletion_body (this : OpenRouterClient Store)
           (retry : option (World Store -> Outcome * World Store))
           (retries : nat) (options : ChatCompletionOptions)
           (w : World Store) : Outcome * World Store :=
  let w := logger (openrouter "creating chat completion" 2) w in
  let key := cacheOptions (modelName this) options in
  match lookup this key options w with
  | LookupThrew error w => (Rejected error, w)
  | Hit cachedResponse w => (Resolved cachedResponse, w)
  | Miss w =>
      let w :=
        match response_model options with
        | Some _ => logger (openrouter "Using instruction-based approach for response model" 1) w
        | None => w
        end in
      match attempt this retry options key w with
      | Returned result => result
      | Thrown error w =>
          let w := logger (openrouter ("OpenRouter request failed: " ++ JS.message error) 0) w in
          match retry with
          | Some again =>
              again (logger (openrouter ("retrying OpenRouter request, "
                                           ++ JS.string_of_nat retries
                                           ++ " attempts remaining") 1) w)
          | None =>
              (Rejected (JS.CreateChatCompletionResponseError
                           ("OpenRouter request failed: " ++ JS.message error)), w)
          end
      end
  end.

(** [createChatCompletion({ options, retries, logger })] for a
    non-negative integer [retries]. *)
Fixpoint createChatCompletion (this : OpenRouterClient Store) (retries : nat)
         (options : ChatCompletionOptions) (w : World Store)
  : Outcome * World Store :=
  createChatCompletion_body this
    match retries with
    | S n => Some (createChatCompletion this n options)
    | O => None
    end
    retries options w.

End Method.

End Instr.

(* ================================================================== *)
(** ** The native variant ([src/lib/llm/OpenRouterClient.ts]) *)
(* ================================================================== *)

Module Native.

(** The two parts of the template literal around [parsedSchema]. *)
Definition instruction_head : string :=
  "Respond in this JSON schema format:" ++ LF.

Definition instruction_tail : string :=
  LF ++ LF
    ++ "Do not include any other text, formatting or markdown in your output. Only the JSON object itself.".

(** The user message of the [catch] clause around [zodResponseFormat]. *)
Definition instruction (rm : ResponseModel) : MessageParam :=
  {| param_role := user;
     param_content :=
       StringParam
         (instruction_head ++ jsonSchema (schema rm) ++ instruction_tail) |}.

(** [responseFormat] after the block [if (options.response_model)]. *)
Definition responseFormat (options : ChatCompletionOptions)
  : option ResponseFormat :=
  match response_model options with
  | Some rm =>
      match strictJsonSchema (schema rm) with
      | inr js => Some {| format_name := name rm; format_schema := js |}
      | inl _ => None
      end
  | None => None
  end.

(** The messages sent: the instruction is pushed only in the [catch]
    clause, that is when [zodResponseFormat] has thrown. *)
Definition requestMessages (options : ChatCompletionOptions)
  : list MessageParam :=
  formattedMessages options
    ++ match response_model options with
       | Some rm =>
           match strictJsonSchema (schema rm) with
           | inr _ => []
           | inl _ => [instruction rm]
           end
       | None => []
       end.

Definition request (modelName : string) (options : ChatCompletionOptions)
  : CompletionParams :=
  completionParams modelName options (requestMessages options)
                   (responseFormat options).

(** [JSON.parse(extractedData)] on the content, which may be null: the
    argument is converted to a string first, and null reads ["null"]. *)
Definition parseContent (extractedData : option string) : option JSON.Json :=
  JSON.parse (match extractedData with Some text => text | None => "null" end).

Section Method.

Context {Store : Type}.

Definition attempt (this : OpenRouterClient Store)
           (retry : option (World Store -> Outcome * World Store))
           (options : ChatCompletionOptions) (key : CacheOptions)
           (w : World Store) : Completed :=
  match create this (request (modelName this) options) w with
  | (inl error, w) => Thrown error w
  | (inr apiResponse, w) =>
      let response := formatResponse (modelName this) apiResponse in
      let w := logger (openrouter "OpenRouter chat completion finished" 1) w in
      match response_model options with
      | Some rm =>
          let extractedData := msg_content (choice_message response) in
          match parseContent extractedData with
          | None =>
              Thrown (JSON.syntax_error
                        (match extractedData with Some t => t | None => "null" end)) w
          | Some parsedData =>
              match validateZodSchema (schema rm) parsedData with
              | Some e =>
                  let w := logger (openrouter "Response failed Zod schema validation" 0) w in
                  match retry with
                  | Some again => Returned (again w)
                  | None =>
                      if JS.instanceof_ZodSchemaValidationError e then
                        let w := logger (openrouter ("Error during OpenRouter chat completion: " ++ JS.message e) 0) w in
                        Thrown (JS.CreateChatCompletionResponseError (JS.message e)) w
                      else Thrown e w
                  end
              | None =>
                  let result := Extracted parsedData (usage response) in
                  match save this key result options w with
                  | (inl error, w) => Thrown error w
                  | (inr _, w) => Returned (Resolved result, w)
                  end
              end
          end
      | None =>
          match save this key (Response response) options w with
          | (inl error, w) => Thrown error w
          | (inr _, w) => Returned (Resolved (Response response), w)
          end
      end
  end.

Definition createChatCompletion_body (this : OpenRouterClient Store)
           (retry : option (World Store -> Outcome * World Store))
           (retries : nat) (options : ChatCompletionOptions)
           (w : World Store) : Outcome * World Store :=
  let w := logger (openrouter "creating chat completion" 2) w in
  let key := cacheOptions (modelName this) options in
  match lookup this key options w with
  | LookupThrew error w => (Rejected error, w)
  | Hit cachedResponse w => (Resolved cachedResponse, w)
  | Miss w =>
      let w :=
        match response_model options with
        | Some rm =>
            match strictJsonSchema (schema rm) with
            | inr _ => w
            | inl error =>
                logger (openrouter "Structured output not supported, falling back to instructions" 1) w
            end
        | None => w
        end in
      match attempt this retry options key w with
      | Returned result => result
      | Thrown error w =>
          let w := logger (openrouter ("OpenRouter request failed: " ++ JS.message error) 0) w in
          match retry with
          | Some again =>
              again (logger (openrouter ("retrying OpenRouter request, "
                                           ++ JS.string_of_nat retries
                                           ++ " attempts remaining") 1) w)
          | None =>
              (Rejected (JS.CreateChatCompletionResponseError
                           ("OpenRouter request failed: " ++ JS.message error)), w)
          end
      end
  end.

Fixpoint createChatCompletion (this : OpenRouterClient Store) (retries : nat)
         (options : ChatCompletionOptions) (w : World Store)
  : Outcome * World Store :=
  createChatCompletion_body this
    match retries with
    | S n => Some (createChatCompletion this n options)
    | O => None
    end
    retries options w.

End Method.

End Native.

(* ================================================================== *)
(** ** The response cache and the span search as the specification words them *)
(* ================================================================== *)

(** The storage behind the cache: an opaque store from keys to values
    whose [get] and [set] may both fail (the left summand) and may both
    change the store. *)
Record Backend (B : Type) : Type := {
  backend_get : string -> B -> (JS.Exn + option Completion) * B;
  backend_set : string -> Completion -> B -> (JS.Exn + unit) * B
}.
Arguments backend_get {B}.
Arguments backend_set {B}.

(** Modelled from the spec: the response cache, class [LLMCache] of
    [lib/cache/LLMCache], which is not among the sources.  An entry is
    looked up by the fingerprint of the request, a miss is not an error,
    [set] overwrites, and an error of the backend is swallowed: on [get] it
    degrades to a miss, on [set] to nothing. *)
Definition ResponseCache {B : Type} (fingerprint : CacheOptions -> string)
           (backend : Backend B) : LLMCache B :=
  {| cache_get := fun key _ s =>
       match backend_get backend (fingerprint key) s with
       | (inl _, s') => (inr None, s')
       | (inr entry, s') => (inr entry, s')
       end;
     cache_set := fun key value _ s =>
       match backend_set backend (fingerprint key) value s with
       | (_, s') => (inr tt, s')
       end |}.

Module Spec.

(** The rest of a balanced span behind its opening brace: everything up to
    the closing brace that brings the nesting depth back to zero. *)
Fixpoint balanced_rest (depth : nat) (s : string) : option string :=
  match s with
  | EmptyString => None
  | String c r =>
      if Ascii.eqb c "{" then option_map (String c) (balanced_rest (S depth) r)
      else if Ascii.eqb c "}" then
        match depth with
        | O => Some (String c EmptyString)
        | S d => option_map (String c) (balanced_rest d r)
        end
      else option_map (String c) (balanced_rest depth r)
  end.

(** The first balanced [{...}] span of a text, in the specification's
    words: the span of the leftmost opening brace that has a matching
    closing brace. *)
Fixpoint first_balanced_span (s : string) : option string :=
  match s with
  | EmptyString => None
  | String c r =>
      if Ascii.eqb c "{" then
        match balanced_rest 0 r with
        | Some rest => Some (String c rest)
        | None => first_balanced_span r
        end
      else first_balanced_span r
  end.

(** LocateJSON and Parse as the specification words them: a text that does
    not parse directly is stripped of its code-fence markers and its first
    balanced span is parsed. *)
Definition decode (extracted : string) : Instr.Decoded :=
  match JSON.parse extracted with
  | Some parsedData => Instr.Parsed parsedData
  | None =>
      match first_balanced_span (Text.strip_code_fences extracted) with
      | Some span =>
          match JSON.parse span with
          | Some parsedData => Instr.Parsed parsedData
          | None => Instr.SecondParseError span
          end
      | None => Instr.NoMatch
      end
  end.

End Spec.

(* ================================================================== *)
(** ** Concrete requests, vendors and caches *)
(* ================================================================== *)

Module Sample.

Definition object_schema : string := dq "{'type':'object'}".

(** A schema that accepts every value and converts to a response format. *)
Definition any_object : ZodSchema :=
  {| safeParse := fun _ => None;
     jsonSchema := object_schema;
     strictJsonSchema := inr object_schema |}.

Definition result_model : ResponseModel :=
  {| name := "Result"; schema := any_object |}.

Definition hello : ChatMessage :=
  {| role := user; content := ContentString "hello" |}.

Definition ask (rid : string) (t : option float)
           (rm : option ResponseModel) : ChatCompletionOptions :=
  {| messages := [hello];
     temperature := t;
     top_p := None;
     frequency_penalty := None;
     presence_penalty := None;
     image := None;
     requestId := rid;
     response_model := rm;
     tools := None;
     tool_choice := None;
     maxTokens := None |}.

(** A reply with one choice. *)
Definition reply (text : option string) (tool_calls : option (list ToolCall))
  : ApiResponse :=
  {| api_id := "gen-1";
     api_created := 1700000000;
     api_choices :=
       [{| api_message := Some {| api_content := text;
                                  api_tool_calls := tool_calls |};
           api_finish_reason := Some "stop" |}];
     api_usage := None |}.

(** A reply without any choice. *)
Definition empty_reply : ApiResponse :=
  {| api_id := "gen-2";
     api_created := 1700000000;
     api_choices := [];
     api_usage := None |}.

Definition always (r : JS.Exn + ApiResponse) : Vendor := fun _ _ => r.

(** A client without cache. *)
Definition plain (v : Vendor) : OpenRouterClient unit :=
  {| modelName := "x-ai/grok-4";
     enableCaching := false;
     cache := None;
     client := v |}.

Definition start : World unit :=
  {| calls := []; logs := []; store := tt |}.

(** A cache of one slot, whatever the key. *)
Definition one_slot : LLMCache (option Completion) :=
  {| cache_get := fun _ _ s => (inr s, s);
     cache_set := fun _ value _ _ => (inr tt, Some value) |}.

Definition cached (v : Vendor) : OpenRouterClient (option Completion) :=
  {| modelName := "x-ai/grok-4";
     enableCaching := true;
     cache := Some one_slot;
     client := v |}.

Definition a_is_1 : JSON.Json :=
  JSON.JObject [(JSON.units_of_string "a", JSON.JNumber "1")].

Definition no_usage : Usage :=
  {| prompt_tokens := 0; completion_tokens := 0; total_tokens := 0 |}.

(** A vendor that rejects every call that asks for a response format and
    answers the others with the text of an object. *)
Definition rejects_response_format : Vendor :=
  fun _ params =>
    match p_response_format params with
    | Some _ => inl (JS.Error "400 response_format is not supported by this model")
    | None => inr (reply (Some (dq "{'a':1}")) None)
    end.

(** A backend that is unavailable: every read and every write fails. *)
Definition broken : Backend unit :=
  {| backend_get := fun _ s => (inl (JS.Error "ECONNREFUSED"), s);
     backend_set := fun _ _ s => (inl (JS.Error "ECONNREFUSED"), s) |}.

(** A client that caches in the response cache over the broken backend,
    with the model name for a fingerprint. *)
Definition over_broken_backend (v : Vendor) : OpenRouterClient unit :=
  {| modelName := "x-ai/grok-4";
     enableCaching := true;
     cache := Some (ResponseCache key_model broken);
     client := v |}.

(** An entry as the cache holds it for a request with a response model. *)
Definition stored : Completion := Extracted a_is_1 no_usage.

End Sample.

(* ================================================================== *)
(** ** Further vendors and caches *)
(* ================================================================== *)

Module Cases.

(** A vendor that rejects its first [k] calls and answers the later ones
    with the text of an object. *)
Definition flaky (k : nat) : Vendor :=
  fun n _ =>
    if Nat.ltb n k then inl (JS.Error "offline")
    else inr (Sample.reply (Some (dq "{'a':1}")) None).

(** A cache object that holds nothing and throws on every write. *)
Definition unwritable : LLMCache unit :=
  {| cache_get := fun _ _ s => (inr None, s);
     cache_set := fun _ _ _ s => (inl (JS.Error "EROFS"), s) |}.

(** A cache object that throws on every read. *)
Definition unreadable : LLMCache unit :=
  {| cache_get := fun _ _ s => (inl (JS.Error "EACCES"), s);
     cache_set := fun _ _ _ s => (inr tt, s) |}.

Definition over (c : LLMCache unit) (v : Vendor) : OpenRouterClient unit :=
  {| modelName := "x-ai/grok-4";
     enableCaching := true;
     cache := Some c;
     client := v |}.

(** A schema that accepts nothing. *)
Definition nothing : ZodSchema :=
  {| safeParse := fun _ => Some "Required";
     jsonSchema := Sample.object_schema;
     strictJsonSchema := inl (JS.Error "unsupported schema") |}.

Definition picture : ContentPart :=
  {| part_type := "image_url";
     part_image_url := Some "https://example.com/a.png";
     part_text := None |}.

Definition caption : ContentPart :=
  {| part_type := "text";
     part_image_url := None;
     part_text := Some "look" |}.

Definition search_tool : LLMTool :=
  {| tool_name := "search";
     tool_description := "search the page";
     tool_properties := None;
     tool_required := None |}.

(** A request with parts in a system message, an image and a tool. *)
Definition rich (rm : option ResponseModel) : ChatCompletionOptions :=
  {| messages := [{| role := system; content := ContentParts [picture; caption] |};
                  {| role := user; content := ContentParts [picture; caption] |};
                  {| role := assistant; content := ContentString "ok" |}];
     temperature := None;
     top_p := None;
     frequency_penalty := None;
     presence_penalty := None;
     image := Some {| buffer := [Byte.x4d]; description := None |};
     requestId := "req-9";
     response_model := rm;
     tools := Some [search_tool];
     tool_choice := None;
     maxTokens := None |}.

(** A client whose caching is off although it holds a cache object. *)
Definition dormant (v : Vendor) : OpenRouterClient (option Completion) :=
  {| modelName := "x-ai/grok-4";
     enableCaching := false;
     cache := Some Sample.one_slot;
     client := v |}.

(** A client whose caching is on although it holds no cache object. *)
Definition cacheless (v : Vendor) : OpenRouterClient unit :=
  {| modelName := "x-ai/grok-4";
     enableCaching := true;
     cache := None;
     client := v |}.

(** The world of the one-slot cache before anything is stored. *)
Definition empty_slot : World (option Completion) :=
  {| calls := []; logs := []; store := None |}.

(** The same with an entry in the slot. *)
Definition full_slot : World (option Completion) :=
  {| calls := []; logs := []; store := Some Sample.stored |}.

(** A vendor that answers every call with the text of an object. *)
Definition obliging : Vendor :=
  Sample.always (inr (Sample.reply (Some (dq "{'a':1}")) None)).

(** A vendor that rejects every call. *)
Definition offline : Vendor := Sample.always (inl (JS.Error "offline")).

End Cases.

(* ================================================================== *)
(** ** The notions the statements use *)
(* ================================================================== *)

Local Open Scope list_scope.

(** Two requests that agree on every field but [requestId]. *)
Definition differ_only_in_requestId (A B : ChatCompletionOptions) : Prop :=
  messages A = messages B
  /\ temperature A = temperature B
  /\ top_p A = top_p B
  /\ frequency_penalty A = frequency_penalty B
  /\ presence_penalty A = presence_penalty B
  /\ image A = image B
  /\ response_model A = response_model B
  /\ tools A = tools B
  /\ tool_choice A = tool_choice B
  /\ maxTokens A = maxTokens B.

(** A part that is read as text: one without [image_url]. *)
Definition is_text_part (c : ContentPart) : bool :=
  match part_image_url c with Some _ => false | None => true end.

Definition creating_line : LogLine := openrouter "creating chat completion" 2.

Definition cache_hit_line : LogLine :=
  {| category := "llm_cache";
     log_message := "LLM cache hit - returning cached response";
     level := 1 |}.

(** The caller gave no temperature, or gave zero. *)
Definition zero_or_absent (t : option float) : Prop :=
  t = None \/ exists x, t = Some x /\ PrimFloat.eqb x 0%float = true.

(** Every cache lookup of the request misses: caching is off, or the cache
    holds nothing for it whenever it is asked. *)
Definition always_misses {Store : Type} (this : OpenRouterClient Store)
           (options : ChatCompletionOptions) : Prop :=
  forall w, exists w',
      lookup this (cacheOptions (modelName this) options) options w = Miss w'.

(** The reply fails at the parse stage of the instruction-based variant:
    there is text to decode, a span is found in it, and the span does not
    parse. *)
Definition instr_fails_at_parse (modelName : string)
           (apiResponse : ApiResponse) : Prop :=
  exists text span,
    Instr.extractedData (formatResponse modelName apiResponse) = Some text
    /\ Instr.decode text = Instr.SecondParseError span.

(** The reply fails at the parse of the native variant. *)
Definition native_fails_at_parse (modelName : string)
           (apiResponse : ApiResponse) : Prop :=
  Native.parseContent
    (msg_content (choice_message (formatResponse modelName apiResponse)))
  = None.

(** The same client with caching switched off. *)
Definition without_cache {Store : Type} (this : OpenRouterClient Store)
  : OpenRouterClient Store :=
  {| modelName := modelName this;
     enableCaching := false;
     cache := cache this;
     client := client this |}.

(** Two runs end alike: the same outcome after the same vendor calls. *)
Definition same_result {Store : Type} (r1 r0 : Outcome * World Store) : Prop :=
  fst r1 = fst r0 /\ calls (snd r1) = calls (snd r0).

Definition same_completed {Store : Type} (c1 c0 : @Completed Store) : Prop :=
  match c1, c0 with
  | Returned r1, Returned r0 => same_result r1 r0
  | Thrown e1 w1, Thrown e0 w0 => e1 = e0 /\ calls w1 = calls w0
  | _, _ => False
  end.

Definition same_retry {Store : Type}
           (retry1 retry0 : option (World Store -> Outcome * World Store))
  : Prop :=
  match retry1, retry0 with
  | Some again1, Some again0 =>
      forall w1 w0, calls w1 = calls w0 -> same_result (again1 w1) (again0 w0)
  | None, None => True
  | _, _ => False
  end.

(** Writing to the cache never throws. *)
Definition save_succeeds {Store : Type} (this : OpenRouterClient Store)
           (options : ChatCompletionOptions) : Prop :=
  forall key value w, exists w',
      save this key value options w = (inr tt, w') /\ calls w' = calls w.

(** The backend never yields an entry for the key: it fails or misses. *)
Definition holds_no_entry {B : Type} (backend : Backend B) (k : string)
  : Prop :=
  forall s entry, fst (backend_get backend k s) <> inr (Some entry).

(** The vendor rejects every call. *)
Definition always_rejects (v : Vendor) : Prop :=
  forall n params, exists error, v n params = inl error.

(** The error an attempt of the instruction-based variant throws when
    [retries] is 0 and the reply yields no data: no content and no tool
    call, a span that does not parse, or no span at all.  [None] when the
    reply decodes. *)
Definition instr_extraction_error (response : LLMResponse) : option JS.Exn :=
  match Instr.extractedData response with
  | None =>
      Some (JS.CreateChatCompletionResponseError
              "No content or tool calls found in OpenRouter response for response_model")
  | Some extracted =>
      match Instr.decode extracted with
      | Instr.SecondParseError span =>
          Some (JS.CreateChatCompletionResponseError
                  ("Failed to parse OpenRouter response as JSON: "
                     ++ JS.message (JSON.syntax_error span))%string)
      | Instr.NoMatch =>
          Some (JS.CreateChatCompletionResponseError
                  ("No JSON found in OpenRouter response: "
                     ++ JS.message (JSON.syntax_error extracted))%string)
      | Instr.Parsed _ => None
      end
  end.

(** The rejection of a call whose last attempt threw [error]. *)
Definition request_failed (error : JS.Exn) : Outcome :=
  Rejected (JS.CreateChatCompletionResponseError
              ("OpenRouter request failed: " ++ JS.message error)%string).

(** Two JSON objects in one text. *)
Definition two_objects : string := dq "{'a':1} and {'b':2}".

(** A tool call whose arguments are the text of an object. *)
Definition tool_call_a_is_1 : ToolCall :=
  {| call_id := "call-1";
     call_function_name := "emit";
     call_arguments := dq "{'a':1}" |}.

(** The content and the tool calls of the vendor's reply. *)
Definition reply_content (apiResponse : ApiResponse) : option string :=
  match firstMessage apiResponse with
  | Some m => api_content m
  | None => None
  end.

Definition reply_tool_calls (apiResponse : ApiResponse) : list ToolCall :=
  match firstMessage apiResponse with
  | Some m => match api_tool_calls m with
              | Some calls => calls
              | None => []
              end
  | None => []
  end.

(** The value is an entry the cache yields for the request. *)
Definition from_cache {Store : Type} (this : OpenRouterClient Store)
           (options : ChatCompletionOptions) (value : Completion) : Prop :=
  enableCaching this = true
  /\ exists c s,
      cache this = Some c
      /\ fst (cache_get c (cacheOptions (modelName this) options)
                        (requestId options) s)
         = inr (Some value).

(** Whatever the retry resolves to is an entry of the cache. *)
Definition resolves_from_cache {Store : Type} (this : OpenRouterClient Store)
           (options : ChatCompletionOptions)
           (retry : option (World Store -> Outcome * World Store)) : Prop :=
  forall again, retry = Some again ->
    forall w value w', again w = (Resolved value, w') ->
                       from_cache this options value.

(** The terminal error of the instruction-based variant when the last
    attempt failed to parse [span]: the [catch] clause wraps the message of
    the error the attempt threw. *)
Definition instr_parse_failure (span : string) : JS.Exn :=
  JS.CreateChatCompletionResponseError
    ("OpenRouter request failed: "
       ++ JS.message
            (JS.CreateChatCompletionResponseError
               ("Failed to parse OpenRouter response as JSON: "
                  ++ JS.message (JSON.syntax_error span))))%string.

(** The terminal error of the native variant when the last attempt failed
    to parse [text]. *)
Definition native_parse_failure (text : string) : JS.Exn :=
  JS.CreateChatCompletionResponseError
    ("OpenRouter request failed: " ++ JS.message (JSON.syntax_error text))%string.

(** What a successful call has consumed, and the fuel that is enough for
    it. *)
Definition enough (s rest : string) (g : nat) : Prop :=
  2 * (String.length s - String.length rest) <= g.

Definition value_ok (f : nat) : Prop :=
  forall s v rest,
    JSON.parse_value f s = Some (v, rest) ->
    String.length rest < String.length s
    /\ forall g, enough s rest g -> JSON.parse_value g s = Some (v, rest).

Definition elements_ok (f : nat) : Prop :=
  forall acc s v rest,
    JSON.parse_elements f acc s = Some (v, rest) ->
    String.length rest < String.length s
    /\ forall g, enough s rest g -> JSON.parse_elements g acc s = Some (v, rest).

Definition members_ok (f : nat) : Prop :=
  forall acc s v rest,
    JSON.parse_members f acc s = Some (v, rest) ->
    String.length rest < String.length s
    /\ forall g, enough s rest g -> JSON.parse_members g acc s = Some (v, rest).

(* ================================================================== *)
(** ** One attempt, and the retries as a bounded loop *)
(* ================================================================== *)

(** What one attempt comes to when no cache lookup hits and no cache write
    throws: the value the call resolves to, or the error the attempt ends
    with. *)
Inductive Verdict : Type :=
| Good (value : Completion)
| Bad (error : JS.Exn).

(** The attempt of the instruction-based variant on the call number [n] of
    the vendor. *)
Definition instr_verdict {Store : Type} (this : OpenRouterClient Store)
           (options : ChatCompletionOptions) (n : nat) : Verdict :=
  match client this n (Instr.request (modelName this) options) with
  | inl error => Bad error
  | inr apiResponse =>
      let response := formatResponse (modelName this) apiResponse in
      match response_model options with
      | None => Good (Response response)
      | Some rm =>
          match Instr.extractedData response with
          | None =>
              Bad (JS.CreateChatCompletionResponseError
                     "No content or tool calls found in OpenRouter response for response_model")
          | Some extracted =>
              match Instr.decode extracted with
              | Instr.SecondParseError span =>
                  Bad (JS.CreateChatCompletionResponseError
                         ("Failed to parse OpenRouter response as JSON: "
                            ++ JS.message (JSON.syntax_error span))%string)
              | Instr.NoMatch =>
                  Bad (JS.CreateChatCompletionResponseError
                         ("No JSON found in OpenRouter response: "
                            ++ JS.message (JSON.syntax_error extracted))%string)
              | Instr.Parsed parsedData =>
                  match validateZodSchema (schema rm) parsedData with
                  | Some e =>
                      Bad (if JS.instanceof_ZodSchemaValidationError e
                           then JS.CreateChatCompletionResponseError
                                  (JS.message e)
                           else e)
                  | None => Good (Extracted parsedData (usage response))
                  end
              end
          end
      end
  end.

(** The attempt of the native variant on the call number [n]. *)
Definition native_verdict {Store : Type} (this : OpenRouterClient Store)
           (options : ChatCompletionOptions) (n : nat) : Verdict :=
  match client this n (Native.request (modelName this) options) with
  | inl error => Bad error
  | inr apiResponse =>
      let response := formatResponse (modelName this) apiResponse in
      match response_model options with
      | None => Good (Response response)
      | Some rm =>
          let extractedData := msg_content (choice_message response) in
          match Native.parseContent extractedData with
          | None =>
              Bad (JSON.syntax_error
                     (match extractedData with
                      | Some t => t
                      | None => "null"
                      end))
          | Some parsedData =>
              match validateZodSchema (schema rm) parsedData with
              | Some e =>
                  Bad (if JS.instanceof_ZodSchemaValidationError e
                       then JS.CreateChatCompletionResponseError (JS.message e)
                       else e)
              | None => Good (Extracted parsedData (usage response))
              end
          end
      end
  end.

(** The retries written as a loop: attempt number [n], then, while the
    attempt is bad and [retries] is left, the next one.  The result is the
    outcome and the number of attempts made. *)
Fixpoint attempts (verdict : nat -> Verdict) (retries : nat) (n : nat)
  : Outcome * nat :=
  match verdict n with
  | Good value => (Resolved value, 1)
  | Bad error =>
      match retries with
      | S r => let (outcome, k) := attempts verdict r (S n) in (outcome, S k)
      | O => (request_failed error, 1)
      end
  end.

(** The lookup that opens a call from [w] misses. *)
Definition misses_at {Store : Type} (this : OpenRouterClient Store)
           (options : ChatCompletionOptions) (w : World Store) : Prop :=
  exists w1,
    lookup this (cacheOptions (modelName this) options) options
           (logger creating_line w) = Miss w1.

(** What the lookup that opens a call leaves of the store [s] when it
    misses; [None] when it hits or throws. *)
Definition missed {Store : Type} (this : OpenRouterClient Store)
           (options : ChatCompletionOptions) (s : Store) : option Store :=
  if enableCaching this then
    match cache this with
    | None => None
    | Some c =>
        match cache_get c (cacheOptions (modelName this) options)
                        (requestId options) s with
        | (inr None, s') => Some s'
        | _ => None
        end
    end
  else Some s.

(** The first [n + 1] lookups of a call miss: the first on the store [s],
    each later one on the store the one before left.  An attempt that
    fails writes nothing to the cache, so that these are the lookups of a
    call and its retries as long as the attempts fail. *)
Fixpoint keeps_missing {Store : Type} (this : OpenRouterClient Store)
         (options : ChatCompletionOptions) (n : nat) (s : Store) : Prop :=
  match missed this options s with
  | Some s' =>
      match n with
      | O => True
      | S m => keeps_missing this options m s'
      end
  | None => False
  end.

(** A cache that gives back what was set: [set] does not throw, and after
    it [get] for the same key yields the value, whatever the request
    identifiers, and leaves the store as it is. *)
Definition gives_back {Store : Type} (c : LLMCache Store) : Prop :=
  forall key value rid s, exists s',
      cache_set c key value rid s = (inr tt, s')
      /\ forall rid', cache_get c key rid' s' = (inr (Some value), s').

(** Reading the cache leaves the store as it is. *)
Definition reads_quietly {Store : Type} (this : OpenRouterClient Store)
  : Prop :=
  forall c, cache this = Some c ->
            forall key rid s, snd (cache_get c key rid s) = s.

(** A cache write that throws leaves the store as it is. *)
Definition failed_writes_keep_store {Store : Type}
           (this : OpenRouterClient Store) : Prop :=
  forall c, cache this = Some c ->
            forall key value rid s error s',
              cache_set c key value rid s = (inl error, s') -> s' = s.

(** Every cache write throws. *)
Definition writes_always_throw {Store : Type} (c : LLMCache Store) : Prop :=
  forall key value rid s, exists error s',
      cache_set c key value rid s = (inl error, s').

(** A retry that, when it rejects, leaves the store as it found it. *)
Definition rejects_keep_store {Store : Type}
           (retry : option (World Store -> Outcome * World Store)) : Prop :=
  forall again, retry = Some again ->
    forall w error w', again w = (Rejected error, w') -> store w' = store w.

(** A retry that leaves the store as it found it. *)
Definition keeps_store {Store : Type}
           (retry : option (World Store -> Outcome * World Store)) : Prop :=
  forall again, retry = Some again ->
    forall w, store (snd (again w)) = store w.

(** Every write of the client to its cache throws. *)
Definition save_throws {Store : Type} (this : OpenRouterClient Store)
           (options : ChatCompletionOptions) : Prop :=
  forall key value w, exists error w',
      save this key value options w = (inl error, w') /\ calls w' = calls w.

(** A message of the vendor request without image part. *)
Definition text_only (m : MessageParam) : bool :=
  match param_content m with
  | StringParam _ => true
  | PartsParam parts => forallb is_text parts
  end.

(** The roles of the messages a request adds behind the caller's: one user
    message for an image, one for a schema instruction. *)
Definition appended_roles (with_image with_instruction : bool) : list Role :=
  (if with_image then [user] else [])
    ++ (if with_instruction then [user] else []).

Definition has_image (options : ChatCompletionOptions) : bool :=
  match image options with Some _ => true | None => false end.

Definition has_response_model (options : ChatCompletionOptions) : bool :=
  match response_model options with Some _ => true | None => false end.

(** The native variant falls back to the instruction: there is a response
    model and [zodResponseFormat] throws on its schema. *)
Definition native_falls_back (options : ChatCompletionOptions) : bool :=
  match response_model options with
  | Some rm => match strictJsonSchema (schema rm) with
               | inl _ => true
               | inr _ => false
               end
  | None => false
  end.

(** [s] without the line feed in front of it, if it has one. *)
Definition chomp (s : string) : string :=
  match s with
  | String c r => if Ascii.eqb c (ascii_of_nat 10) then r else s
  | EmptyString => s
  end.

(** [s] is empty or starts neither with a backtick nor with the first
    letter of the tag of a fence. *)
Definition plain_start (s : string) : bool :=
  match s with
  | EmptyString => true
  | String c _ => negb (Ascii.eqb c Text.backtick) && negb (Ascii.eqb c "j")
  end.

(** A reply in a markdown fence: prose, the opening fence with its language
    tag, the object on lines of its own, the closing fence. *)
Definition fenced (prose object : string) : string :=
  (prose ++ Text.fence_json ++ LF ++ object ++ LF ++ Text.fence)%string.

(** A reply whose object holds a fence marker inside a string value, with
    prose in front of it, and the object the variant decodes it to. *)
Definition fence_in_value : string := "Result: " ++ dq "{'a':'```'}".

Definition a_is_empty : JSON.Json :=
  JSON.JObject [(JSON.units_of_string "a", JSON.JString [])].

(** The error an attempt throws on a text that yields no data: the span
    does not parse, or there is no span.  [None] when the text decodes. *)
Definition decode_error (text : string) : option JS.Exn :=
  match Instr.decode text with
  | Instr.Parsed _ => None
  | Instr.SecondParseError span =>
      Some (JS.CreateChatCompletionResponseError
              ("Failed to parse OpenRouter response as JSON: "
                 ++ JS.message (JSON.syntax_error span))%string)
  | Instr.NoMatch =>
      Some (JS.CreateChatCompletionResponseError
              ("No JSON found in OpenRouter response: "
                 ++ JS.message (JSON.syntax_error text))%string)
  end.

(** A reply with both a content and a tool call, each the text of an
    object, and the two objects differ. *)
Definition content_and_tool_call : ApiResponse :=
  Sample.reply (Some (dq "{'a':''}")) (Some [tool_call_a_is_1]).

(** A request with a tool and the caller's own tool choice. *)
Definition insisting : ChatCompletionOptions :=
  {| messages := [Sample.hello];
     temperature := None;
     top_p := None;
     frequency_penalty := None;
     presence_penalty := None;
     image := None;
     requestId := "req-7";
     response_model := None;
     tools := Some [Cases.search_tool];
     tool_choice := Some "required";
     maxTokens := None |}.

(** A schema that accepts every value and for which [zodResponseFormat]
    throws. *)
Definition unconvertible : ZodSchema :=
  {| safeParse := fun _ => None;
     jsonSchema := Sample.object_schema;
     strictJsonSchema := inl (JS.Error "unsupported schema") |}.

Definition fallback_line : string :=
  "Structured output not supported, falling back to instructions".

(* ================================================================== *)
(** ** Plain objects and their literals *)
(* ================================================================== *)

(** The values held by the option and configuration objects and returned
    by the tasks.  An object or function that is only handed on (a client,
    a bound logger) is a reference: none of its properties is read. *)
#[warnings="-register-all"]
Inductive Value : Type :=
| VUndefined
| VNull
| VBool (b : bool)
| VNumber (x : float)
| VString (s : string)
| VRef (n : nat)
| VObject (fields : list (string * Value)).

Module Obj.

(** An object: its own enumerable properties in their order. *)
Definition t : Type := list (string * Value).

Definition truthy (v : Value) : bool :=
  match v with
  | VUndefined | VNull => false
  | VBool b => b
  | VNumber x => JS.truthy_number x
  | VString s => JS.truthy_string s
  | VRef _ | VObject _ => true
  end.

(** [a || b] *)
Definition or (a b : Value) : Value := if truthy a then a else b.

(** [k in o], for own properties. *)
Fixpoint has (k : string) (o : t) : bool :=
  match o with
  | [] => false
  | (k', _) :: r => String.eqb k k' || has k r
  end.

(** [o[k]] *)
Fixpoint get (k : string) (o : t) : Value :=
  match o with
  | [] => VUndefined
  | (k', v) :: r => if String.eqb k k' then v else get k r
  end.

(** [o[k] = v]: in place when the property exists, behind the others when
    it does not. *)
Fixpoint set (k : string) (v : Value) (o : t) : t :=
  match o with
  | [] => [(k, v)]
  | (k', v') :: r =>
      if String.eqb k k' then (k, v) :: r else (k', v') :: set k v r
  end.

(** [...src] inside an object literal: every own property of [src] is set
    on the object under construction, in the order of [src]. *)
Definition spread (target src : t) : t :=
  fold_left (fun o k => set k (get k src) o) (map fst src) target.

(** [...src] for an optional object: undefined spreads to nothing. *)
Definition spread_optional (target : t) (src : option t) : t :=
  match src with
  | Some o => spread target o
  | None => target
  end.

(** [x && { k: x }] for an optional number, as far as a spread sees it:
    the object when [x] is truthy; undefined, 0 and NaN spread to
    nothing. *)
Definition guarded (k : string) (x : option float) : t :=
  match x with
  | Some n => if JS.truthy_number n then [(k, VNumber n)] else []
  | None => []
  end.

(** An optional number as a value. *)
Definition number (x : option float) : Value :=
  match x with Some n => VNumber n | None => VUndefined end.

(** [process.env.NAME] *)
Definition env (v : option string) : Value :=
  match v with Some s => VString s | None => VUndefined end.

(** [v.k]: reading a property of undefined or null throws; a primitive
    and a reference have no property of the names read here. *)
Definition member (k : string) (v : Value) : JS.Exn + Value :=
  match v with
  | VUndefined =>
      inl (JS.TypeError
             ("Cannot read properties of undefined (reading '" ++ k ++ "')")%string)
  | VNull =>
      inl (JS.TypeError
             ("Cannot read properties of null (reading '" ++ k ++ "')")%string)
  | VObject fields => inr (get k fields)
  | _ => inr VUndefined
  end.

(** An optional object has the own property [k]. *)
Definition owns (o : option t) (k : string) : bool :=
  match o with Some fields => has k fields | None => false end.

(** [o?.[k]] *)
Definition read (o : option t) (k : string) : Value :=
  match o with Some fields => get k fields | None => VUndefined end.

End Obj.

(* ================================================================== *)
(** ** The constructor of the client *)
(* ================================================================== *)

(** The argument of [new OpenAI(...)]: the three properties the literal
    names, then the caller's [clientOptions] spread over them. *)
Definition openAIOptions (clientOptions : option Obj.t)
           (OPENROUTER_API_KEY : option string) : Obj.t :=
  let o := [] in
  let o := Obj.set "baseURL" (VString "https://openrouter.ai/api/v1") o in
  let o :=
    Obj.set "apiKey"
            (Obj.or (Obj.read clientOptions "apiKey")
                    (Obj.env OPENROUTER_API_KEY)) o in
  let o :=
    Obj.set "defaultHeaders"
            (VObject [("HTTP-Referer", VString "https://stagehand.dev");
                      ("X-Title", VString "Stagehand")]) o in
  Obj.spread_optional o clientOptions.

(** The argument of the constructor; [logger] and
    [userProvidedInstructions] play no part in the method. *)
Record ConstructorParams (Store : Type) : Type := {
  params_enableCaching : option bool;
  params_cache : option (LLMCache Store);
  params_modelName : string;
  params_clientOptions : option Obj.t
}.
Arguments params_enableCaching {Store}.
Arguments params_cache {Store}.
Arguments params_modelName {Store}.
Arguments params_clientOptions {Store}.

(** [new OpenRouterClient({ ... })], the same in both variants.  [OpenAI]
    is the constructor of the vendor's library: the client it builds from
    its options. *)
Definition constructor {Store : Type} (OpenAI : Obj.t -> Vendor)
           (OPENROUTER_API_KEY : option string)
           (params : ConstructorParams Store) : OpenRouterClient Store :=
  {| modelName := params_modelName params;
     enableCaching :=
       match params_enableCaching params with
       | Some b => b
       | None => false
       end;
     cache := params_cache params;
     client :=
       OpenAI (openAIOptions (params_clientOptions params)
                             OPENROUTER_API_KEY) |}.

(* ================================================================== *)
(** ** String methods used by the evaluation harness *)
(* ================================================================== *)

Module Str.

(** [toLowerCase] on one code unit: the letters A to Z; no code unit
    outside ASCII lowers to an ASCII letter of the words compared here. *)
Definition lower (c : ascii) : ascii :=
  let n := nat_of_ascii c in
  if (65 <=? n)%nat && (n <=? 90)%nat then ascii_of_nat (n + 32) else c.

Fixpoint toLowerCase (s : string) : string :=
  match s with
  | EmptyString => EmptyString
  | String c r => String (lower c) (toLowerCase r)
  end.

(** [s.startsWith(pattern)] *)
Definition startsWith (pattern s : string) : bool := String.prefix pattern s.

(** [s.includes(pattern)] *)
Fixpoint includes (pattern s : string) : bool :=
  String.prefix pattern s
  || match s with
     | EmptyString => false
     | String _ r => includes pattern r
     end.

(** [s.indexOf(c)] for a one-character pattern: -1 when absent. *)
Fixpoint indexOf (c : ascii) (s : string) : Z :=
  match s with
  | EmptyString => (-1)%Z
  | String a r =>
      if Ascii.eqb a c then 0%Z
      else match indexOf c r with
           | Zneg _ => (-1)%Z
           | i => (i + 1)%Z
           end
  end.

Fixpoint drop (n : nat) (s : string) : string :=
  match n, s with
  | S m, String _ r => drop m r
  | _, _ => s
  end.

(** [s.substring(start)]: a negative start counts as 0. *)
Definition substring (start : Z) (s : string) : string :=
  drop (Z.to_nat start) s.

(** [s.split(c)] for a one-character separator. *)
Fixpoint split (c : ascii) (s : string) : list string :=
  match s with
  | EmptyString => [EmptyString]
  | String a r =>
      if Ascii.eqb a c then EmptyString :: split c r
      else match split c r with
           | segment :: segments => String a segment :: segments
           | [] => [String a EmptyString]
           end
  end.

(** [array.pop()], as far as its value goes: the last element, undefined
    on an empty array. *)
Fixpoint pop (array : list string) : option string :=
  match array with
  | [] => None
  | [x] => Some x
  | _ :: r => pop r
  end.

(** [array.includes(x)] on an array of strings. *)
Definition array_includes (array : list string) (x : string) : bool :=
  existsb (String.eqb x) array.

End Str.

(* ================================================================== *)
(** ** The evaluation harness ([src/evals], [src/unnamed/part_000]) *)
(* ================================================================== *)

Module Evals.

(** [env.ts]: [process.env.EVAL_ENABLE_CACHING?.toLowerCase() === "true"] *)
Definition enableCaching (EVAL_ENABLE_CACHING : option string) : bool :=
  match EVAL_ENABLE_CACHING with
  | Some s => String.eqb (Str.toLowerCase s) "true"
  | None => false
  end.

(** [StagehandConfig] and [ZQueryStagehandConfig]: the same literal. *)
Definition StagehandConfig (EVAL_ENABLE_CACHING : option string) : Obj.t :=
  let o := [] in
  let o := Obj.set "env" (VString "LOCAL") o in
  let o := Obj.set "verbose" (VNumber 2) o in
  let o := Obj.set "debugDom" (VBool true) o in
  let o := Obj.set "headless" (VBool true) o in
  let o := Obj.set "enableCaching"
                   (VBool (enableCaching EVAL_ENABLE_CACHING)) o in
  let o := Obj.set "domSettleTimeoutMs" (VNumber 30000) o in
  let o := Obj.set "disablePino" (VBool true) o in
  let o := Obj.set "experimental" (VBool true) o in
  o.

(** The argument of [initStagehand] and of [initStagehandZQuery]. *)
Record InitParams : Type := {
  llmClient : Value;
  domSettleTimeoutMs : option float;
  log : Value;                          (* [logger.log.bind(logger)] *)
  configOverrides : option Obj.t;
  actTimeoutMs : option float;
  init_modelName : string
}.

(** [config] of [initStagehand] ([src/unnamed/part_000]). *)
Definition config (EVAL_ENABLE_CACHING : option string) (p : InitParams)
  : Obj.t :=
  let o := [] in
  let o := Obj.spread o (StagehandConfig EVAL_ENABLE_CACHING) in
  let o := Obj.set "llmClient" (llmClient p) o in
  let o := Obj.spread o (Obj.guarded "domSettleTimeoutMs"
                                     (domSettleTimeoutMs p)) in
  let o := Obj.set "actTimeoutMs" (Obj.number (actTimeoutMs p)) o in
  let o := Obj.spread_optional o (configOverrides p) in
  let o := Obj.set "logger" (log p) o in
  o.

(** [wrapperConfig] of [initStagehandZQuery]
    ([src/evals/initStagehand_zquery.ts]). *)
Definition wrapperConfig (EVAL_ENABLE_CACHING : option string)
           (p : InitParams) : Obj.t :=
  let o := [] in
  let o := Obj.spread o (StagehandConfig EVAL_ENABLE_CACHING) in
  let o := Obj.set "modelName" (VString (init_modelName p)) o in
  let o := Obj.spread o (Obj.guarded "domSettleTimeoutMs"
                                     (domSettleTimeoutMs p)) in
  let o := Obj.spread o (Obj.guarded "actTimeoutMs" (actTimeoutMs p)) in
  let o := Obj.spread_optional o (configOverrides p) in
  o.

(** *** The task of the runner ([index_zquery.eval.ts]) *)

(** [input.name.includes("/") ? input.name.split("/").pop() : input.name] *)
Definition taskName (name : string) : option string :=
  if Str.includes "/" name then Str.pop (Str.split "/" name) else Some name.

Inductive Provider : Type := openai | google | anthropic | groq | cerebras.

(** The client the task sets up. *)
Inductive Client : Type :=
| AISdkClient (provider : Provider) (model : string)
| CustomOpenAIClient (modelName baseURL : string).

(** The chain of conditions on [input.modelName]; [None] is the variable
    [llmClient] left unassigned. *)
Definition selectClient (modelName : string) : option Client :=
  if Str.startsWith "gpt" modelName || Str.startsWith "o" modelName then
    Some (AISdkClient openai modelName)
  else if Str.startsWith "gemini" modelName then
    Some (AISdkClient google modelName)
  else if Str.startsWith "claude" modelName then
    Some (AISdkClient anthropic modelName)
  else if Str.includes "groq" modelName then
    Some (AISdkClient groq
            (Str.substring (Str.indexOf "/" modelName + 1) modelName))
  else if Str.includes "cerebras" modelName then
    Some (AISdkClient cerebras
            (Str.substring (Str.indexOf "/" modelName + 1) modelName))
  else if Str.includes "/" modelName then
    Some (CustomOpenAIClient modelName "https://api.together.xyz/v1")
  else None.

(** *** The test cases *)

(** What [generateFilteredTestcases] imports: the tasks by name, in the
    order of [Object.keys], the list of task configurations, the default
    categories, the model list of a category, and the two filters of the
    command line. *)
Record Suite : Type := {
  tasksByName : list (string * list string);
  tasksConfig : list (string * list string);
  DEFAULT_EVAL_CATEGORIES : list string;
  getModelList : option string -> list string;
  filterByEvalName : option string;
  filterByCategory : option string
}.

Record Input : Type := {
  name : string;
  input_modelName : string
}.

Record Metadata : Type := {
  model : string;
  test : string;
  metadata_categories : option (list string);
  wrapper : string
}.

Record Testcase : Type := {
  input : Input;
  testcase_name : string;
  tags : list string;
  metadata : Metadata;
  expected : bool
}.

(** [tasksByName[name]?.categories] *)
Definition categoriesOf (suite : Suite) (name : string)
  : option (list string) :=
  option_map snd
    (find (fun entry => String.eqb (fst entry) name) (tasksByName suite)).

(** [tasksConfig.find((t) => t.name === testName)?.categories] *)
Definition configuredCategories (suite : Suite) (testName : string)
  : option (list string) :=
  option_map snd
    (find (fun t => String.eqb (fst t) testName) (tasksConfig suite)).

(** Truthiness of a filter: null and the empty string are falsy. *)
Definition given (filter : option string) : option string :=
  match filter with
  | Some s => if JS.truthy_string s then Some s else None
  | None => None
  end.

Definition or_empty (categories : option (list string)) : list string :=
  match categories with Some cs => cs | None => [] end.

(** [tasksByName[name].categories.includes(category)] for a name taken
    from [Object.keys(tasksByName)]. *)
Definition keyHasCategory (suite : Suite) (category name : string) : bool :=
  Str.array_includes (or_empty (categoriesOf suite name)) category.

Definition taskNamesToRun (suite : Suite) : list string :=
  match given (filterByEvalName suite) with
  | Some evalName => [evalName]
  | None =>
      match given (filterByCategory suite) with
      | Some category =>
          filter (keyHasCategory suite category)
                 (map fst (tasksByName suite))
      | None =>
          filter (fun name =>
                    existsb (fun category => keyHasCategory suite category name)
                            (DEFAULT_EVAL_CATEGORIES suite))
                 (map fst (tasksByName suite))
      end
  end.

Definition effectiveCategory (suite : Suite) : option string :=
  match given (filterByEvalName suite) with
  | Some evalName =>
      match or_empty (categoriesOf suite evalName) with
      | [category] =>
          if String.eqb category "agent" then Some "agent"%string
          else filterByCategory suite
      | _ => filterByCategory suite
      end
  | None => filterByCategory suite
  end.

Definition testcase (suite : Suite) (model testName : string) : Testcase :=
  {| input := {| name := testName; input_modelName := model |};
     testcase_name := testName;
     tags :=
       [model; testName; "zquery-wrapper"%string]
         ++ map (fun x => ("category/" ++ x)%string)
                (or_empty (configuredCategories suite testName));
     metadata :=
       {| model := model;
          test := testName;
          metadata_categories := configuredCategories suite testName;
          wrapper := "UnifiedStagehandManager" |};
     expected := true |}.

(** [currentModels.flatMap((model) => taskNamesToRun.map(...))] *)
Definition allTestcases (suite : Suite) : list Testcase :=
  flat_map (fun model => map (testcase suite model) (taskNamesToRun suite))
           (getModelList suite (effectiveCategory suite)).

(** The closing filter: reading [categories] of a task that
    [tasksByName] does not hold throws. *)
Fixpoint keepCategory (suite : Suite) (category : string)
         (testcases : list Testcase) : JS.Exn + list Testcase :=
  match testcases with
  | [] => inr []
  | t :: rest =>
      match categoriesOf suite (testcase_name t) with
      | None =>
          inl (JS.TypeError
                 "Cannot read properties of undefined (reading 'categories')")
      | Some categories =>
          match keepCategory suite category rest with
          | inl error => inl error
          | inr kept =>
              inr (if Str.array_includes categories category
                   then t :: kept else kept)
          end
      end
  end.

Definition generateFilteredTestcases (suite : Suite)
  : JS.Exn + list Testcase :=
  match given (filterByCategory suite) with
  | Some category => keepCategory suite category (allTestcases suite)
  | None => inr (allTestcases suite)
  end.

(** *** The summary *)

Record SummaryResult : Type := {
  summary_input : Input;
  output : Value;
  summary_name : string;
  score : nat
}.

(** The callback of [evalResult.results.map]: a boolean output is wrapped,
    and [_success] is read off the output. *)
Definition summaryResult (result : Input * Value) : JS.Exn + SummaryResult :=
  let output :=
    match snd result with
    | VBool b => VObject [("_success"%string, VBool b)]
    | other => other
    end in
  match Obj.member "_success" output with
  | inl error => inl error
  | inr success =>
      inr {| summary_input := fst result;
             output := output;
             summary_name := name (fst result);
             score := if Obj.truthy success then 1 else 0 |}
  end.

(** [r.output._success] on a summary result, whose output is an object. *)
Definition succeeded (r : SummaryResult) : bool :=
  match Obj.member "_success" (output r) with
  | inr success => Obj.truthy success
  | inl _ => false
  end.

Record Line : Type := {
  line_eval : string;
  line_model : string;
  line_categories : list string
}.

(** The callback of [.map] in [passed] and [failed]: reading [categories]
    of a task that [tasksByName] does not hold throws. *)
Fixpoint lines (suite : Suite) (results : list SummaryResult)
  : JS.Exn + list Line :=
  match results with
  | [] => inr []
  | r :: rest =>
      match categoriesOf suite (name (summary_input r)) with
      | None =>
          inl (JS.TypeError
                 "Cannot read properties of undefined (reading 'categories')")
      | Some categories =>
          match lines suite rest with
          | inl error => inl error
          | inr ls =>
              inr ({| line_eval := name (summary_input r);
                      line_model := input_modelName (summary_input r);
                      line_categories := categories |} :: ls)
          end
      end
  end.

(** [passed] and [failed] of [generateSummary]. *)
Definition passed (suite : Suite) (results : list SummaryResult)
  : JS.Exn + list Line :=
  lines suite (filter succeeded results).

Definition failed (suite : Suite) (results : list SummaryResult)
  : JS.Exn + list Line :=
  lines suite (filter (fun r => negb (succeeded r)) results).

(** *** The task [zquery_extract_multiple] ([src/unnamed/part_001]) *)

Record Item : Type := {
  title : Value;
  success : Value
}.

(** What the wrapper does when called: construct, [init],
    [extractFromMultiple] and [close], each of which may throw. *)
Record Wrapper : Type := {
  constructed : JS.Exn + unit;
  initialised : JS.Exn + unit;
  extracted : JS.Exn + list Item;
  closed : JS.Exn + unit
}.

Record TaskResult : Type := {
  _success : bool;
  extractedItems : option nat;
  successfulExtractions : option nat;
  results : option (list Item);
  error : option string
}.

(** [item.title && item.title !== "title not found"], as [some] reads
    it. *)
Definition titled (item : Item) : bool :=
  Obj.truthy (title item)
  && match title item with
     | VString s => negb (String.eqb s "title not found")
     | _ => true
     end.

Definition caught (e : JS.Exn) : TaskResult :=
  {| _success := false;
     extractedItems := None;
     successfulExtractions := None;
     results := None;
     error := Some (JS.message e) |}.

Definition zquery_extract_multiple (wrapper : Wrapper) : TaskResult :=
  match constructed wrapper with
  | inl e => caught e
  | inr _ =>
      match initialised wrapper with
      | inl e => caught e
      | inr _ =>
          match extracted wrapper with
          | inl e => caught e
          | inr items =>
              match closed wrapper with
              | inl e => caught e
              | inr _ =>
                  {| _success :=
                       (2 <=? List.length items)%nat && existsb titled items;
                     extractedItems := Some (List.length items);
                     successfulExtractions :=
                       Some (List.length
                               (filter (fun item => Obj.truthy (success item))
                                       items));
                     results := Some items;
                     error := None |}
              end
          end
      end
  end.

End Evals.

(* ================================================================== *)
(** ** Concrete suites, parameters and results *)
(* ================================================================== *)

Module EvalCases.

Definition tasks : list (string * list string) :=
  [("extract_repo_name"%string, ["extract"%string]);
   ("agent/google_flights"%string, ["agent"%string]);
   ("observe_github"%string, ["observe"%string; "regression"%string])].

Definition models (category : option string) : list string :=
  match category with
  | Some c =>
      if String.eqb c "agent" then ["claude-3-7-sonnet-latest"%string]
      else ["gpt-4o-mini"%string; "groq/llama-3.3-70b-versatile"%string]
  | None => ["gpt-4o-mini"%string; "groq/llama-3.3-70b-versatile"%string]
  end.

(** The suite under the two filters of the command line. *)
Definition suite (evalName category : option string) : Evals.Suite :=
  {| Evals.tasksByName := tasks;
     Evals.tasksConfig := tasks;
     Evals.DEFAULT_EVAL_CATEGORIES := ["extract"%string; "observe"%string];
     Evals.getModelList := models;
     Evals.filterByEvalName := evalName;
     Evals.filterByCategory := category |}.

Definition ran (name model : string) (output : Value)
  : Evals.Input * Value :=
  ({| Evals.name := name; Evals.input_modelName := model |}, output).

Definition summarised (name model : string) (ok : bool)
  : Evals.SummaryResult :=
  {| Evals.summary_input :=
       {| Evals.name := name; Evals.input_modelName := model |};
     Evals.output := VObject [("_success"%string, VBool ok)];
     Evals.summary_name := name;
     Evals.score := if ok then 1 else 0 |}.

Definition known_results : list Evals.SummaryResult :=
  [summarised "extract_repo_name" "gpt-4o-mini" true;
   summarised "observe_github" "gpt-4o-mini" false;
   summarised "agent/google_flights" "claude-3-7-sonnet-latest" true].

Definition stray : Evals.SummaryResult :=
  summarised "retired_task" "gpt-4o-mini" false.

(** Parameters of an initialisation whose overrides name a logger and the
    head mode, with both timeouts at 0. *)
Definition overridden : Evals.InitParams :=
  {| Evals.llmClient := VRef 1;
     Evals.domSettleTimeoutMs := Some 0%float;
     Evals.log := VRef 2;
     Evals.configOverrides :=
       Some [("logger"%string, VRef 3); ("headless"%string, VBool false)];
     Evals.actTimeoutMs := Some 0%float;
     Evals.init_modelName := "gpt-4o-mini" |}.

(** Construction without [enableCaching], with a cache object. *)
Definition with_cache_only : ConstructorParams (option Completion) :=
  {| params_enableCaching := None;
     params_cache := Some Sample.one_slot;
     params_modelName := "x-ai/grok-4";
     params_clientOptions := None |}.

End EvalCases.

(* ================================================================== *)
(** ** The parser and the text functions on concrete texts *)
(* ================================================================== *)

Example parse_object : JSON.parse (dq "{'a':1}") = Some Sample.a_is_1.
Proof. vm_compute. reflexivity. Qed.

Example parse_repeated_key :
  JSON.parse (dq " { 'k' : [1, -2.5e+3, true, null, 'x\ny'], 'k': {} } " ++ LF)%string
  = Some (JSON.JObject [(JSON.units_of_string "k", JSON.JObject [])]).
Proof. vm_compute. reflexivity. Qed.

Example parse_array :
  JSON.parse (dq "[1, -2.5e+3, true, null, 'x\ny', [], [[]], {'a':{'b':[0]}}]")
  = Some (JSON.JArray
            [JSON.JNumber "1"; JSON.JNumber "-2.5e+3"; JSON.JBool true;
             JSON.JNull; JSON.JString [120; 10; 121]%N; JSON.JArray [];
             JSON.JArray [JSON.JArray []];
             JSON.JObject [(JSON.units_of_string "a",
                            JSON.JObject [(JSON.units_of_string "b",
                                           JSON.JArray [JSON.JNumber "0"])])]]).
Proof. vm_compute. reflexivity. Qed.

Example parse_escapes :
  JSON.parse (dq "'A\u00e9\u20AC\t\/'")
  = Some (JSON.JString [65; 233; 8364; 9; 47]%N).
Proof. vm_compute. reflexivity. Qed.

Example parse_rejects :
  map JSON.parse
      ["'a'"; EmptyString;
       dq "Here is the result"; dq "{'a':1} {'b':2}"; dq "{'a':1,}"; "01";
       "[1,]"; "{a:1}"; "1."; "nul"; dq "{'a' 1}"; "[1 2]"; "-"; "1e"; "{";
       dq "'\x'"; dq "'\u12'"; dq "'open"]%string
  = repeat None 18.
Proof. vm_compute. reflexivity. Qed.

Example strip_fenced_reply :
  Text.strip_code_fences fenced_reply
  = ("Here is the result:" ++ LF ++ dq "{'a':1}" ++ LF)%string.
Proof. vm_compute. reflexivity. Qed.

Example match_fenced_reply :
  Text.match_json_object (Text.strip_code_fences fenced_reply)
  = Some (dq "{'a':1}").
Proof. vm_compute. reflexivity. Qed.

Example strip_adjacent_fences :
  Text.strip_code_fences
    (Text.fence ++ Text.fence_json ++ LF ++ LF ++ "x" ++ Text.fence ++ "json")%string
  = "x"%string.
Proof. vm_compute. reflexivity. Qed.

Example match_is_greedy :
  Text.match_json_object (dq "a {'a':1} and {'b':2} z")
  = Some (dq "{'a':1} and {'b':2}").
Proof. vm_compute. reflexivity. Qed.

Example match_needs_close_after_open :
  Text.match_json_object "} then {" = None.
Proof. vm_compute. reflexivity. Qed.

Example first_balanced_span_of_two :
  Spec.first_balanced_span (dq "a {'a':{'c':1}} and {'b':2} z")
  = Some (dq "{'a':{'c':1}}").
Proof. vm_compute. reflexivity. Qed.

Example base64_Man :
  map Base64.encode
      [[Byte.x4d; Byte.x61; Byte.x6e]; [Byte.x4d; Byte.x61]; [Byte.x4d]]
  = ["TWFu"; "TWE="; "TQ=="]%string.
Proof. vm_compute. reflexivity. Qed.

(* ================================================================== *)
(** ** The fuel of the parser is enough *)
(* ================================================================== *)

Module JSONFacts.

Import JSON.
Local Open Scope string_scope.

Lemma skip_ws_length s : String.length (skip_ws s) <= String.length s.
Proof.
  induction s as [|c s IH]; cbn [skip_ws]; [lia|].
  destruct (is_ws c); cbn [String.length]; lia.
Qed.

Lemma take_digits_length s d rest :
  take_digits s = (d, rest) -> String.length rest <= String.length s.
Proof.
  revert d rest. induction s as [|c s IH]; cbn [take_digits]; intros d rest.
  - intros [= <- <-]. lia.
  - destruct (is_digit c).
    + destruct (take_digits s) as [d' rest'] eqn:E. intros [= <- <-].
      specialize (IH _ _ eq_refl). cbn [String.length]. lia.
    + intros [= <- <-]. lia.
Qed.

Lemma take_sign_length p m s sign rest :
  take_sign p m s = (sign, rest) -> String.length rest <= String.length s.
Proof.
  unfold take_sign. destruct s as [|c r]; [intros [= <- <-]; lia|].
  destruct (_ || _); intros [= <- <-]; cbn [String.length]; lia.
Qed.

Lemma literal_length lit s rest :
  literal lit s = Some rest -> String.length rest + String.length lit = String.length s.
Proof.
  revert s. induction lit as [|a lit IH]; intros s; cbn [literal].
  - intros [= <-]. cbn. lia.
  - destruct s as [|b s]; [discriminate|].
    destruct (Ascii.eqb a b); [|discriminate].
    intros H. apply IH in H. cbn [String.length]. lia.
Qed.

Lemma expect_length c s rest :
  expect c s = Some rest -> String.length s = S (String.length rest).
Proof.
  unfold expect. destruct s as [|c' r]; [discriminate|].
  destruct (Ascii.eqb c c'); [|discriminate]. intros [= <-]. reflexivity.
Qed.

Lemma parse_chars_length s :
  forall us rest, parse_chars s = Some (us, rest) -> String.length rest < String.length s.
Proof.
  remember (String.length s) as n eqn:Hn. revert s Hn.
  induction n as [n IH] using lt_wf_ind. intros s Hn us rest.
  destruct s as [|c r]; cbn [parse_chars]; [discriminate|].
  cbn [String.length] in Hn.
  destruct (Ascii.eqb c quote).
  { intros [= _ <-]. cbn [String.length]. lia. }
  destruct (Ascii.eqb c "\").
  - destruct r as [|e r1]; [discriminate|]. cbn [String.length] in *.
    destruct (Ascii.eqb e "u").
    + destruct r1 as [|h1 [|h2 [|h3 [|h4 r2]]]]; try discriminate.
      destruct (hex4 h1 h2 h3 h4); [|discriminate].
      destruct (parse_chars r2) as [[us0 rest0]|] eqn:E; [|discriminate].
      intros [= _ <-]. cbn [String.length] in *.
      apply (IH (String.length r2)) in E; [lia|lia|reflexivity].
    + destruct (escape e); [|discriminate].
      destruct (parse_chars r1) as [[us0 rest0]|] eqn:E; [|discriminate].
      intros [= _ <-]. apply (IH (String.length r1)) in E; [lia|lia|reflexivity].
  - destruct (N_of_ascii c <? 32)%N; [discriminate|].
    destruct (parse_chars r) as [[us0 rest0]|] eqn:E; [|discriminate].
    intros [= _ <-]. cbn [String.length].
    apply (IH (String.length r)) in E; [lia|lia|reflexivity].
Qed.

Lemma parse_int_length s i rest :
  parse_int s = Some (i, rest) -> String.length rest < String.length s.
Proof.
  unfold parse_int. destruct s as [|c r]; [discriminate|].
  destruct (Ascii.eqb c "0").
  - intros [= _ <-]. cbn [String.length]. lia.
  - destruct (is_digit c); [|discriminate].
    destruct (take_digits r) as [d rest'] eqn:E. intros [= _ <-].
    apply take_digits_length in E. cbn [String.length]. lia.
Qed.

Lemma parse_frac_length s f rest :
  parse_frac s = Some (f, rest) -> String.length rest <= String.length s.
Proof.
  unfold parse_frac. destruct s as [|c r]; [intros [= _ <-]; lia|].
  destruct (Ascii.eqb c ".").
  - destruct (take_digits r) as [d rest'] eqn:E.
    apply take_digits_length in E.
    destruct d; [discriminate|]. intros [= _ <-]. cbn [String.length]. lia.
  - intros [= _ <-]. lia.
Qed.

Lemma parse_exp_length s e rest :
  parse_exp s = Some (e, rest) -> String.length rest <= String.length s.
Proof.
  unfold parse_exp. destruct s as [|c r]; [intros [= _ <-]; lia|].
  destruct (_ || _).
  - destruct (take_sign true true r) as [sign r'] eqn:Es.
    apply take_sign_length in Es.
    destruct (take_digits r') as [d rest'] eqn:E.
    apply take_digits_length in E.
    destruct d; [discriminate|]. intros [= _ <-]. cbn [String.length]. lia.
  - intros [= _ <-]. lia.
Qed.

Lemma parse_number_length s lexeme rest :
  parse_number s = Some (lexeme, rest) -> String.length rest < String.length s.
Proof.
  unfold parse_number.
  destruct (take_sign false true s) as [sign s1] eqn:Es.
  apply take_sign_length in Es.
  destruct (parse_int s1) as [[i s2]|] eqn:Ei; [|discriminate].
  apply parse_int_length in Ei.
  destruct (parse_frac s2) as [[f s3]|] eqn:Ef; [|discriminate].
  apply parse_frac_length in Ef.
  destruct (parse_exp s3) as [[e s4]|] eqn:Ee; [|discriminate].
  apply parse_exp_length in Ee.
  intros [= _ <-]. lia.
Qed.

Lemma parse_scalar_length s v rest :
  parse_scalar s = Some (v, rest) -> String.length rest < String.length s.
Proof.
  unfold parse_scalar. destruct s as [|c r]; [discriminate|].
  destruct (Ascii.eqb c quote).
  { destruct (parse_chars r) as [[us rest0]|] eqn:E; [|discriminate].
    intros [= _ <-]. apply parse_chars_length in E. cbn [String.length]. lia. }
  destruct (Ascii.eqb c "t").
  { destruct (literal "true" _) eqn:E; [|discriminate]. intros [= _ <-].
    apply literal_length in E. cbn [String.length] in *. lia. }
  destruct (Ascii.eqb c "f").
  { destruct (literal "false" _) eqn:E; [|discriminate]. intros [= _ <-].
    apply literal_length in E. cbn [String.length] in *. lia. }
  destruct (Ascii.eqb c "n").
  { destruct (literal "null" _) eqn:E; [|discriminate]. intros [= _ <-].
    apply literal_length in E. cbn [String.length] in *. lia. }
  destruct (parse_number _) as [[lx rest0]|] eqn:E; [|discriminate].
  intros [= _ <-]. apply parse_number_length in E. exact E.
Qed.

Lemma value_step f :
  elements_ok f -> members_ok f -> value_ok (S f).
Proof.
  intros HE HM s v rest. cbn [parse_value].
  pose proof (skip_ws_length s) as Hws.
  destruct (skip_ws s) as [|c r] eqn:Es; [discriminate|].
  cbn [String.length] in Hws.
  pose proof (skip_ws_length r) as Hwr.
  destruct (Ascii.eqb c "{") eqn:Eo.
  - destruct (expect "}" (skip_ws r)) as [rest0|] eqn:Ex.
    + intros [= <- <-]. apply expect_length in Ex as Hx.
      split; [lia|]. intros g Hg. unfold enough in Hg.
      destruct g as [|g]; [lia|]. cbn [parse_value].
      rewrite Es, Eo, Ex. reflexivity.
    + intros H. destruct (HM _ _ _ _ H) as [Hl Hg'].
      split; [lia|]. intros g Hg. unfold enough in Hg.
      destruct g as [|g]; [lia|]. cbn [parse_value].
      rewrite Es, Eo, Ex. apply Hg'. unfold enough. lia.
  - destruct (Ascii.eqb c "[") eqn:Ea.
    + destruct (expect "]" (skip_ws r)) as [rest0|] eqn:Ex.
      * intros [= <- <-]. apply expect_length in Ex as Hx.
        split; [lia|]. intros g Hg. unfold enough in Hg.
        destruct g as [|g]; [lia|]. cbn [parse_value].
        rewrite Es, Eo, Ea, Ex. reflexivity.
      * intros H. destruct (HE _ _ _ _ H) as [Hl Hg'].
        split; [lia|]. intros g Hg. unfold enough in Hg.
        destruct g as [|g]; [lia|]. cbn [parse_value].
        rewrite Es, Eo, Ea, Ex. apply Hg'. unfold enough. lia.
    + intros H. pose proof (parse_scalar_length _ _ _ H) as Hl.
      cbn [String.length] in Hl.
      split; [lia|]. intros g Hg. unfold enough in Hg.
      destruct g as [|g]; [lia|]. cbn [parse_value].
      rewrite Es, Eo, Ea. exact H.
Qed.

Lemma elements_step f :
  value_ok f -> elements_ok f -> elements_ok (S f).
Proof.
  intros HV HE acc s v rest. cbn [parse_elements].
  destruct (parse_value f s) as [[v1 r1]|] eqn:E1; [|discriminate].
  destruct (HV _ _ _ E1) as [Hl1 Hg1].
  pose proof (skip_ws_length r1) as Hws.
  destruct (skip_ws r1) as [|d rest'] eqn:Es; [discriminate|].
  cbn [String.length] in Hws.
  destruct (Ascii.eqb d "]") eqn:Ec.
  - intros [= <- <-]. split; [lia|]. intros g Hg. unfold enough in Hg.
    destruct g as [|g]; [lia|]. cbn [parse_elements].
    rewrite (Hg1 g) by (unfold enough; lia). rewrite Es, Ec. reflexivity.
  - destruct (Ascii.eqb d ",") eqn:Ek; [|discriminate].
    intros H. destruct (HE _ _ _ _ H) as [Hl Hg'].
    split; [lia|]. intros g Hg. unfold enough in Hg.
    destruct g as [|g]; [lia|]. cbn [parse_elements].
    rewrite (Hg1 g) by (unfold enough; lia). rewrite Es, Ec, Ek.
    apply Hg'. unfold enough. lia.
Qed.

Lemma members_step f :
  value_ok f -> members_ok f -> members_ok (S f).
Proof.
  intros HV HM acc s v rest. cbn [parse_members].
  pose proof (skip_ws_length s) as Hws.
  destruct (expect quote (skip_ws s)) as [r|] eqn:Eq; [|discriminate].
  apply expect_length in Eq as Hq.
  destruct (parse_chars r) as [[k r1]|] eqn:Ek; [|discriminate].
  apply parse_chars_length in Ek as Hk.
  pose proof (skip_ws_length r1) as Hw1.
  destruct (expect ":" (skip_ws r1)) as [r2|] eqn:Ec; [|discriminate].
  apply expect_length in Ec as Hc.
  destruct (parse_value f r2) as [[v1 r3]|] eqn:E1; [|discriminate].
  destruct (HV _ _ _ E1) as [Hl1 Hg1].
  pose proof (skip_ws_length r3) as Hw3.
  destruct (skip_ws r3) as [|d rest'] eqn:Es; [discriminate|].
  cbn [String.length] in Hw3.
  destruct (Ascii.eqb d "}") eqn:Ed.
  - intros [= <- <-]. split; [lia|]. intros g Hg. unfold enough in Hg.
    destruct g as [|g]; [lia|]. cbn [parse_members].
    rewrite Eq, Ek, Ec. rewrite (Hg1 g) by (unfold enough; lia).
    rewrite Es, Ed. reflexivity.
  - destruct (Ascii.eqb d ",") eqn:Ecm; [|discriminate].
    intros H. destruct (HM _ _ _ _ H) as [Hl Hg'].
    split; [lia|]. intros g Hg. unfold enough in Hg.
    destruct g as [|g]; [lia|]. cbn [parse_members].
    rewrite Eq, Ek, Ec. rewrite (Hg1 g) by (unfold enough; lia).
    rewrite Es, Ed, Ecm. apply Hg'. unfold enough. lia.
Qed.

Lemma all_ok f : value_ok f /\ elements_ok f /\ members_ok f.
Proof.
  induction f as [|f (HV & HE & HM)].
  - repeat split; intros; discriminate.
  - split; [|split].
    + apply value_step; assumption.
    + apply elements_step; assumption.
    + apply members_step; assumption.
Qed.

(** Whatever some amount of fuel parses, the fuel of [parse] parses. *)
Theorem parse_value_fuel f s v rest :
  parse_value f s = Some (v, rest) ->
  parse_value (2 * String.length s + 2) s = Some (v, rest).
Proof.
  intros H. destruct (proj1 (all_ok f) _ _ _ H) as [Hl Hg].
  apply Hg. unfold enough. lia.
Qed.

(** [parse] rejects a text only if no fuel reads it as one value with
    nothing but white space behind. *)
Theorem parse_none_any_fuel text :
  parse text = None ->
  forall f v rest,
    parse_value f text = Some (v, rest) -> skip_ws rest <> EmptyString.
Proof.
  unfold parse. intros H f v rest Hf Hr.
  rewrite (parse_value_fuel _ _ _ _ Hf), Hr in H. discriminate.
Qed.

End JSONFacts.

(* ================================================================== *)
(** ** What the regular expression matches *)
(* ================================================================== *)

Module TextFacts.

Import Text.
Local Open Scope string_scope.

Lemma append_assoc (a b c : string) : (a ++ b) ++ c = a ++ (b ++ c).
Proof.
  induction a as [|x a IH]; cbn [append]; [reflexivity|]. now rewrite IH.
Qed.

Lemma occurs_app c s t : occurs c (s ++ t) = occurs c s || occurs c t.
Proof.
  induction s as [|a s IH]; cbn [append occurs]; [reflexivity|].
  rewrite IH. apply orb_assoc.
Qed.

Lemma from_first_open_some s t :
  from_first_open s = Some t ->
  exists pre r, s = pre ++ t /\ t = String "{" r /\ occurs "{" pre = false.
Proof.
  induction s as [|c s IH]; cbn [from_first_open]; [discriminate|].
  destruct (Ascii.eqb c "{") eqn:E.
  - intros [= <-]. apply Ascii.eqb_eq in E. subst c.
    exists EmptyString, s. repeat split.
  - intros H. destruct (IH H) as (pre & r & -> & -> & Hp).
    exists (String c pre), r. repeat split.
    cbn [occurs]. rewrite Ascii.eqb_sym, E. exact Hp.
Qed.

Lemma from_first_open_app pre r :
  exists pre', from_first_open (pre ++ String "{" r)
               = Some (pre' ++ String "{" r).
Proof.
  induction pre as [|c pre IH]; cbn [append from_first_open].
  - exists EmptyString. rewrite Ascii.eqb_refl. reflexivity.
  - destruct (Ascii.eqb c "{").
    + exists (String c pre). reflexivity.
    + exact IH.
Qed.

Lemma upto_last_close_none s :
  upto_last_close s = None <-> occurs "}" s = false.
Proof.
  induction s as [|c s IH]; cbn [upto_last_close occurs]; [tauto|].
  rewrite (Ascii.eqb_sym "}" c).
  destruct (upto_last_close s) as [p|].
  - split; [discriminate|]. intros H. apply orb_false_elim in H as [_ H].
    apply IH in H. discriminate.
  - destruct (Ascii.eqb c "}"); cbn [orb]; [split; discriminate|].
    split; [intros _; apply IH; reflexivity|reflexivity].
Qed.

Lemma upto_last_close_some s p :
  upto_last_close s = Some p ->
  exists q post, s = p ++ post /\ p = q ++ "}" /\ occurs "}" post = false.
Proof.
  revert p. induction s as [|c s IH]; cbn [upto_last_close]; [discriminate|].
  intros p. destruct (upto_last_close s) as [p'|] eqn:E.
  - intros [= <-]. destruct (IH p' eq_refl) as (q & post & -> & -> & Hp).
    exists (String c q), post. repeat split. exact Hp.
  - destruct (Ascii.eqb c "}") eqn:Ec; [|discriminate].
    intros [= <-]. apply Ascii.eqb_eq in Ec. subst c.
    exists EmptyString, s. repeat split.
    apply upto_last_close_none. exact E.
Qed.

(** A match runs from the first opening brace of the text to its last
    closing brace. *)
Lemma match_json_object_some s span :
  match_json_object s = Some span ->
  exists pre inner post,
    s = pre ++ span ++ post
    /\ span = "{" ++ inner ++ "}"
    /\ occurs "{" pre = false
    /\ occurs "}" post = false.
Proof.
  unfold match_json_object.
  destruct (from_first_open s) as [t|] eqn:E; [|discriminate].
  intros H.
  destruct (from_first_open_some _ _ E) as (pre & r & -> & -> & Hpre).
  destruct (upto_last_close_some _ _ H) as (q & post & Hs & -> & Hpost).
  destruct q as [|c q]; cbn [append] in Hs.
  - discriminate.
  - injection Hs as <- Hs.
    exists pre, q, post. repeat split; try assumption.
    cbn [append]. rewrite Hs. reflexivity.
Qed.

(** There is no match exactly when no closing brace follows an opening
    brace. *)
Lemma match_json_object_none s :
  match_json_object s = None <->
  (forall pre inner post, s <> pre ++ "{" ++ inner ++ "}" ++ post).
Proof.
  split.
  - intros H pre inner post ->. unfold match_json_object in H.
    destruct (from_first_open_app pre (inner ++ "}" ++ post)) as (pre' & E).
    cbn [append] in H, E. rewrite E in H.
    apply upto_last_close_none in H.
    rewrite occurs_app in H. cbn [occurs] in H. rewrite occurs_app in H.
    cbn [occurs] in H. rewrite Ascii.eqb_refl in H.
    cbn [orb] in H. rewrite !orb_true_r in H. discriminate.
  - intros H. destruct (match_json_object s) as [span|] eqn:E; [|reflexivity].
    destruct (match_json_object_some _ _ E)
      as (pre & inner & post & Hs & -> & _).
    exfalso. apply (H pre inner post). rewrite Hs.
    cbn [append]. rewrite !append_assoc. reflexivity.
Qed.

Lemma prefix_occurs c m s :
  String.prefix (String c m) s = true -> occurs c s = true.
Proof.
  destruct s as [|a s]; cbn [String.prefix occurs]; [discriminate|].
  destruct (ascii_dec c a) as [->|]; [|discriminate].
  rewrite Ascii.eqb_refl. reflexivity.
Qed.

Lemma remove_marker_without c m s :
  occurs c s = false -> remove_marker (String c m) 0 false s = s.
Proof.
  intros H. induction s as [|a s IH]; cbn [remove_marker]; [reflexivity|].
  cbn [andb].
  destruct (String.prefix (String c m) (String a s)) eqn:P.
  - apply prefix_occurs in P. congruence.
  - cbn [occurs] in H. apply orb_false_elim in H as [_ H].
    rewrite (IH H). reflexivity.
Qed.

(** A text without a backtick has no fence to strip. *)
Lemma strip_code_fences_without s :
  occurs backtick s = false -> strip_code_fences s = s.
Proof.
  intros H. unfold strip_code_fences, fence_json, fence.
  cbn [append].
  rewrite (remove_marker_without backtick _ s H).
  apply (remove_marker_without backtick _ s H).
Qed.

End TextFacts.

(* ================================================================== *)
(** ** Basic facts about the world *)
(* ================================================================== *)

(** Case analysis on an innermost scrutinee of the goal. *)
Ltac break_match :=
  match goal with
  | |- context [match ?x with _ => _ end] =>
      lazymatch x with
      | context [match _ with _ => _ end] => fail
      | _ => destruct x eqn:?
      end
  end.

Section WorldFacts.

Context {Store : Type}.
Implicit Types (w : World Store) (this : OpenRouterClient Store).

Lemma calls_save this key value options w :
  calls (snd (save this key value options w)) = calls w.
Proof.
  unfold save. repeat break_match; reflexivity.
Qed.

Lemma calls_lookup this key options w :
  match lookup this key options w with
  | Hit _ w' | Miss w' | LookupThrew _ w' => calls w' = calls w
  end.
Proof.
  unfold lookup. repeat break_match; reflexivity.
Qed.

Lemma lookup_disabled this key options w :
  enableCaching this = false -> lookup this key options w = Miss w.
Proof. unfold lookup. intros ->. reflexivity. Qed.

End WorldFacts.


(* ================================================================== *)
(** ** Every vendor call of a run carries the same argument *)
(* ================================================================== *)

(** The three steps are the same for both variants: one attempt issues one
    call; the body issues none (cache hit, or the lookup threw), one, or one
    and then those of the retry; a run with [retries = n] issues at most
    [n + 1]. *)
Ltac attempt_calls_script :=
  repeat break_match; simpl; try reflexivity;
  try (right; eexists; eexists; split; [reflexivity|split; reflexivity]);
  try (left; reflexivity);
  match goal with
  | H : save ?t ?k ?v ?o ?w0 = (_, ?w1) |- _ =>
      let E := fresh in
      pose proof (calls_save t k v o w0) as E;
      rewrite H in E; simpl in E; try left; exact E
  end.

Ltac body_calls_script this options retry w attempt_calls :=
  let L := fresh "L" in
  let E2 := fresh "E" in
  let A := fresh "A" in
  pose proof (calls_lookup this (cacheOptions (modelName this) options) options
                (logger (openrouter "creating chat completion" 2) w)) as L;
  destruct (lookup _ _ _ _) as [v w1|w1|e w1]; simpl; auto;
  match goal with
  | |- context [match ?att this retry options ?k ?w2 with
                | Returned _ => _
                | Thrown _ _ => _
                end] =>
      assert (calls w2 = calls w) as E2
          by (repeat break_match; simpl; exact L);
      pose proof (attempt_calls retry k w2) as A;
      destruct (att this retry options k w2) as [r|e w3]; rewrite E2 in A
  end;
  [ destruct A as [A|A]; auto
  | destruct retry as [again|]; simpl;
    [ right; right; eexists; eexists;
      split; [reflexivity|]; split; [reflexivity|]; exact A
    | right; left; exact A ] ].

Ltac run_calls_script body_calls run :=
  let IH := fresh "IH" in
  intros retries; induction retries as [|n IH]; intros w; simpl;
  [ destruct (body_calls None 0 w) as [E|[E|(again & w1 & E & _)]];
    [ exists 0; split; [lia|]; simpl; rewrite app_nil_r; exact E
    | exists 1; split; [lia|]; exact E
    | discriminate ]
  | destruct (body_calls (Some (run n)) (S n) w)
      as [E|[E|(again & w1 & E & R & C)]];
    [ exists 0; split; [lia|]; simpl; rewrite app_nil_r; exact E
    | exists 1; split; [lia|]; exact E
    | injection E as <-; rewrite R;
      destruct (IH w1) as (k & Hk & Ek);
      exists (S k); split; [lia|];
      rewrite Ek, C, <- app_assoc; reflexivity ] ].

Module InstrFacts.

Import Instr.

Section Calls.

Context {Store : Type}.
Variable this : OpenRouterClient Store.
Variable options : ChatCompletionOptions.

Let rq := request (modelName this) options.

Lemma instr_attempt_calls retry key w :
  match attempt this retry options key w with
  | Thrown _ w' => calls w' = calls w ++ [rq]
  | Returned r =>
      calls (snd r) = calls w ++ [rq]
      \/ exists again w1,
          retry = Some again /\ r = again w1 /\ calls w1 = calls w ++ [rq]
  end.
Proof. unfold attempt, create. attempt_calls_script. Qed.

Lemma instr_body_calls retry retries w :
  let r := createChatCompletion_body this retry retries options w in
  calls (snd r) = calls w
  \/ calls (snd r) = calls w ++ [rq]
  \/ exists again w1,
      retry = Some again /\ r = again w1 /\ calls w1 = calls w ++ [rq].
Proof.
  unfold createChatCompletion_body.
  body_calls_script this options retry w instr_attempt_calls.
Qed.

Lemma instr_run_calls :
  forall retries w,
  exists k, k <= S retries /\
    calls (snd (createChatCompletion this retries options w))
    = calls w ++ repeat rq k.
Proof.
  run_calls_script instr_body_calls
                   (fun n => createChatCompletion this n options).
Qed.

End Calls.

End InstrFacts.

Module NativeFacts.

Import Native.

Section Calls.

Context {Store : Type}.
Variable this : OpenRouterClient Store.
Variable options : ChatCompletionOptions.

Let rq := request (modelName this) options.

Lemma native_attempt_calls retry key w :
  match attempt this retry options key w with
  | Thrown _ w' => calls w' = calls w ++ [rq]
  | Returned r =>
      calls (snd r) = calls w ++ [rq]
      \/ exists again w1,
          retry = Some again /\ r = again w1 /\ calls w1 = calls w ++ [rq]
  end.
Proof. unfold attempt, create. attempt_calls_script. Qed.

Lemma native_body_calls retry retries w :
  let r := createChatCompletion_body this retry retries options w in
  calls (snd r) = calls w
  \/ calls (snd r) = calls w ++ [rq]
  \/ exists again w1,
      retry = Some again /\ r = again w1 /\ calls w1 = calls w ++ [rq].
Proof.
  unfold createChatCompletion_body.
  body_calls_script this options retry w native_attempt_calls.
Qed.

Lemma native_run_calls :
  forall retries w,
  exists k, k <= S retries /\
    calls (snd (createChatCompletion this retries options w))
    = calls w ++ repeat rq k.
Proof.
  run_calls_script native_body_calls
                   (fun n => createChatCompletion this n options).
Qed.

End Calls.

End NativeFacts.

(* ================================================================== *)
(** ** One attempt and the loop of retries *)
(* ================================================================== *)

Lemma disabled_save_succeeds {Store : Type} (this : OpenRouterClient Store)
      (options : ChatCompletionOptions) :
  enableCaching this = false -> save_succeeds this options.
Proof.
  intros H key value w. exists w. unfold save. rewrite H. split; reflexivity.
Qed.

Lemma always_misses_at {Store : Type} (this : OpenRouterClient Store)
      (options : ChatCompletionOptions) (w : World Store) :
  always_misses this options -> misses_at this options w.
Proof. intros H. exact (H (logger creating_line w)). Qed.

(** The attempt after the opening lookup has missed: every branch but the
    cache write is settled by the verdict. *)
Ltac body_verdict_script this options retry w saves L :=
  let C := fresh "C" in
  let Cv := fresh "Cv" in
  pose proof (calls_lookup this (cacheOptions (modelName this) options) options
                (logger creating_line w)) as C;
  rewrite L in C; cbn [calls logger] in C;
  match goal with
  | |- context [client this (List.length (calls ?v))] =>
      assert (calls v = calls w) as Cv
          by (repeat break_match; simpl; exact C)
  end;
  rewrite Cv;
  repeat match goal with
    | |- context [save this ?k ?v options ?x] =>
        let w' := fresh "w" in
        let E := fresh "E" in
        let Cs := fresh "Cs" in
        destruct (saves k v x) as (w' & E & Cs); rewrite E
    | _ => break_match
    end;
  eexists;
  (split;
   [|split;
     [reflexivity
     |try discriminate; try (intros ? [= <-]; eexists; eassumption)]]);
  try reflexivity;
  match goal with
  | Cs : calls ?w' = _ |- calls ?w' = _ => rewrite Cs; reflexivity
  end.

Section Loop.
Context {Store : Type}.
Variable this : OpenRouterClient Store.
Variable options : ChatCompletionOptions.
Hypothesis saves : save_succeeds this options.

Lemma instr_body_verdict retry retries w :
  misses_at this options w ->
  exists w1,
    calls w1 = calls w ++ [Instr.request (modelName this) options]
    /\ Instr.createChatCompletion_body this retry retries options w
       = match instr_verdict this options (List.length (calls w)) with
         | Good value => (Resolved value, w1)
         | Bad error =>
             match retry with
             | Some again => again w1
             | None => (request_failed error, w1)
             end
         end
    /\ forall value,
        instr_verdict this options (List.length (calls w)) = Good value ->
        exists w0,
          save this (cacheOptions (modelName this) options) value options w0
          = (inr tt, w1).
Proof.
  intros (w0 & L).
  unfold Instr.createChatCompletion_body. fold creating_line. rewrite L.
  unfold Instr.attempt, create, instr_verdict.
  body_verdict_script this options retry w saves L.
Qed.

Lemma native_body_verdict retry retries w :
  misses_at this options w ->
  exists w1,
    calls w1 = calls w ++ [Native.request (modelName this) options]
    /\ Native.createChatCompletion_body this retry retries options w
       = match native_verdict this options (List.length (calls w)) with
         | Good value => (Resolved value, w1)
         | Bad error =>
             match retry with
             | Some again => again w1
             | None => (request_failed error, w1)
             end
         end
    /\ forall value,
        native_verdict this options (List.length (calls w)) = Good value ->
        exists w0,
          save this (cacheOptions (modelName this) options) value options w0
          = (inr tt, w1).
Proof.
  intros (w0 & L).
  unfold Native.createChatCompletion_body. fold creating_line. rewrite L.
  unfold Native.attempt, create, native_verdict.
  body_verdict_script this options retry w saves L.
Qed.

Hypothesis misses : always_misses this options.

Lemma instr_run_attempts retries :
  forall w,
    let run := Instr.createChatCompletion this retries options w in
    let loop := attempts (instr_verdict this options) retries
                         (List.length (calls w)) in
    fst run = fst loop
    /\ calls (snd run)
       = calls w ++ repeat (Instr.request (modelName this) options) (snd loop).
Proof.
  induction retries as [|n IH]; intros w; cbn [Instr.createChatCompletion attempts].
  - destruct (instr_body_verdict None 0 w (always_misses_at _ _ w misses))
      as (w1 & C & E & _).
    rewrite E. destruct (instr_verdict _ _ _); split; try reflexivity; exact C.
  - destruct (instr_body_verdict (Some (Instr.createChatCompletion this n options))
                (S n) w (always_misses_at _ _ w misses)) as (w1 & C & E & _).
    rewrite E. destruct (instr_verdict _ _ _).
    + split; [reflexivity|exact C].
    + specialize (IH w1). cbv zeta in IH.
      replace (List.length (calls w1)) with (S (List.length (calls w))) in IH
        by (rewrite C, length_app; simpl; lia).
      destruct (attempts _ n _) as [outcome k]. cbn [fst snd] in *.
      destruct IH as [IH1 IH2]. split; [exact IH1|].
      rewrite IH2, C, <- app_assoc. reflexivity.
Qed.

Lemma native_run_attempts retries :
  forall w,
    let run := Native.createChatCompletion this retries options w in
    let loop := attempts (native_verdict this options) retries
                         (List.length (calls w)) in
    fst run = fst loop
    /\ calls (snd run)
       = calls w ++ repeat (Native.request (modelName this) options) (snd loop).
Proof.
  induction retries as [|n IH]; intros w; cbn [Native.createChatCompletion attempts].
  - destruct (native_body_verdict None 0 w (always_misses_at _ _ w misses))
      as (w1 & C & E & _).
    rewrite E. destruct (native_verdict _ _ _); split; try reflexivity; exact C.
  - destruct (native_body_verdict (Some (Native.createChatCompletion this n options))
                (S n) w (always_misses_at _ _ w misses)) as (w1 & C & E & _).
    rewrite E. destruct (native_verdict _ _ _).
    + split; [reflexivity|exact C].
    + specialize (IH w1). cbv zeta in IH.
      replace (List.length (calls w1)) with (S (List.length (calls w))) in IH
        by (rewrite C, length_app; simpl; lia).
      destruct (attempts _ n _) as [outcome k]. cbn [fst snd] in *.
      destruct IH as [IH1 IH2]. split; [exact IH1|].
      rewrite IH2, C, <- app_assoc. reflexivity.
Qed.

End Loop.

(** The loop stops at the first good attempt. *)
Lemma attempts_recover (verdict : nat -> Verdict) (k : nat) :
  forall retries n value,
    k <= retries ->
    (forall i, i < k -> exists error, verdict (n + i) = Bad error) ->
    verdict (n + k) = Good value ->
    attempts verdict retries n = (Resolved value, S k).
Proof.
  induction k as [|k IH]; intros retries n value Hk Hbad Hgood.
  - rewrite Nat.add_0_r in Hgood. destruct retries; cbn [attempts]; rewrite Hgood; reflexivity.
  - destruct retries as [|r]; [lia|]. cbn [attempts].
    destruct (Hbad 0 ltac:(lia)) as (e & He). rewrite Nat.add_0_r in He.
    rewrite He. rewrite (IH r (S n) value); [reflexivity|lia| |].
    + intros i Hi. destruct (Hbad (S i) ltac:(lia)) as (e' & He').
      exists e'. rewrite <- He'. f_equal. lia.
    + rewrite <- Hgood. f_equal. lia.
Qed.

(** The loop ends with the error of its last attempt when all are bad. *)
Lemma attempts_exhaust (verdict : nat -> Verdict) (retries : nat) :
  forall n error,
    (forall i, i < retries -> exists e, verdict (n + i) = Bad e) ->
    verdict (n + retries) = Bad error ->
    attempts verdict retries n = (request_failed error, S retries).
Proof.
  induction retries as [|r IH]; intros n error Hbad Hlast; cbn [attempts].
  - rewrite Nat.add_0_r in Hlast. rewrite Hlast. reflexivity.
  - destruct (Hbad 0 ltac:(lia)) as (e & He). rewrite Nat.add_0_r in He.
    rewrite He. rewrite (IH (S n) error); [reflexivity| |].
    + intros i Hi. destruct (Hbad (S i) ltac:(lia)) as (e' & He').
      exists e'. rewrite <- He'. f_equal. lia.
    + rewrite <- Hlast. f_equal. lia.
Qed.

Lemma attempts_count (verdict : nat -> Verdict) (retries : nat) :
  forall n, 1 <= snd (attempts verdict retries n) <= S retries.
Proof.
  induction retries as [|r IH]; intros n; cbn [attempts].
  - destruct (verdict n); simpl; lia.
  - destruct (verdict n); [simpl; lia|].
    specialize (IH (S n)). destruct (attempts verdict r (S n)). simpl in *. lia.
Qed.

(* ================================================================== *)
(** ** Stripping the code fences *)
(* ================================================================== *)

Module FenceFacts.

Import Text.
Local Open Scope string_scope.

Lemma prefix_app m b : String.prefix m (m ++ b) = true.
Proof.
  induction m as [|c m IH]; cbn [append String.prefix].
  - destruct b; reflexivity.
  - destruct (ascii_dec c c); [exact IH|contradiction].
Qed.

Lemma prefix_head c m x r :
  Ascii.eqb c x = false -> String.prefix (String c m) (String x r) = false.
Proof.
  intros H. cbn [String.prefix].
  destruct (ascii_dec c x) as [->|]; [|reflexivity].
  rewrite Ascii.eqb_refl in H. discriminate.
Qed.

(** Text in front of the first marker is kept. *)
Lemma remove_marker_keep c m a b :
  occurs c a = false ->
  remove_marker (String c m) 0 false (a ++ b)
  = a ++ remove_marker (String c m) 0 false b.
Proof.
  induction a as [|x a IH]; intros H; cbn [append]; [reflexivity|].
  cbn [occurs] in H. apply orb_false_elim in H as [Hx Ha].
  cbn [remove_marker andb]. rewrite (prefix_head c m x _ Hx).
  rewrite (IH Ha). reflexivity.
Qed.

(** The rest of an occurrence under way is dropped. *)
Lemma remove_marker_skip M x b after :
  remove_marker M (String.length x) after (x ++ b)
  = match x with
    | EmptyString => remove_marker M 0 after b
    | String _ _ => remove_marker M 0 true b
    end.
Proof.
  revert after. induction x as [|c x IH]; intros after; [reflexivity|].
  cbn [String.length append remove_marker]. rewrite IH.
  destruct x; reflexivity.
Qed.

(** An occurrence of the marker and the line feed behind it are dropped. *)
Lemma remove_marker_at c m b :
  m <> EmptyString ->
  remove_marker (String c m) 0 false (String c m ++ LF ++ b)
  = remove_marker (String c m) 0 false b.
Proof.
  intros Hm.
  change (String c m ++ LF ++ b) with (String c (m ++ LF ++ b)).
  cbn [remove_marker andb].
  change (String c (m ++ LF ++ b)) with (String c m ++ (LF ++ b)).
  rewrite prefix_app.
  replace (String.length (String c m) - 1) with (String.length m)
    by (cbn [String.length]; lia).
  rewrite remove_marker_skip. destruct m as [|d m]; [contradiction|].
  unfold LF. cbn [append remove_marker]. rewrite Ascii.eqb_refl. reflexivity.
Qed.

(** An occurrence of the marker at the end of the text is dropped. *)
Lemma remove_marker_last c m :
  m <> EmptyString ->
  remove_marker (String c m) 0 false (String c m) = EmptyString.
Proof.
  intros Hm. cbn [remove_marker andb].
  pose proof (prefix_app (String c m) EmptyString) as P.
  assert (forall s, (s ++ EmptyString) = s) as app_nil.
  { induction s as [|x s IH]; cbn [append]; [reflexivity|now rewrite IH]. }
  rewrite app_nil in P. rewrite P.
  replace (String.length (String c m) - 1) with (String.length m)
    by (cbn [String.length]; lia).
  pose proof (remove_marker_skip (String c m) m EmptyString true) as S.
  rewrite app_nil in S. rewrite S. destruct m; [contradiction|reflexivity].
Qed.

Lemma from_first_open_skip pre r :
  occurs "{" pre = false ->
  from_first_open (pre ++ String "{" r) = Some (String "{" r).
Proof.
  induction pre as [|c pre IH]; intros H; cbn [append from_first_open].
  - rewrite Ascii.eqb_refl. reflexivity.
  - cbn [occurs] in H. apply orb_false_elim in H as [Hc H].
    rewrite Ascii.eqb_sym in Hc. rewrite Hc. exact (IH H).
Qed.

Lemma upto_last_close_app x post :
  occurs "}" post = false ->
  upto_last_close (x ++ "}" ++ post) = Some (x ++ "}").
Proof.
  intros H. induction x as [|c x IH]; cbn [append upto_last_close].
  - apply TextFacts.upto_last_close_none in H. rewrite H.
    rewrite Ascii.eqb_refl. reflexivity.
  - cbn [append] in IH. rewrite IH. reflexivity.
Qed.

Lemma append_nil s : s ++ EmptyString = s.
Proof. induction s as [|x s IH]; cbn [append]; [reflexivity|now rewrite IH]. Qed.

(** Stripping a fenced reply leaves the prose, the object and one line
    feed. *)
Lemma strip_fenced prose object :
  occurs backtick prose = false ->
  occurs backtick object = false ->
  strip_code_fences (fenced prose object) = prose ++ object ++ LF.
Proof.
  intros Hp Ho. unfold strip_code_fences, fenced.
  change fence_json with (String backtick (String backtick (String backtick "json"))).
  rewrite remove_marker_keep by exact Hp.
  rewrite remove_marker_at by discriminate.
  rewrite remove_marker_keep by exact Ho.
  rewrite remove_marker_keep by reflexivity.
  replace (remove_marker _ 0 false fence) with fence by reflexivity.
  unfold fence at 1.
  rewrite remove_marker_keep by exact Hp.
  rewrite remove_marker_keep by exact Ho.
  rewrite remove_marker_keep by reflexivity.
  unfold fence. rewrite remove_marker_last by discriminate.
  rewrite append_nil. reflexivity.
Qed.

Lemma match_prose_object prose inner :
  occurs "{" prose = false ->
  match_json_object (prose ++ ("{" ++ inner ++ "}") ++ LF)
  = Some ("{" ++ inner ++ "}").
Proof.
  intros Hp. unfold match_json_object.
  change (("{" ++ inner ++ "}") ++ LF) with (String "{" ((inner ++ "}") ++ LF)).
  rewrite from_first_open_skip by exact Hp.
  rewrite TextFacts.append_assoc.
  change (String "{" (inner ++ "}" ++ LF)) with (String "{" inner ++ "}" ++ LF).
  rewrite upto_last_close_app by reflexivity. reflexivity.
Qed.

End FenceFacts.

Module StripFacts.
Import Text.
Local Open Scope string_scope.

Lemma prefix_cons c m x r :
  String.prefix (String c m) (String x r) = Ascii.eqb c x && String.prefix m r.
Proof.
  cbn [String.prefix]. destruct (ascii_dec c x) as [->|N].
  - rewrite Ascii.eqb_refl. reflexivity.
  - apply Ascii.eqb_neq in N. rewrite N. reflexivity.
Qed.

Lemma prefix_nil s : String.prefix EmptyString s = true.
Proof. destruct s; reflexivity. Qed.

Lemma prefix_of_nil c m : String.prefix (String c m) EmptyString = false.
Proof. reflexivity. Qed.

(** A character that is not of the marker ends every match in front of
    it. *)
Lemma prefix_barrier m c r :
  occurs c m = false ->
  forall a, String.prefix m (a ++ String c r) = String.prefix m a.
Proof.
  induction m as [|x m IH]; intros H a.
  - rewrite !prefix_nil. reflexivity.
  - cbn [occurs] in H. apply orb_false_elim in H as [Hx Hm].
    destruct a as [|y a]; cbn [append].
    + rewrite prefix_cons, prefix_of_nil.
      rewrite Ascii.eqb_sym, Hx. reflexivity.
    + rewrite !prefix_cons, (IH Hm). reflexivity.
Qed.

Lemma prefix_length m : forall a, String.prefix m a = true ->
                                  String.length m <= String.length a.
Proof.
  induction m as [|x m IH]; intros a H; cbn [String.length]; [lia|].
  destruct a as [|y a]; [discriminate|].
  rewrite prefix_cons in H. apply andb_true_iff in H as [_ H].
  apply IH in H. cbn [String.length]. lia.
Qed.

Lemma remove_marker_nil m skip after :
  remove_marker m skip after EmptyString = EmptyString.
Proof. destruct skip; reflexivity. Qed.

(** A character that is neither of the marker nor a line feed is kept, and
    what is in front of it and what is behind it are stripped apart. *)
Lemma remove_marker_barrier x m c r :
  occurs c (String x m) = false ->
  Ascii.eqb c (ascii_of_nat 10) = false ->
  forall a skip after,
    skip <= String.length a ->
    remove_marker (String x m) skip after (a ++ String c r)
    = remove_marker (String x m) skip after a
        ++ String c (remove_marker (String x m) 0 false r).
Proof.
  intros Hc Hl. induction a as [|y a IH]; intros skip after Hs.
  - cbn [String.length] in Hs. assert (skip = 0) as -> by lia.
    cbn [append remove_marker]. rewrite Hl, andb_false_r.
    rewrite prefix_cons.
    cbn [occurs] in Hc. apply orb_false_elim in Hc as [Hx _].
    rewrite Ascii.eqb_sym, Hx. reflexivity.
  - cbn [append]. destruct skip as [|k].
    + cbn [remove_marker].
      destruct (after && Ascii.eqb y (ascii_of_nat 10)).
      * apply IH. lia.
      * change (String y (a ++ String c r)) with (String y a ++ String c r).
        rewrite (prefix_barrier _ c r Hc (String y a)).
        destruct (String.prefix (String x m) (String y a)) eqn:P.
        -- apply IH. apply prefix_length in P. cbn [String.length] in *. lia.
        -- cbn [append]. rewrite IH by lia. reflexivity.
    + cbn [remove_marker]. apply IH. cbn [String.length] in Hs. lia.
Qed.

Lemma strip_barrier c a r :
  occurs c fence_json = false ->
  Ascii.eqb c (ascii_of_nat 10) = false ->
  strip_code_fences (a ++ String c r)
  = strip_code_fences a ++ String c (strip_code_fences r).
Proof.
  intros Hc Hl. unfold strip_code_fences.
  assert (occurs c fence = false) as Hf.
  { unfold fence_json in Hc. rewrite TextFacts.occurs_app in Hc.
    apply orb_false_elim in Hc. apply Hc. }
  change fence_json with (String backtick (String backtick (String backtick "json"))) in *.
  change fence with (String backtick (String backtick (String backtick ""))) in *.
  rewrite (remove_marker_barrier _ _ c r Hc Hl a 0 false) by lia.
  rewrite (remove_marker_barrier _ _ c _ Hf Hl _ 0 false) by lia.
  reflexivity.
Qed.

(** Stripping only deletes. *)
Lemma occurs_remove_marker c m s :
  forall skip after,
    occurs c (remove_marker m skip after s) = true -> occurs c s = true.
Proof.
  induction s as [|y s IH]; intros skip after; cbn [remove_marker].
  - destruct skip; intros H; exact H.
  - destruct skip as [|k].
    + destruct (after && Ascii.eqb y (ascii_of_nat 10)).
      * intros H. cbn [occurs]. rewrite (IH _ _ H). apply orb_true_r.
      * destruct (String.prefix m (String y s)).
        -- intros H. cbn [occurs]. rewrite (IH _ _ H). apply orb_true_r.
        -- cbn [occurs]. intros H. apply orb_true_iff in H as [H|H].
           ++ rewrite H. reflexivity.
           ++ rewrite (IH _ _ H). apply orb_true_r.
    + intros H. cbn [occurs]. rewrite (IH _ _ H). apply orb_true_r.
Qed.

Lemma occurs_strip c s :
  occurs c s = false -> occurs c (strip_code_fences s) = false.
Proof.
  intros H. unfold strip_code_fences.
  destruct (occurs c (remove_marker fence 0 false
                        (remove_marker fence_json 0 false s))) eqn:E;
    [|reflexivity].
  apply occurs_remove_marker, occurs_remove_marker in E. congruence.
Qed.

(** After an occurrence one line feed is dropped. *)
Lemma remove_marker_after m s :
  remove_marker m 0 true s = remove_marker m 0 false (chomp s).
Proof.
  destruct s as [|c r]; [reflexivity|].
  cbn [remove_marker chomp andb].
  destruct (Ascii.eqb c (ascii_of_nat 10)); reflexivity.
Qed.

(** An occurrence of the marker in front is dropped. *)
Lemma remove_marker_front c m b :
  remove_marker (String c m) 0 false (String c m ++ b)
  = remove_marker (String c m) 0 false (chomp b).
Proof.
  change (String c m ++ b) with (String c (m ++ b)).
  cbn [remove_marker andb].
  change (String c (m ++ b)) with (String c m ++ b).
  rewrite FenceFacts.prefix_app.
  replace (String.length (String c m) - 1) with (String.length m)
    by (cbn [String.length]; lia).
  rewrite FenceFacts.remove_marker_skip.
  destruct m; apply remove_marker_after.
Qed.

(** The marker with its tag, behind text without backtick, goes with the
    line feed behind it. *)
Lemma strip_tagged a b :
  occurs backtick a = false ->
  strip_code_fences (a ++ fence_json ++ b) = a ++ strip_code_fences (chomp b).
Proof.
  intros Ha. unfold strip_code_fences.
  change fence_json with (String backtick (String backtick (String backtick "json"))).
  change fence with (String backtick (String backtick (String backtick ""))).
  rewrite FenceFacts.remove_marker_keep by exact Ha.
  rewrite remove_marker_front.
  rewrite FenceFacts.remove_marker_keep by exact Ha.
  reflexivity.
Qed.

Lemma remove_marker_plain c m x r :
  Ascii.eqb c x = false ->
  remove_marker (String c m) 0 false (String x r)
  = String x (remove_marker (String c m) 0 false r).
Proof.
  intros H. cbn [remove_marker andb]. rewrite prefix_cons, H. reflexivity.
Qed.

Lemma chomp_remove_marker c m b :
  match b with
  | EmptyString => True
  | String x _ => Ascii.eqb c x = false
  end ->
  chomp (remove_marker (String c m) 0 false b)
  = remove_marker (String c m) 0 false (chomp b).
Proof.
  destruct b as [|x r]; [reflexivity|]. intros H.
  rewrite (remove_marker_plain c m x r H). cbn [chomp].
  destruct (Ascii.eqb x (ascii_of_nat 10)); [reflexivity|].
  rewrite (remove_marker_plain c m x r H). reflexivity.
Qed.

(** The bare marker, behind text without backtick and in front of text
    that starts neither with a backtick nor with the letter of the tag,
    goes with the line feed behind it. *)
Lemma strip_bare a b :
  occurs backtick a = false ->
  plain_start b = true ->
  strip_code_fences (a ++ fence ++ b) = a ++ strip_code_fences (chomp b).
Proof.
  intros Ha Hb. unfold strip_code_fences.
  change fence_json with (String backtick (String backtick (String backtick "json"))).
  change fence with (String backtick (String backtick (String backtick ""))).
  rewrite FenceFacts.remove_marker_keep by exact Ha.
  assert (match b with
          | EmptyString => True
          | String x _ => Ascii.eqb backtick x = false
          end) as Hx.
  { destruct b as [|x r]; [exact I|]. cbn [plain_start] in Hb.
    apply andb_true_iff in Hb as [Hb _]. apply negb_true_iff in Hb.
    rewrite Ascii.eqb_sym. exact Hb. }
  assert (remove_marker (String backtick (String backtick (String backtick "json")))
            0 false
            (String backtick (String backtick (String backtick "")) ++ b)
          = String backtick (String backtick (String backtick ""))
              ++ remove_marker
                   (String backtick (String backtick (String backtick "json")))
                   0 false b) as ->.
  { cbn [append remove_marker andb]. rewrite !prefix_cons.
    rewrite !Ascii.eqb_refl. cbn [andb].
    destruct b as [|x r].
    - reflexivity.
    - cbn [plain_start] in Hb. apply andb_true_iff in Hb as [Hq Hj].
      apply negb_true_iff in Hq, Hj.
      rewrite !prefix_cons.
      rewrite (Ascii.eqb_sym "j" x), Hj, (Ascii.eqb_sym backtick x), Hq.
      cbn [andb]. rewrite ?andb_false_r. reflexivity. }
  rewrite FenceFacts.remove_marker_keep by exact Ha.
  rewrite remove_marker_front.
  rewrite chomp_remove_marker by exact Hx.
  reflexivity.
Qed.

(** No fence is left. *)
Lemma remove_marker_kept M c s :
  String.prefix M (String c s) = false ->
  remove_marker M 0 false (String c s) = String c (remove_marker M 0 false s).
Proof. intros H. cbn [remove_marker andb]. rewrite H. reflexivity. Qed.

Lemma prefix_pair_kept r :
  String.prefix (String backtick (String backtick EmptyString)) r = false ->
  String.prefix (String backtick (String backtick EmptyString))
                (remove_marker fence 0 false r) = false.
Proof.
  intros H.
  destruct r as [|x r]; [reflexivity|].
  rewrite prefix_cons in H.
  destruct (Ascii.eqb backtick x) eqn:Ex.
  - cbn [andb] in H. destruct r as [|y r].
    + rewrite remove_marker_kept
        by (unfold fence; rewrite prefix_cons, prefix_of_nil; apply andb_false_r).
      rewrite prefix_cons, prefix_of_nil. apply andb_false_r.
    + rewrite prefix_cons, prefix_nil, andb_true_r in H.
      rewrite remove_marker_kept
        by (unfold fence; rewrite !prefix_cons, H; apply andb_false_r).
      rewrite remove_marker_kept
        by (unfold fence; rewrite prefix_cons, H; reflexivity).
      rewrite !prefix_cons, H. apply andb_false_r.
  - rewrite remove_marker_kept
      by (unfold fence; rewrite prefix_cons, Ex; reflexivity).
    rewrite prefix_cons, Ex. reflexivity.
Qed.

Lemma no_fence_left s :
  forall skip after,
    Str.includes fence (remove_marker fence skip after s) = false.
Proof.
  induction s as [|c s IH]; intros skip after.
  - rewrite remove_marker_nil. reflexivity.
  - cbn [remove_marker]. destruct skip as [|k]; [|apply IH].
    destruct (after && Ascii.eqb c (ascii_of_nat 10)); [apply IH|].
    destruct (String.prefix fence (String c s)) eqn:P; [apply IH|].
    cbn [Str.includes]. rewrite IH, orb_false_r.
    unfold fence in *. rewrite prefix_cons in *.
    destruct (Ascii.eqb backtick c); [|reflexivity].
    cbn [andb] in *. apply prefix_pair_kept. exact P.
Qed.

Lemma strip_leaves_no_fence s :
  Str.includes fence (strip_code_fences s) = false.
Proof. apply no_fence_left. Qed.

(** The span of a text whose first opening brace and last closing brace
    are known. *)
Lemma strip_between pre inner post :
  strip_code_fences (pre ++ "{" ++ inner ++ "}" ++ post)
  = strip_code_fences pre ++ "{" ++ strip_code_fences inner
      ++ "}" ++ strip_code_fences post.
Proof.
  change (pre ++ "{" ++ inner ++ "}" ++ post)
    with (pre ++ String "{" (inner ++ String "}" post)).
  rewrite strip_barrier by reflexivity.
  rewrite strip_barrier by reflexivity.
  reflexivity.
Qed.

Lemma match_between P I Q :
  occurs "{" P = false ->
  occurs "}" Q = false ->
  match_json_object (P ++ "{" ++ I ++ "}" ++ Q) = Some ("{" ++ I ++ "}").
Proof.
  intros Hp Hq. unfold match_json_object.
  change (P ++ "{" ++ I ++ "}" ++ Q) with (P ++ String "{" (I ++ "}" ++ Q)).
  rewrite FenceFacts.from_first_open_skip by exact Hp.
  change (String "{" (I ++ "}" ++ Q)) with (String "{" I ++ "}" ++ Q).
  rewrite FenceFacts.upto_last_close_app by exact Hq. reflexivity.
Qed.

Lemma decode_between pre inner post :
  occurs "{" pre = false ->
  occurs "}" post = false ->
  JSON.parse (pre ++ "{" ++ inner ++ "}" ++ post) = None ->
  Instr.decode (pre ++ "{" ++ inner ++ "}" ++ post)
  = match JSON.parse ("{" ++ strip_code_fences inner ++ "}") with
    | Some parsedData => Instr.Parsed parsedData
    | None => Instr.SecondParseError ("{" ++ strip_code_fences inner ++ "}")
    end.
Proof.
  intros Hp Hq Hn. unfold Instr.decode. rewrite Hn, strip_between.
  rewrite match_between; [reflexivity| |]; apply occurs_strip; assumption.
Qed.

(** A text without a backtick holds no marker and is left as it is. *)
Lemma remove_marker_absent c m s :
  occurs c s = false -> remove_marker (String c m) 0 false s = s.
Proof.
  induction s as [|x s IH]; [reflexivity|].
  cbn [occurs]. intros H. apply orb_false_elim in H as [Hx Hs].
  rewrite remove_marker_plain by exact Hx. rewrite (IH Hs). reflexivity.
Qed.

Lemma strip_plain s :
  occurs backtick s = false -> strip_code_fences s = s.
Proof.
  intros H. unfold strip_code_fences.
  change fence_json with (String backtick (String backtick (String backtick "json"))).
  change fence with (String backtick (String backtick (String backtick ""))).
  rewrite (remove_marker_absent backtick _ s H).
  exact (remove_marker_absent backtick _ s H).
Qed.

Lemma first_occurrence c s :
  occurs c s = true ->
  exists pre r, s = pre ++ String c r /\ occurs c pre = false.
Proof.
  induction s as [|x s IH]; cbn [occurs]; [discriminate|].
  destruct (Ascii.eqb c x) eqn:E.
  - intros _. apply Ascii.eqb_eq in E. subst x.
    exists EmptyString, s. split; reflexivity.
  - cbn [orb]. intros H. destruct (IH H) as (pre & r & -> & Hp).
    exists (String x pre), r. split; [reflexivity|].
    cbn [occurs]. rewrite E. exact Hp.
Qed.

(** The cleaned text has a span exactly when, in the text, a closing
    brace follows an opening brace. *)
Lemma match_strip_none text :
  match_json_object (strip_code_fences text) = None
  <-> (forall pre inner post, text <> pre ++ "{" ++ inner ++ "}" ++ post).
Proof.
  split.
  - intros H pre inner post ->. rewrite strip_between in H.
    pose proof (proj1 (TextFacts.match_json_object_none _) H) as F.
    exact (F _ _ _ eq_refl).
  - intros H.
    destruct (occurs "{" text) eqn:Ho.
    + destruct (first_occurrence "{" text Ho) as (pre & r & -> & Hp).
      rewrite strip_barrier by reflexivity.
      unfold match_json_object.
      rewrite FenceFacts.from_first_open_skip by (apply occurs_strip, Hp).
      apply TextFacts.upto_last_close_none.
      cbn [occurs]. cbn [Ascii.eqb Bool.eqb orb].
      destruct (occurs "}" (strip_code_fences r)) eqn:Hc; [|reflexivity].
      unfold strip_code_fences in Hc.
      apply occurs_remove_marker, occurs_remove_marker in Hc.
      destruct (first_occurrence "}" r Hc) as (a & b & -> & _).
      exfalso. exact (H pre a b eq_refl).
    + unfold match_json_object.
      assert (from_first_open (strip_code_fences text) = None) as ->;
        [|reflexivity].
      apply occurs_strip in Ho.
      induction (strip_code_fences text) as [|x s IH]; [reflexivity|].
      cbn [occurs] in Ho. apply orb_false_elim in Ho as [Hx Hs].
      cbn [from_first_open]. rewrite Ascii.eqb_sym, Hx. exact (IH Hs).
Qed.

End StripFacts.

(* ================================================================== *)
(** ** The lookups of a run *)
(* ================================================================== *)

Ltac break_match_in H :=
  match type of H with
  | context [match ?x with _ => _ end] =>
      lazymatch x with
      | context [match _ with _ => _ end] => fail
      | _ => destruct x eqn:?
      end
  end.

(** The attempt after the opening lookup has missed and the verdict is
    bad: the world handed to the retry, or left by the rejection, has the
    store the lookup left. *)
Ltac body_bad_script this options retry w L Hv :=
  let C := fresh "C" in
  let Cv := fresh "Cv" in
  pose proof (calls_lookup this (cacheOptions (modelName this) options) options
                (logger creating_line w)) as C;
  rewrite L in C; cbn [calls logger] in C;
  match goal with
  | |- context [client this (List.length (calls ?v))] =>
      assert (calls v = calls w) as Cv
          by (repeat break_match; simpl; exact C);
      rewrite Cv
  end;
  repeat (break_match_in Hv; try discriminate Hv);
  injection Hv as <-;
  repeat break_match;
  eexists; (split; [|split; [|reflexivity]]);
  cbn [calls store logger with_store]; try rewrite Cv; reflexivity.

Section Steps.
Context {Store : Type}.
Variable this : OpenRouterClient Store.
Variable options : ChatCompletionOptions.

Lemma lookup_missed w s' :
  missed this options (store w) = Some s' ->
  exists w0,
    lookup this (cacheOptions (modelName this) options) options w = Miss w0
    /\ store w0 = s'.
Proof.
  unfold missed, lookup.
  destruct (enableCaching this).
  - destruct (cache this) as [c|]; [|discriminate].
    destruct (cache_get c _ _ _) as [[e|[v|]] s]; try discriminate.
    intros [= <-]. eexists. split; reflexivity.
  - intros [= <-]. eexists. split; reflexivity.
Qed.

Lemma missed_misses_at w s' :
  missed this options (store w) = Some s' -> misses_at this options w.
Proof.
  intros H.
  destruct (lookup_missed (logger creating_line w) s' H) as (w0 & L & _).
  exists w0. exact L.
Qed.

Lemma always_misses_keeps_missing n :
  always_misses this options ->
  forall s, keeps_missing this options n s.
Proof.
  intros H. induction n as [|n IH]; intros s; cbn [keeps_missing].
  - destruct (H {| calls := []; logs := []; store := s |}) as (w' & L).
    unfold lookup, missed in *. cbn [store] in L.
    destruct (enableCaching this); [|exact I].
    destruct (cache this) as [c|]; [|discriminate].
    destruct (cache_get c _ _ _) as [[e|[v|]] s0]; try discriminate. exact I.
  - destruct (H {| calls := []; logs := []; store := s |}) as (w' & L).
    unfold lookup, missed in *. cbn [store] in L.
    destruct (enableCaching this); [|apply IH].
    destruct (cache this) as [c|]; [|discriminate].
    destruct (cache_get c _ _ _) as [[e|[v|]] s0]; try discriminate. apply IH.
Qed.

Lemma instr_body_bad retry retries w s' error :
  missed this options (store w) = Some s' ->
  instr_verdict this options (List.length (calls w)) = Bad error ->
  exists w1,
    calls w1 = calls w ++ [Instr.request (modelName this) options]
    /\ store w1 = s'
    /\ Instr.createChatCompletion_body this retry retries options w
       = match retry with
         | Some again => again w1
         | None => (request_failed error, w1)
         end.
Proof.
  intros Hm Hv.
  destruct (lookup_missed (logger creating_line w) s' Hm) as (w0 & L & <-).
  unfold Instr.createChatCompletion_body. fold creating_line. rewrite L.
  unfold Instr.attempt, create. unfold instr_verdict in Hv.
  body_bad_script this options retry w L Hv.
Qed.

Lemma native_body_bad retry retries w s' error :
  missed this options (store w) = Some s' ->
  native_verdict this options (List.length (calls w)) = Bad error ->
  exists w1,
    calls w1 = calls w ++ [Native.request (modelName this) options]
    /\ store w1 = s'
    /\ Native.createChatCompletion_body this retry retries options w
       = match retry with
         | Some again => again w1
         | None => (request_failed error, w1)
         end.
Proof.
  intros Hm Hv.
  destruct (lookup_missed (logger creating_line w) s' Hm) as (w0 & L & <-).
  unfold Native.createChatCompletion_body. fold creating_line. rewrite L.
  unfold Native.attempt, create. unfold native_verdict in Hv.
  body_bad_script this options retry w L Hv.
Qed.

Lemma instr_run_loop (retries : nat) :
  forall (m : nat) (w : World Store),
    let loop := attempts (instr_verdict this options) retries
                         (List.length (calls w)) in
    ((exists value, fst loop = Resolved value) -> save_succeeds this options) ->
    keeps_missing this options m (store w) ->
    snd loop <= S m ->
    fst (Instr.createChatCompletion this retries options w) = fst loop
    /\ calls (snd (Instr.createChatCompletion this retries options w))
       = calls w ++ repeat (Instr.request (modelName this) options) (snd loop).
Proof.
  induction retries as [|r IH]; intros m w loop Hs Hk Hb; subst loop;
    cbn [Instr.createChatCompletion attempts] in *;
    assert (exists s', missed this options (store w) = Some s'
                       /\ forall m', m = S m' -> keeps_missing this options m' s')
      as (s' & Hm & Hk')
      by (destruct m; cbn [keeps_missing] in Hk;
          destruct (missed this options (store w)) as [s'|];
          try contradiction; exists s'; split; try reflexivity;
          intros m' [=]; subst; exact Hk);
    destruct (instr_verdict this options (List.length (calls w)))
      as [value|error] eqn:Hv.
  - destruct (instr_body_verdict this options (Hs (ex_intro _ value eq_refl))
                None 0 w (missed_misses_at w s' Hm)) as (w1 & C & E & _).
    rewrite Hv in E. rewrite E. split; [reflexivity|exact C].
  - destruct (instr_body_bad None 0 w s' error Hm Hv) as (w1 & C & _ & E).
    rewrite E. split; [reflexivity|exact C].
  - destruct (instr_body_verdict this options (Hs (ex_intro _ value eq_refl))
                (Some (Instr.createChatCompletion this r options)) (S r) w
                (missed_misses_at w s' Hm)) as (w1 & C & E & _).
    rewrite Hv in E. rewrite E. split; [reflexivity|exact C].
  - destruct (instr_body_bad (Some (Instr.createChatCompletion this r options))
                (S r) w s' error Hm Hv) as (w1 & C & S1 & E).
    rewrite E.
    assert (List.length (calls w1) = S (List.length (calls w))) as Ln
        by (rewrite C, length_app; simpl; lia).
    pose proof (attempts_count (instr_verdict this options) r
                  (S (List.length (calls w)))) as Hc.
    destruct (attempts (instr_verdict this options) r
                       (S (List.length (calls w)))) as [o k] eqn:Ea.
    cbn [fst snd] in *.
    destruct m as [|m']; [lia|].
    destruct (IH m' w1) as [F G].
    + rewrite Ln, Ea. exact Hs.
    + rewrite S1. apply Hk'. reflexivity.
    + rewrite Ln, Ea. cbn [snd]. lia.
    + rewrite Ln, Ea in F, G. cbn [fst snd] in F, G.
      split; [exact F|]. rewrite G, C, <- app_assoc. reflexivity.
Qed.

Lemma native_run_loop (retries : nat) :
  forall (m : nat) (w : World Store),
    let loop := attempts (native_verdict this options) retries
                         (List.length (calls w)) in
    ((exists value, fst loop = Resolved value) -> save_succeeds this options) ->
    keeps_missing this options m (store w) ->
    snd loop <= S m ->
    fst (Native.createChatCompletion this retries options w) = fst loop
    /\ calls (snd (Native.createChatCompletion this retries options w))
       = calls w ++ repeat (Native.request (modelName this) options) (snd loop).
Proof.
  induction retries as [|r IH]; intros m w loop Hs Hk Hb; subst loop;
    cbn [Native.createChatCompletion attempts] in *;
    assert (exists s', missed this options (store w) = Some s'
                       /\ forall m', m = S m' -> keeps_missing this options m' s')
      as (s' & Hm & Hk')
      by (destruct m; cbn [keeps_missing] in Hk;
          destruct (missed this options (store w)) as [s'|];
          try contradiction; exists s'; split; try reflexivity;
          intros m' [=]; subst; exact Hk);
    destruct (native_verdict this options (List.length (calls w)))
      as [value|error] eqn:Hv.
  - destruct (native_body_verdict this options (Hs (ex_intro _ value eq_refl))
                None 0 w (missed_misses_at w s' Hm)) as (w1 & C & E & _).
    rewrite Hv in E. rewrite E. split; [reflexivity|exact C].
  - destruct (native_body_bad None 0 w s' error Hm Hv) as (w1 & C & _ & E).
    rewrite E. split; [reflexivity|exact C].
  - destruct (native_body_verdict this options (Hs (ex_intro _ value eq_refl))
                (Some (Native.createChatCompletion this r options)) (S r) w
                (missed_misses_at w s' Hm)) as (w1 & C & E & _).
    rewrite Hv in E. rewrite E. split; [reflexivity|exact C].
  - destruct (native_body_bad (Some (Native.createChatCompletion this r options))
                (S r) w s' error Hm Hv) as (w1 & C & S1 & E).
    rewrite E.
    assert (List.length (calls w1) = S (List.length (calls w))) as Ln
        by (rewrite C, length_app; simpl; lia).
    pose proof (attempts_count (native_verdict this options) r
                  (S (List.length (calls w)))) as Hc.
    destruct (attempts (native_verdict this options) r
                       (S (List.length (calls w)))) as [o k] eqn:Ea.
    cbn [fst snd] in *.
    destruct m as [|m']; [lia|].
    destruct (IH m' w1) as [F G].
    + rewrite Ln, Ea. exact Hs.
    + rewrite S1. apply Hk'. reflexivity.
    + rewrite Ln, Ea. cbn [snd]. lia.
    + rewrite Ln, Ea in F, G. cbn [fst snd] in F, G.
      split; [exact F|]. rewrite G, C, <- app_assoc. reflexivity.
Qed.

(** A call whose opening lookup misses issues at least one vendor
    call. *)
Lemma instr_run_calls_miss (retries : nat) (w : World Store) :
  misses_at this options w ->
  exists k,
    1 <= k <= S retries
    /\ calls (snd (Instr.createChatCompletion this retries options w))
       = calls w ++ repeat (Instr.request (modelName this) options) k.
Proof.
  intros (w0 & L).
  pose proof (calls_lookup this (cacheOptions (modelName this) options) options
                (logger creating_line w)) as C.
  rewrite L in C. cbn [calls logger] in C.
  destruct retries as [|n]; cbn [Instr.createChatCompletion];
    unfold Instr.createChatCompletion_body; fold creating_line; rewrite L;
    match goal with
    | |- context [Instr.attempt this ?retry options ?k ?v] =>
        assert (calls v = calls w) as Cv
            by (repeat break_match; simpl; exact C);
        pose proof (InstrFacts.instr_attempt_calls this options retry k v) as A;
        destruct (Instr.attempt this retry options k v) as [r|e w3]
    end; rewrite Cv in A.
  - destruct A as [A|(again & w1 & [=] & _)].
    exists 1. split; [lia|exact A].
  - exists 1. split; [lia|exact A].
  - destruct A as [A|(again & w1 & [= <-] & -> & A)].
    + exists 1. split; [lia|exact A].
    + destruct (InstrFacts.instr_run_calls this options n w1) as (k & Hk & E).
      exists (S k). split; [lia|]. rewrite E, A, <- app_assoc. reflexivity.
  - cbn [snd calls logger].
    destruct (InstrFacts.instr_run_calls this options n
                (logger (openrouter ("retrying OpenRouter request, "
                                       ++ JS.string_of_nat (S n)
                                       ++ " attempts remaining")%string 1)
                        (logger (openrouter ("OpenRouter request failed: "
                                               ++ JS.message e)%string 0) w3)))
      as (k & Hk & E).
    exists (S k). split; [lia|]. rewrite E. cbn [calls logger].
    rewrite A, <- app_assoc. reflexivity.
Qed.

Lemma native_run_calls_miss (retries : nat) (w : World Store) :
  misses_at this options w ->
  exists k,
    1 <= k <= S retries
    /\ calls (snd (Native.createChatCompletion this retries options w))
       = calls w ++ repeat (Native.request (modelName this) options) k.
Proof.
  intros (w0 & L).
  pose proof (calls_lookup this (cacheOptions (modelName this) options) options
                (logger creating_line w)) as C.
  rewrite L in C. cbn [calls logger] in C.
  destruct retries as [|n]; cbn [Native.createChatCompletion];
    unfold Native.createChatCompletion_body; fold creating_line; rewrite L;
    match goal with
    | |- context [Native.attempt this ?retry options ?k ?v] =>
        assert (calls v = calls w) as Cv
            by (repeat break_match; simpl; exact C);
        pose proof (NativeFacts.native_attempt_calls this options retry k v) as A;
        destruct (Native.attempt this retry options k v) as [r|e w3]
    end; rewrite Cv in A.
  - destruct A as [A|(again & w1 & [=] & _)].
    exists 1. split; [lia|exact A].
  - exists 1. split; [lia|exact A].
  - destruct A as [A|(again & w1 & [= <-] & -> & A)].
    + exists 1. split; [lia|exact A].
    + destruct (NativeFacts.native_run_calls this options n w1) as (k & Hk & E).
      exists (S k). split; [lia|]. rewrite E, A, <- app_assoc. reflexivity.
  - cbn [snd calls logger].
    destruct (NativeFacts.native_run_calls this options n
                (logger (openrouter ("retrying OpenRouter request, "
                                       ++ JS.string_of_nat (S n)
                                       ++ " attempts remaining")%string 1)
                        (logger (openrouter ("OpenRouter request failed: "
                                               ++ JS.message e)%string 0) w3)))
      as (k & Hk & E).
    exists (S k). split; [lia|]. rewrite E. cbn [calls logger].
    rewrite A, <- app_assoc. reflexivity.
Qed.

(** The vendor calls of a run: at most [S retries], at least one when the
    opening lookup misses, all with the one request. *)
Lemma instr_run_calls_bounds (retries : nat) (w : World Store) :
  exists k,
    k <= S retries
    /\ (missed this options (store w) <> None -> 1 <= k)
    /\ calls (snd (Instr.createChatCompletion this retries options w))
       = calls w ++ repeat (Instr.request (modelName this) options) k.
Proof.
  destruct (missed this options (store w)) as [s'|] eqn:E.
  - destruct (instr_run_calls_miss retries w (missed_misses_at w s' E))
      as (k & (L & U) & C).
    exists k. split; [exact U|]. split; [intros _; exact L|exact C].
  - destruct (InstrFacts.instr_run_calls this options retries w)
      as (k & U & C).
    exists k. split; [exact U|]. split; [|exact C].
    intros H. contradiction H. reflexivity.
Qed.

Lemma native_run_calls_bounds (retries : nat) (w : World Store) :
  exists k,
    k <= S retries
    /\ (missed this options (store w) <> None -> 1 <= k)
    /\ calls (snd (Native.createChatCompletion this retries options w))
       = calls w ++ repeat (Native.request (modelName this) options) k.
Proof.
  destruct (missed this options (store w)) as [s'|] eqn:E.
  - destruct (native_run_calls_miss retries w (missed_misses_at w s' E))
      as (k & (L & U) & C).
    exists k. split; [exact U|]. split; [intros _; exact L|exact C].
  - destruct (NativeFacts.native_run_calls this options retries w)
      as (k & U & C).
    exists k. split; [exact U|]. split; [|exact C].
    intros H. contradiction H. reflexivity.
Qed.

Lemma keeps_missing_once (s : Store) :
  missed this options s <> None -> keeps_missing this options 0 s.
Proof.
  cbn [keeps_missing]. destruct (missed this options s); [trivial|].
  intros H. contradiction H. reflexivity.
Qed.

(** A good first attempt settles the call, whatever [retries] is. *)
Lemma instr_first_good (retries : nat) (w : World Store) (value : Completion) :
  missed this options (store w) <> None ->
  save_succeeds this options ->
  instr_verdict this options (List.length (calls w)) = Good value ->
  fst (Instr.createChatCompletion this retries options w) = Resolved value
  /\ calls (snd (Instr.createChatCompletion this retries options w))
     = calls w ++ [Instr.request (modelName this) options].
Proof.
  intros Hm Hs Hv.
  assert (attempts (instr_verdict this options) retries (List.length (calls w))
          = (Resolved value, 1)) as Ea
      by (destruct retries; cbn [attempts]; rewrite Hv; reflexivity).
  destruct (instr_run_loop retries 0 w) as [F C].
  - intros _. exact Hs.
  - apply keeps_missing_once, Hm.
  - rewrite Ea. cbn [snd]. lia.
  - rewrite Ea in F, C. split; [exact F|exact C].
Qed.

Lemma native_first_good (retries : nat) (w : World Store) (value : Completion) :
  missed this options (store w) <> None ->
  save_succeeds this options ->
  native_verdict this options (List.length (calls w)) = Good value ->
  fst (Native.createChatCompletion this retries options w) = Resolved value
  /\ calls (snd (Native.createChatCompletion this retries options w))
     = calls w ++ [Native.request (modelName this) options].
Proof.
  intros Hm Hs Hv.
  assert (attempts (native_verdict this options) retries (List.length (calls w))
          = (Resolved value, 1)) as Ea
      by (destruct retries; cbn [attempts]; rewrite Hv; reflexivity).
  destruct (native_run_loop retries 0 w) as [F C].
  - intros _. exact Hs.
  - apply keeps_missing_once, Hm.
  - rewrite Ea. cbn [snd]. lia.
  - rewrite Ea in F, C. split; [exact F|exact C].
Qed.

(** A bad attempt with [retries = 0] rejects; with [retries > 0] the call
    is, after the vendor call, the call with one retry less. *)
Lemma instr_last_bad (w : World Store) (error : JS.Exn) :
  missed this options (store w) <> None ->
  instr_verdict this options (List.length (calls w)) = Bad error ->
  fst (Instr.createChatCompletion this 0 options w) = request_failed error
  /\ calls (snd (Instr.createChatCompletion this 0 options w))
     = calls w ++ [Instr.request (modelName this) options].
Proof.
  intros Hm Hv.
  destruct (missed this options (store w)) as [s'|] eqn:E; [|contradiction].
  destruct (instr_body_bad None 0 w s' error E Hv) as (w1 & C & _ & R).
  cbn [Instr.createChatCompletion]. rewrite R. split; [reflexivity|exact C].
Qed.

Lemma instr_bad_step (n : nat) (w : World Store) (error : JS.Exn) :
  missed this options (store w) <> None ->
  instr_verdict this options (List.length (calls w)) = Bad error ->
  exists w1,
    calls w1 = calls w ++ [Instr.request (modelName this) options]
    /\ Instr.createChatCompletion this (S n) options w
       = Instr.createChatCompletion this n options w1.
Proof.
  intros Hm Hv.
  destruct (missed this options (store w)) as [s'|] eqn:E; [|contradiction].
  destruct (instr_body_bad (Some (Instr.createChatCompletion this n options))
              (S n) w s' error E Hv) as (w1 & C & _ & R).
  exists w1. split; [exact C|exact R].
Qed.

End Steps.

(* ================================================================== *)
(** ** What a reply comes to in an attempt *)
(* ================================================================== *)

(** A text that parses is decoded by the first [JSON.parse] alone. *)
Lemma decode_direct (text : string) (data : JSON.Json) :
  JSON.parse text = Some data -> Instr.decode text = Instr.Parsed data.
Proof. unfold Instr.decode. intros ->. reflexivity. Qed.

Section Verdicts.

Context {Store : Type}.
Variable this : OpenRouterClient Store.
Variable options : ChatCompletionOptions.
Variable rm : ResponseModel.
Hypothesis structured : response_model options = Some rm.

Variable n : nat.
Variable apiResponse : ApiResponse.
Hypothesis answered :
  client this n (Instr.request (modelName this) options) = inr apiResponse.

Let response := formatResponse (modelName this) apiResponse.

(** A reply that yields no data ends the attempt with its error. *)
Lemma instr_extraction_verdict (error : JS.Exn) :
  instr_extraction_error response = Some error ->
  instr_verdict this options n = Bad error.
Proof.
  unfold instr_extraction_error, instr_verdict.
  rewrite answered, structured. fold response.
  destruct (Instr.extractedData response) as [extracted|].
  - destruct (Instr.decode extracted) as [d|span|]; [discriminate| |];
      intros E; injection E as <-; reflexivity.
  - intros E; injection E as <-; reflexivity.
Qed.

(** A reply whose text decodes to data the schema accepts is the result
    of the attempt, with the usage of the reply. *)
Lemma instr_data_verdict (text : string) (data : JSON.Json) :
  Instr.extractedData response = Some text ->
  Instr.decode text = Instr.Parsed data ->
  safeParse (schema rm) data = None ->
  instr_verdict this options n = Good (Extracted data (usage response)).
Proof.
  intros He Hd Hs. unfold instr_verdict.
  rewrite answered, structured. fold response.
  rewrite He, Hd. unfold validateZodSchema. rewrite Hs. reflexivity.
Qed.

End Verdicts.

Section Decoding.

Context {Store : Type}.
Variable this : OpenRouterClient Store.
Variable options : ChatCompletionOptions.
Variable rm : ResponseModel.
Hypothesis structured : response_model options = Some rm.

Variable w : World Store.
Hypothesis opening : missed this options (store w) <> None.

Variable apiResponse : ApiResponse.
Hypothesis answered :
  client this (List.length (calls w)) (Instr.request (modelName this) options)
  = inr apiResponse.

Let response := formatResponse (modelName this) apiResponse.
Let rq := Instr.request (modelName this) options.

(** The text the attempt takes from the reply is the text it decodes: the
    call resolves with its data, or fails with its error. *)
Lemma instr_decodes_extracted (text : string) :
  Instr.extractedData response = Some text ->
  (forall data,
      Instr.decode text = Instr.Parsed data ->
      safeParse (schema rm) data = None ->
      save_succeeds this options ->
      forall retries,
        fst (Instr.createChatCompletion this retries options w)
        = Resolved (Extracted data (usage response))
        /\ calls (snd (Instr.createChatCompletion this retries options w))
           = calls w ++ [rq])
  /\ (forall error,
         decode_error text = Some error ->
         (fst (Instr.createChatCompletion this 0 options w)
          = request_failed error
          /\ calls (snd (Instr.createChatCompletion this 0 options w))
             = calls w ++ [rq])
         /\ forall n, exists w1,
             calls w1 = calls w ++ [rq]
             /\ Instr.createChatCompletion this (S n) options w
                = Instr.createChatCompletion this n options w1).
Proof.
  intros He. split.
  - intros data Hd Hv Hs retries.
    apply instr_first_good; [exact opening|exact Hs|].
    exact (instr_data_verdict this options rm structured _ apiResponse
             answered text data He Hd Hv).
  - intros error Hx.
    assert (instr_verdict this options (List.length (calls w)) = Bad error) as V.
    { apply (instr_extraction_verdict this options rm structured _
               apiResponse answered).
      unfold instr_extraction_error. fold response. rewrite He.
      unfold decode_error in Hx.
      destruct (Instr.decode text); [discriminate|exact Hx|exact Hx]. }
    split.
    + apply instr_last_bad; [exact opening|exact V].
    + intros n. apply (instr_bad_step this options n w error opening V).
Qed.

(** Without content and without tool call the attempt fails. *)
Lemma instr_nothing_to_decode :
  Instr.extractedData response = None ->
  (fst (Instr.createChatCompletion this 0 options w)
   = request_failed
       (JS.CreateChatCompletionResponseError
          "No content or tool calls found in OpenRouter response for response_model")
   /\ calls (snd (Instr.createChatCompletion this 0 options w))
      = calls w ++ [rq])
  /\ forall n, exists w1,
      calls w1 = calls w ++ [rq]
      /\ Instr.createChatCompletion this (S n) options w
         = Instr.createChatCompletion this n options w1.
Proof.
  intros He.
  assert (instr_verdict this options (List.length (calls w))
          = Bad (JS.CreateChatCompletionResponseError
                   "No content or tool calls found in OpenRouter response for response_model"))
    as V.
  { apply (instr_extraction_verdict this options rm structured _
             apiResponse answered).
    unfold instr_extraction_error. fold response. rewrite He. reflexivity. }
  split.
  - apply instr_last_bad; [exact opening|exact V].
  - intros n. apply (instr_bad_step this options n w _ opening V).
Qed.

End Decoding.

Lemma extractedData_content response text :
  msg_content (choice_message response) = Some text ->
  JS.truthy_string text = true ->
  Instr.extractedData response = Some text.
Proof.
  intros Hc Ht. unfold Instr.extractedData. rewrite Hc, Ht. reflexivity.
Qed.

Lemma extractedData_tool_call response toolCall others :
  JS.or_null (msg_content (choice_message response)) = None ->
  msg_tool_calls (choice_message response) = toolCall :: others ->
  Instr.extractedData response = Some (call_arguments toolCall).
Proof.
  intros Hc Ht. unfold Instr.extractedData. unfold JS.or_null in Hc.
  destruct (msg_content (choice_message response)) as [text|].
  - destruct (JS.truthy_string text); [discriminate|].
    rewrite Ht. reflexivity.
  - rewrite Ht. reflexivity.
Qed.

Lemma extractedData_nothing response :
  JS.or_null (msg_content (choice_message response)) = None ->
  msg_tool_calls (choice_message response) = [] ->
  Instr.extractedData response = None.
Proof.
  intros Hc Ht. unfold Instr.extractedData. unfold JS.or_null in Hc.
  destruct (msg_content (choice_message response)) as [text|].
  - destruct (JS.truthy_string text); [discriminate|].
    rewrite Ht. reflexivity.
  - rewrite Ht. reflexivity.
Qed.

(** The one-slot cache never throws on a write. *)
Lemma one_slot_save_succeeds v options :
  save_succeeds (Sample.cached v) options.
Proof.
  intros key value w. eexists. split; reflexivity.
Qed.

(* ================================================================== *)
(** ** The cache key *)
(* ================================================================== *)

(** C3.  Requests that differ only in [requestId] have the same
    [cacheOptions], for whatever [retries] the method is called with
    ([retries] is no argument of [cacheOptions]); the object records the
    model of the client and the request's messages, sampling parameters,
    image, response model, tools, tool choice and [maxTokens]. *)
Theorem cacheOptions_ignores_requestId
        (modelName : string) (A B : ChatCompletionOptions) :
  differ_only_in_requestId A B ->
  cacheOptions modelName A = cacheOptions modelName B
  /\ key_model (cacheOptions modelName A) = modelName
  /\ key_messages (cacheOptions modelName A) = messages A
  /\ key_temperature (cacheOptions modelName A) = temperature A
  /\ key_top_p (cacheOptions modelName A) = top_p A
  /\ key_frequency_penalty (cacheOptions modelName A) = frequency_penalty A
  /\ key_presence_penalty (cacheOptions modelName A) = presence_penalty A
  /\ key_tools (cacheOptions modelName A) = tools A
  /\ key_tool_choice (cacheOptions modelName A) = tool_choice A
  /\ key_response_model (cacheOptions modelName A) = response_model A
  /\ key_maxTokens (cacheOptions modelName A) = maxTokens A
  /\ key_image (cacheOptions modelName A) = image A.
Proof.
  intros (Hm & Ht & Hp & Hf & Hpp & Hi & Hr & Hto & Htc & Hmt).
  split; [|repeat split].
  unfold cacheOptions.
  rewrite Hm, Ht, Hp, Hf, Hpp, Hi, Hr, Hto, Htc, Hmt. reflexivity.
Qed.

Lemma cacheOptions_ignores_requestId_witness :
  requestId (Sample.ask "req-1" None None)
  <> requestId (Sample.ask "req-2" None None)
  /\ cacheOptions "x-ai/grok-4" (Sample.ask "req-1" None None)
     = cacheOptions "x-ai/grok-4" (Sample.ask "req-2" None None).
Proof.
  split; [discriminate|].
  apply (cacheOptions_ignores_requestId "x-ai/grok-4"
           (Sample.ask "req-1" None None) (Sample.ask "req-2" None None)).
  repeat split.
Defined.

(** The key is the same exactly when the model and every field but
    [requestId] are. *)
Lemma cacheOptions_eq_iff (m1 m2 : string) (A B : ChatCompletionOptions) :
  cacheOptions m1 A = cacheOptions m2 B
  <-> m1 = m2 /\ differ_only_in_requestId A B.
Proof.
  split.
  - intros H. unfold cacheOptions in H. injection H. intros.
    repeat split; assumption.
  - intros (-> & Hm & Ht & Hp & Hf & Hpp & Hi & Hr & Hto & Htc & Hmt).
    unfold cacheOptions.
    rewrite Hm, Ht, Hp, Hf, Hpp, Hi, Hr, Hto, Htc, Hmt. reflexivity.
Qed.

(* ================================================================== *)
(** ** Message formatting *)
(* ================================================================== *)

Lemma filter_text_parts (parts : list ContentPart) :
  filter is_text (map contentPart parts)
  = map contentPart (filter is_text_part parts).
Proof.
  induction parts as [|c parts IH]; simpl; [reflexivity|].
  unfold contentPart at 1, is_text_part at 1.
  destruct (part_image_url c); simpl; rewrite IH; reflexivity.
Qed.

(** A message of the request is sent, formatted, at the place it has in
    the request, by both variants. *)
Lemma formattedMessages_nth (modelName : string)
      (options : ChatCompletionOptions) (i : nat) (message : ChatMessage) :
  nth_error (messages options) i = Some message ->
  nth_error (formattedMessages options) i = Some (formatMessage message)
  /\ nth_error (p_messages (Instr.request modelName options)) i
     = Some (formatMessage message)
  /\ nth_error (p_messages (Native.request modelName options)) i
     = Some (formatMessage message).
Proof.
  intros H.
  assert (nth_error (formattedMessages options) i = Some (formatMessage message))
    as F.
  { unfold formattedMessages. rewrite nth_error_app1.
    - apply map_nth_error. exact H.
    - rewrite length_map. apply nth_error_Some. rewrite H. discriminate. }
  assert (i < List.length (formattedMessages options)) as L
      by (apply nth_error_Some; rewrite F; discriminate).
  split; [exact F|]. split.
  - cbn [Instr.request completionParams p_messages]. unfold Instr.requestMessages.
    rewrite nth_error_app1 by exact L. exact F.
  - cbn [Native.request completionParams p_messages].
    unfold Native.requestMessages.
    rewrite nth_error_app1 by exact L. exact F.
Qed.

(** C9.  In [formattedMessages], and so in the request either variant
    sends, a message with array content stands at its place with every
    part, text and image, when its role is user, and with exactly its text
    parts when its role is system or assistant; a message with string
    content stands at its place with its role and its text. *)
Theorem formattedMessages_by_role
        (modelName : string) (options : ChatCompletionOptions) :
  let sent (i : nat) (m : MessageParam) : Prop :=
    nth_error (formattedMessages options) i = Some m
    /\ nth_error (p_messages (Instr.request modelName options)) i = Some m
    /\ nth_error (p_messages (Native.request modelName options)) i = Some m in
  (forall i parts,
      nth_error (messages options) i
      = Some {| role := user; content := ContentParts parts |} ->
      sent i {| param_role := user;
                param_content := PartsParam (map contentPart parts) |})
  /\ (forall i r parts,
         r = system \/ r = assistant ->
         nth_error (messages options) i
         = Some {| role := r; content := ContentParts parts |} ->
         sent i {| param_role := r;
                   param_content :=
                     PartsParam (map contentPart (filter is_text_part parts)) |})
  /\ (forall i r text,
         nth_error (messages options) i
         = Some {| role := r; content := ContentString text |} ->
         sent i {| param_role := r; param_content := StringParam text |})
  /\ (forall c,
         contentPart c = match part_image_url c with
                         | Some url => ImagePart url
                         | None => TextPart (part_text c)
                         end)
  /\ (forall c, is_text_part c = true <-> part_image_url c = None)
  /\ map param_role (firstn (List.length (messages options))
                            (formattedMessages options))
     = map role (messages options).
Proof.
  intros sent. split; [|split; [|split; [|split; [|split]]]].
  - intros i parts H.
    exact (formattedMessages_nth modelName options i _ H).
  - intros i r parts Hr H.
    pose proof (formattedMessages_nth modelName options i _ H) as S.
    assert (formatMessage {| role := r; content := ContentParts parts |}
            = {| param_role := r;
                 param_content :=
                   PartsParam (map contentPart (filter is_text_part parts)) |})
      as E by (destruct Hr as [-> | ->]; unfold formatMessage; simpl;
               rewrite filter_text_parts; reflexivity).
    rewrite E in S. exact S.
  - intros i r text H.
    pose proof (formattedMessages_nth modelName options i _ H) as S.
    assert (formatMessage {| role := r; content := ContentString text |}
            = {| param_role := r; param_content := StringParam text |})
      as E by (destruct r; reflexivity).
    rewrite E in S. exact S.
  - reflexivity.
  - intros c. unfold is_text_part.
    destruct (part_image_url c); split; congruence.
  - unfold formattedMessages.
    rewrite firstn_app, length_map, Nat.sub_diag, firstn_O, app_nil_r.
    rewrite <- (length_map formatMessage), firstn_all, map_map.
    apply map_ext. intros [r c]. unfold formatMessage. simpl.
    destruct c, r; reflexivity.
Qed.

(** The theorem on a request with an image part in a system message and
    in a user message. *)
Lemma formattedMessages_by_role_witness :
  let rq := Native.request "x-ai/grok-4" (Cases.rich None) in
  nth_error (p_messages rq) 0
  = Some {| param_role := system;
            param_content := PartsParam [TextPart (Some "look")] |}
  /\ nth_error (p_messages rq) 1
     = Some {| param_role := user;
               param_content :=
                 PartsParam [ImagePart "https://example.com/a.png";
                             TextPart (Some "look")] |}
  /\ nth_error (p_messages rq) 2
     = Some {| param_role := assistant; param_content := StringParam "ok" |}.
Proof.
  intros rq.
  destruct (formattedMessages_by_role "x-ai/grok-4" (Cases.rich None))
    as (U & S & T & _).
  split; [|split].
  - exact (proj2 (proj2 (S 0 system [Cases.picture; Cases.caption]
                           (or_introl eq_refl) eq_refl))).
  - exact (proj2 (proj2 (U 1 [Cases.picture; Cases.caption] eq_refl))).
  - exact (proj2 (proj2 (T 2 assistant "ok"%string eq_refl))).
Defined.

(* ================================================================== *)
(** ** A cache hit *)
(* ================================================================== *)

(** C2.  With caching enabled and an entry in the cache for the request's
    [cacheOptions], the method resolves to that entry at once, in both
    variants and whatever [retries], the vendor and the schema are: the
    vendor calls are those made before, the log gains the opening line and
    the hit line only, and the store is the one the lookup left. *)
Theorem cache_hit_returns_cached_entry {Store : Type}
        (this : OpenRouterClient Store) (retries : nat)
        (options : ChatCompletionOptions) (w : World Store)
        (c : LLMCache Store) (cachedResponse : Completion) (s : Store) :
  enableCaching this = true ->
  cache this = Some c ->
  cache_get c (cacheOptions (modelName this) options) (requestId options)
            (store w)
  = (inr (Some cachedResponse), s) ->
  let w' := {| calls := calls w;
               logs := logs w ++ [creating_line; cache_hit_line];
               store := s |} in
  Instr.createChatCompletion this retries options w
  = (Resolved cachedResponse, w')
  /\ Native.createChatCompletion this retries options w
     = (Resolved cachedResponse, w').
Proof.
  intros He Hc Hg w'.
  assert (lookup this (cacheOptions (modelName this) options) options
                 (logger creating_line w)
          = Hit cachedResponse w') as L.
  { unfold lookup. rewrite He, Hc. simpl. rewrite Hg.
    unfold logger, with_store, w'. simpl. rewrite <- app_assoc. reflexivity. }
  split; destruct retries; simpl.
  - unfold Instr.createChatCompletion_body. fold creating_line.
    rewrite L. reflexivity.
  - unfold Instr.createChatCompletion_body. fold creating_line.
    rewrite L. reflexivity.
  - unfold Native.createChatCompletion_body. fold creating_line.
    rewrite L. reflexivity.
  - unfold Native.createChatCompletion_body. fold creating_line.
    rewrite L. reflexivity.
Qed.

Lemma cache_hit_returns_cached_entry_witness :
  let this := Sample.cached (Sample.always (inl (JS.Error "offline"))) in
  let options := Sample.ask "req-1" None (Some Sample.result_model) in
  let w := {| calls := []; logs := []; store := Some Sample.stored |} in
  let w' := {| calls := [];
               logs := [creating_line; cache_hit_line];
               store := Some Sample.stored |} in
  Instr.createChatCompletion this 2 options w = (Resolved Sample.stored, w')
  /\ Native.createChatCompletion this 2 options w = (Resolved Sample.stored, w').
Proof.
  intros this options w w'.
  exact (cache_hit_returns_cached_entry this 2 options w
           Sample.one_slot Sample.stored (Some Sample.stored)
           eq_refl eq_refl eq_refl).
Defined.

(* ================================================================== *)
(** ** The temperature sent *)
(* ================================================================== *)

Lemma or_number_zero (t : option float) (d : float) :
  zero_or_absent t -> JS.or_number t d = d.
Proof.
  intros [-> | (x & -> & Hx)]; [reflexivity|].
  unfold JS.or_number, JS.truthy_number. rewrite Hx. reflexivity.
Qed.

(** C10.  When the request has no temperature, or has temperature zero,
    every vendor call of a run, in both variants, carries the temperature
    0.7: a run issues at most [S retries] vendor calls, at least one when
    its opening lookup misses, all with the one request, whose temperature
    is 0.7.  [cacheOptions] records the temperature as the caller gave it;
    so the key of a request with temperature zero differs from the key of
    the same request without temperature, although both send 0.7. *)
Theorem zero_temperature_is_replaced {Store : Type}
        (this : OpenRouterClient Store) (retries : nat)
        (options : ChatCompletionOptions) (w : World Store) :
  zero_or_absent (temperature options) ->
  (exists k,
      k <= S retries
      /\ (missed this options (store w) <> None -> 1 <= k)
      /\ calls (snd (Instr.createChatCompletion this retries options w))
         = calls w ++ repeat (Instr.request (modelName this) options) k
      /\ p_temperature (Instr.request (modelName this) options)
         = default_temperature)
  /\ (exists k,
         k <= S retries
         /\ (missed this options (store w) <> None -> 1 <= k)
         /\ calls (snd (Native.createChatCompletion this retries options w))
            = calls w ++ repeat (Native.request (modelName this) options) k
         /\ p_temperature (Native.request (modelName this) options)
            = default_temperature)
  /\ key_temperature (cacheOptions (modelName this) options)
     = temperature options
  /\ (forall other,
         temperature options = Some 0%float ->
         temperature other = None ->
         cacheOptions (modelName this) options
         <> cacheOptions (modelName this) other
         /\ p_temperature (Instr.request (modelName this) other)
            = p_temperature (Instr.request (modelName this) options)
         /\ p_temperature (Native.request (modelName this) other)
            = p_temperature (Native.request (modelName this) options)).
Proof.
  intros H.
  split; [|split; [|split]].
  - destruct (instr_run_calls_bounds this options retries w)
      as (k & U & L & E).
    exists k. split; [exact U|]. split; [exact L|]. split; [exact E|].
    simpl. apply or_number_zero, H.
  - destruct (native_run_calls_bounds this options retries w)
      as (k & U & L & E).
    exists k. split; [exact U|]. split; [exact L|]. split; [exact E|].
    simpl. apply or_number_zero, H.
  - reflexivity.
  - intros other H0 Hn. split; [|split].
    + intros E. apply (f_equal key_temperature) in E. simpl in E. congruence.
    + simpl. rewrite H0, Hn. reflexivity.
    + simpl. rewrite H0, Hn. reflexivity.
Qed.

(** The theorem on a request with temperature zero, through a cache that
    holds no entry and with [retries = 0]: the one vendor call of either
    variant carries 0.7. *)
Lemma zero_temperature_is_replaced_witness :
  let this := Sample.cached (Sample.always (inr (Sample.reply (Some "hi") None))) in
  let options := Sample.ask "req-1" (Some 0%float) None in
  zero_or_absent (temperature options)
  /\ map p_temperature
         (calls (snd (Instr.createChatCompletion this 0 options Cases.empty_slot)))
     = [default_temperature]
  /\ map p_temperature
         (calls (snd (Native.createChatCompletion this 0 options Cases.empty_slot)))
     = [default_temperature].
Proof.
  intros this options.
  assert (zero_or_absent (temperature options)) as H
      by (right; exists 0%float; split; reflexivity).
  assert (missed this options (store Cases.empty_slot) <> None) as M
      by (vm_compute; discriminate).
  split; [exact H|].
  destruct (zero_temperature_is_replaced this 0 options Cases.empty_slot H)
    as ((k & U & L & E & T) & (k' & U' & L' & E' & T') & _).
  split.
  - rewrite E. specialize (L M).
    destruct k as [|[|k]].
    + inversion L.
    + cbn [calls Cases.empty_slot app repeat map]. rewrite T. reflexivity.
    + apply le_S_n in U. inversion U.
  - rewrite E'. specialize (L' M).
    destruct k' as [|[|k']].
    + inversion L'.
    + cbn [calls Cases.empty_slot app repeat map]. rewrite T'. reflexivity.
    + apply le_S_n in U'. inversion U'.
Defined.

Example zero_temperature_sent_as_default :
  map p_temperature
      (calls (snd (Native.createChatCompletion
                     (Sample.plain (Sample.always (inr (Sample.reply (Some "hi") None))))
                     2 (Sample.ask "req-1" (Some 0%float) None) Sample.start)))
  = [default_temperature].
Proof. vm_compute. reflexivity. Qed.

(* ================================================================== *)
(** ** Retry exhaustion *)
(* ================================================================== *)

Lemma disabled_always_misses {Store : Type} (this : OpenRouterClient Store)
      (options : ChatCompletionOptions) :
  enableCaching this = false -> always_misses this options.
Proof. intros H w. exists w. apply lookup_disabled, H. Qed.

Section Exhaustion.

Context {Store : Type}.
Variable this : OpenRouterClient Store.
Variable options : ChatCompletionOptions.
Variable rm : ResponseModel.
Hypothesis structured : response_model options = Some rm.

(** A reply that fails at the parse stage makes the attempt bad, with the
    error the attempt throws when [retries] is 0. *)
Lemma instr_parse_verdict n apiResponse :
  client this n (Instr.request (modelName this) options) = inr apiResponse ->
  instr_fails_at_parse (modelName this) apiResponse ->
  exists span,
    instr_verdict this options n
    = Bad (JS.CreateChatCompletionResponseError
             ("Failed to parse OpenRouter response as JSON: "
                ++ JS.message (JSON.syntax_error span))%string).
Proof.
  intros Hv (text & span & He & Hd). exists span.
  unfold instr_verdict. rewrite Hv, structured, He, Hd. reflexivity.
Qed.

Lemma native_parse_verdict n apiResponse :
  client this n (Native.request (modelName this) options) = inr apiResponse ->
  native_fails_at_parse (modelName this) apiResponse ->
  exists text, native_verdict this options n = Bad (JSON.syntax_error text).
Proof.
  intros Hv Hp. unfold native_fails_at_parse in Hp.
  eexists. unfold native_verdict. rewrite Hv, structured. cbv zeta.
  rewrite Hp. reflexivity.
Qed.

Section OfInstr.

Let rq := Instr.request (modelName this) options.

Hypothesis unparseable :
  forall n, exists apiResponse,
      client this n rq = inr apiResponse
      /\ instr_fails_at_parse (modelName this) apiResponse.

Lemma instr_unparseable_verdict n :
  exists span,
    instr_verdict this options n
    = Bad (JS.CreateChatCompletionResponseError
             ("Failed to parse OpenRouter response as JSON: "
                ++ JS.message (JSON.syntax_error span))%string).
Proof.
  destruct (unparseable n) as (api & Hv & Hp).
  exact (instr_parse_verdict n api Hv Hp).
Qed.

Lemma instr_exhaustion n :
  forall w,
    keeps_missing this options n (store w) ->
    exists span w',
      Instr.createChatCompletion this n options w
      = (Rejected (instr_parse_failure span), w')
      /\ calls w' = calls w ++ repeat rq (S n).
Proof.
  intros w Hk.
  destruct (instr_unparseable_verdict (List.length (calls w) + n))
    as (span & Hlast).
  pose proof (attempts_exhaust (instr_verdict this options) n
                (List.length (calls w)) _
                (fun i _ =>
                   let (sp, E) := instr_unparseable_verdict
                                    (List.length (calls w) + i) in
                   ex_intro _ _ E)
                Hlast) as Ea.
  destruct (instr_run_loop this options n n w) as [F C].
  - rewrite Ea. intros (value & [=]).
  - exact Hk.
  - rewrite Ea. cbn [snd]. lia.
  - rewrite Ea in F, C. cbn [fst snd] in F, C.
    exists span, (snd (Instr.createChatCompletion this n options w)).
    split; [|exact C].
    rewrite (surjective_pairing (Instr.createChatCompletion this n options w)).
    cbn [snd]. rewrite F. reflexivity.
Qed.

Lemma instr_retry_step n w :
  missed this options (store w) <> None ->
  exists w1,
    calls w1 = calls w ++ [rq]
    /\ Instr.createChatCompletion this (S n) options w
       = Instr.createChatCompletion this n options w1.
Proof.
  intros Hm.
  destruct (missed this options (store w)) as [s'|] eqn:E; [|contradiction].
  destruct (instr_unparseable_verdict (List.length (calls w))) as (span & Hv).
  destruct (instr_body_bad this options
              (Some (Instr.createChatCompletion this n options)) (S n) w s' _
              E Hv) as (w1 & C & _ & R).
  exists w1. split; [exact C|exact R].
Qed.

End OfInstr.

Section OfNative.

Let rq := Native.request (modelName this) options.

Hypothesis unparseable :
  forall n, exists apiResponse,
      client this n rq = inr apiResponse
      /\ native_fails_at_parse (modelName this) apiResponse.

Lemma native_unparseable_verdict n :
  exists text, native_verdict this options n = Bad (JSON.syntax_error text).
Proof.
  destruct (unparseable n) as (api & Hv & Hp).
  exact (native_parse_verdict n api Hv Hp).
Qed.

Lemma native_exhaustion n :
  forall w,
    keeps_missing this options n (store w) ->
    exists text w',
      Native.createChatCompletion this n options w
      = (Rejected (native_parse_failure text), w')
      /\ calls w' = calls w ++ repeat rq (S n).
Proof.
  intros w Hk.
  destruct (native_unparseable_verdict (List.length (calls w) + n))
    as (text & Hlast).
  pose proof (attempts_exhaust (native_verdict this options) n
                (List.length (calls w)) _
                (fun i _ =>
                   let (tx, E) := native_unparseable_verdict
                                    (List.length (calls w) + i) in
                   ex_intro _ _ E)
                Hlast) as Ea.
  destruct (native_run_loop this options n n w) as [F C].
  - rewrite Ea. intros (value & [=]).
  - exact Hk.
  - rewrite Ea. cbn [snd]. lia.
  - rewrite Ea in F, C. cbn [fst snd] in F, C.
    exists text, (snd (Native.createChatCompletion this n options w)).
    split; [|exact C].
    rewrite (surjective_pairing (Native.createChatCompletion this n options w)).
    cbn [snd]. rewrite F. reflexivity.
Qed.

Lemma native_retry_step n w :
  missed this options (store w) <> None ->
  exists w1,
    calls w1 = calls w ++ [rq]
    /\ Native.createChatCompletion this (S n) options w
       = Native.createChatCompletion this n options w1.
Proof.
  intros Hm.
  destruct (missed this options (store w)) as [s'|] eqn:E; [|contradiction].
  destruct (native_unparseable_verdict (List.length (calls w))) as (text & Hv).
  destruct (native_body_bad this options
              (Some (Native.createChatCompletion this n options)) (S n) w s' _
              E Hv) as (w1 & C & _ & R).
  exists w1. split; [exact C|exact R].
Qed.

End OfNative.

End Exhaustion.

Lemma keeps_missing_first {Store : Type} (this : OpenRouterClient Store)
      (options : ChatCompletionOptions) (n : nat) (s : Store) :
  keeps_missing this options n s -> missed this options s <> None.
Proof.
  destruct n; cbn [keeps_missing];
    destruct (missed this options s); try contradiction; discriminate.
Qed.

(** C1.  When the request has a response model, every reply of the vendor
    fails at the parse stage and the three cache lookups miss (the first
    on the store the call finds, each later one on the store the one
    before left; so also with caching on, over a cache that holds no
    entry for the request), a call with [retries = 2] issues exactly three
    vendor calls, all with the same argument, and rejects with a
    [CreateChatCompletionResponseError] that reports the parse failure;
    and every call with [retries = n + 1] is, after its one vendor call,
    the call with [retries = n] on the same options.  This holds for both
    variants. *)
Theorem retry_exhaustion {Store : Type} (this : OpenRouterClient Store)
        (options : ChatCompletionOptions) (rm : ResponseModel) :
  response_model options = Some rm ->
  ((forall n, exists apiResponse,
        client this n (Instr.request (modelName this) options) = inr apiResponse
        /\ instr_fails_at_parse (modelName this) apiResponse) ->
   forall w,
     keeps_missing this options 2 (store w) ->
     let rq := Instr.request (modelName this) options in
     (exists span w',
         Instr.createChatCompletion this 2 options w
         = (Rejected (instr_parse_failure span), w')
         /\ calls w' = calls w ++ [rq; rq; rq])
     /\ (forall n, exists w1,
            calls w1 = calls w ++ [rq]
            /\ Instr.createChatCompletion this (S n) options w
               = Instr.createChatCompletion this n options w1))
  /\ ((forall n, exists apiResponse,
          client this n (Native.request (modelName this) options) = inr apiResponse
          /\ native_fails_at_parse (modelName this) apiResponse) ->
      forall w,
        keeps_missing this options 2 (store w) ->
        let rq := Native.request (modelName this) options in
        (exists text w',
            Native.createChatCompletion this 2 options w
            = (Rejected (native_parse_failure text), w')
            /\ calls w' = calls w ++ [rq; rq; rq])
        /\ (forall n, exists w1,
               calls w1 = calls w ++ [rq]
               /\ Native.createChatCompletion this (S n) options w
                  = Native.createChatCompletion this n options w1)).
Proof.
  intros Hs. split; intros Hu w Hk rq; split.
  - exact (instr_exhaustion this options rm Hs Hu 2 w Hk).
  - intros n. exact (instr_retry_step this options rm Hs Hu n w
                       (keeps_missing_first this options 2 _ Hk)).
  - exact (native_exhaustion this options rm Hs Hu 2 w Hk).
  - intros n. exact (native_retry_step this options rm Hs Hu n w
                       (keeps_missing_first this options 2 _ Hk)).
Qed.

Lemma retry_exhaustion_witness :
  let this := Sample.cached (Sample.always (inr (Sample.reply (Some "{not json}") None))) in
  let options := Sample.ask "req-1" None (Some Sample.result_model) in
  let rq := Instr.request (modelName this) options in
  exists span w',
    Instr.createChatCompletion this 2 options Cases.empty_slot
    = (Rejected (instr_parse_failure span), w')
    /\ calls w' = calls Cases.empty_slot ++ [rq; rq; rq].
Proof.
  intros this options rq.
  refine (proj1 (proj1 (retry_exhaustion this options Sample.result_model
                          eq_refl) _ Cases.empty_slot _)).
  - intros n. exists (Sample.reply (Some "{not json}") None).
    split; [reflexivity|].
    exists "{not json}"%string, "{not json}"%string.
    split; vm_compute; reflexivity.
  - exact I.
Defined.

Example retry_exhaustion_runs :
  let v := Sample.always (inr (Sample.reply (Some "{not json}") None)) in
  let options := Sample.ask "req-1" None (Some Sample.result_model) in
  (fst (Instr.createChatCompletion (Sample.plain v) 2 options Sample.start),
   List.length (calls (snd (Instr.createChatCompletion (Sample.plain v) 2 options Sample.start))))
  = (Rejected (instr_parse_failure "{not json}"), 3)
  /\ (fst (Native.createChatCompletion (Sample.cached v) 2 options Cases.empty_slot),
      List.length (calls (snd (Native.createChatCompletion (Sample.cached v) 2 options Cases.empty_slot))))
     = (Rejected (native_parse_failure "{not json}"), 3).
Proof. split; vm_compute; reflexivity. Qed.

(** The lines a run of the native variant logs when both retries are spent
    on replies that do not parse. *)
Example retry_exhaustion_log :
  let v := Sample.always (inr (Sample.reply (Some "{not json}") None)) in
  let options := Sample.ask "req-1" None (Some Sample.result_model) in
  map log_message
      (logs (snd (Native.createChatCompletion (Sample.plain v) 1 options
                                              Sample.start)))
  = ["creating chat completion";
     "OpenRouter chat completion finished";
     "OpenRouter request failed: Unexpected token in JSON: {not json}";
     "retrying OpenRouter request, 1 attempts remaining";
     "creating chat completion";
     "OpenRouter chat completion finished";
     "OpenRouter request failed: Unexpected token in JSON: {not json}"]%string.
Proof. vm_compute. reflexivity. Qed.

(* ================================================================== *)
(** ** Errors of the cache backend *)
(* ================================================================== *)

(** Rewrite a [save] that is known not to throw. *)
Ltac save_step :=
  match goal with
  | H : save_succeeds ?t ?o |- context [save ?t ?k ?v ?o ?w] =>
      let w' := fresh "w" in
      let E := fresh "E" in
      let C := fresh "C" in
      destruct (H k v w) as (w' & E & C); rewrite E
  end.

(** Two attempts that start after the same vendor calls, on clients with
    the same model and vendor whose cache writes do not throw, end alike. *)
Ltac attempt_sim_script same_model same_client HR HC :=
  rewrite same_model, same_client, HC;
  match goal with
  | |- same_completed (match _ with _ => _ end) (match _ with _ => _ end) =>
      idtac
  end;
  repeat first [save_step | break_match];
  unfold same_completed, same_result; cbn [fst snd calls logger] in *;
  try (split; [reflexivity|congruence]);
  try (apply HR; cbn [calls logger]; congruence).

Section Simulation.

Context {Store : Type}.
Variables this1 this0 : OpenRouterClient Store.
Variable options : ChatCompletionOptions.
Hypothesis same_model : modelName this1 = modelName this0.
Hypothesis same_client : client this1 = client this0.
Hypothesis save1 : save_succeeds this1 options.
Hypothesis save0 : save_succeeds this0 options.

Lemma instr_attempt_sim retry1 retry0 key w1 w0 :
  same_retry retry1 retry0 ->
  calls w1 = calls w0 ->
  same_completed (Instr.attempt this1 retry1 options key w1)
                 (Instr.attempt this0 retry0 options key w0).
Proof.
  intros HR HC. unfold Instr.attempt, create.
  destruct retry1 as [again1|], retry0 as [again0|];
    simpl in HR; try contradiction;
    attempt_sim_script same_model same_client HR HC.
Qed.

Lemma native_attempt_sim retry1 retry0 key w1 w0 :
  same_retry retry1 retry0 ->
  calls w1 = calls w0 ->
  same_completed (Native.attempt this1 retry1 options key w1)
                 (Native.attempt this0 retry0 options key w0).
Proof.
  intros HR HC. unfold Native.attempt, create.
  destruct retry1 as [again1|], retry0 as [again0|];
    simpl in HR; try contradiction;
    attempt_sim_script same_model same_client HR HC.
Qed.

End Simulation.

(** From related attempts to related bodies: after the attempt, only the
    [catch] clause is left. *)
Ltac body_degrades_script A HR :=
  match goal with
  | |- same_result (match ?a1 with _ => _ end) (match ?a0 with _ => _ end) =>
      destruct a1 as [r1|e1 v1], a0 as [r0|e0 v0];
      simpl in A; try contradiction; [exact A|];
      let C := fresh "C" in
      destruct A as [-> C];
      match goal with
      | |- context [match ?retry1 with Some _ => _ | None => _ end] =>
          match goal with
          | |- same_result _ (match ?retry0 with Some _ => _ | None => _ end) =>
              destruct retry1 as [again1|], retry0 as [again0|];
              simpl in HR; try contradiction;
              [ apply HR; simpl; exact C
              | split; [reflexivity|exact C] ]
          end
      end
  end.

Section Degrade.

Context {B : Type}.
Variable fingerprint : CacheOptions -> string.
Variable backend : Backend B.
Variable this : OpenRouterClient B.
Variable options : ChatCompletionOptions.
Hypothesis enabled : enableCaching this = true.
Hypothesis wired : cache this = Some (ResponseCache fingerprint backend).
Hypothesis unavailable :
  holds_no_entry backend (fingerprint (cacheOptions (modelName this) options)).

Lemma spec_cache_save : save_succeeds this options.
Proof.
  intros key value w. unfold save. rewrite enabled, wired. simpl.
  destruct (backend_set _ _ _ _) as [r s]. eexists. split; reflexivity.
Qed.

Lemma no_cache_save : save_succeeds (without_cache this) options.
Proof. intros key value w. exists w. split; reflexivity. Qed.

Lemma spec_cache_lookup w :
  exists w', lookup this (cacheOptions (modelName this) options) options w
             = Miss w' /\ calls w' = calls w.
Proof.
  unfold lookup. rewrite enabled, wired. simpl.
  pose proof (unavailable (store w)) as H.
  destruct (backend_get _ _ _) as [[e|[entry|]] s']; simpl in H.
  - eexists. split; reflexivity.
  - exfalso. apply (H entry). reflexivity.
  - eexists. split; reflexivity.
Qed.

Lemma instr_body_degrades retry1 retry0 retries w1 w0 :
  same_retry retry1 retry0 ->
  calls w1 = calls w0 ->
  same_result
    (Instr.createChatCompletion_body this retry1 retries options w1)
    (Instr.createChatCompletion_body (without_cache this) retry0 retries
                                     options w0).
Proof.
  intros HR HC.
  unfold Instr.createChatCompletion_body.
  destruct (spec_cache_lookup
              (logger (openrouter "creating chat completion" 2) w1))
    as (w1' & L & C).
  rewrite L. rewrite lookup_disabled by reflexivity.
  match goal with
  | |- same_result (match Instr.attempt _ _ _ ?k ?a with _ => _ end)
                   (match Instr.attempt _ _ _ _ ?b with _ => _ end) =>
      pose proof (instr_attempt_sim this (without_cache this) options
                    eq_refl eq_refl spec_cache_save no_cache_save
                    retry1 retry0 k a b HR) as A
  end.
  lapply A; [clear A; intros A|].
  2:{ destruct (response_model options); simpl; rewrite C; simpl; exact HC. }
  simpl modelName in *.
  body_degrades_script A HR.
Qed.

Lemma native_body_degrades retry1 retry0 retries w1 w0 :
  same_retry retry1 retry0 ->
  calls w1 = calls w0 ->
  same_result
    (Native.createChatCompletion_body this retry1 retries options w1)
    (Native.createChatCompletion_body (without_cache this) retry0 retries
                                      options w0).
Proof.
  intros HR HC.
  unfold Native.createChatCompletion_body.
  destruct (spec_cache_lookup
              (logger (openrouter "creating chat completion" 2) w1))
    as (w1' & L & C).
  rewrite L. rewrite lookup_disabled by reflexivity.
  match goal with
  | |- same_result (match Native.attempt _ _ _ ?k ?a with _ => _ end)
                   (match Native.attempt _ _ _ _ ?b with _ => _ end) =>
      pose proof (native_attempt_sim this (without_cache this) options
                    eq_refl eq_refl spec_cache_save no_cache_save
                    retry1 retry0 k a b HR) as A
  end.
  lapply A; [clear A; intros A|].
  2:{ repeat break_match; simpl; rewrite C; simpl; exact HC. }
  simpl modelName in *.
  body_degrades_script A HR.
Qed.

Lemma instr_degrades retries :
  forall w1 w0, calls w1 = calls w0 ->
    same_result (Instr.createChatCompletion this retries options w1)
                (Instr.createChatCompletion (without_cache this) retries
                                            options w0).
Proof.
  induction retries as [|n IH]; intros w1 w0 HC; simpl.
  - apply instr_body_degrades; [exact I|exact HC].
  - apply instr_body_degrades; [exact IH|exact HC].
Qed.

Lemma native_degrades retries :
  forall w1 w0, calls w1 = calls w0 ->
    same_result (Native.createChatCompletion this retries options w1)
                (Native.createChatCompletion (without_cache this) retries
                                             options w0).
Proof.
  induction retries as [|n IH]; intros w1 w0 HC; simpl.
  - apply native_body_degrades; [exact I|exact HC].
  - apply native_body_degrades; [exact IH|exact HC].
Qed.

End Degrade.



Example broken_backend_run :
  let this := Sample.over_broken_backend
                (Sample.always (inr (Sample.reply (Some (dq "{'a':1}")) None))) in
  let options := Sample.ask "req-1" None (Some Sample.result_model) in
  (fst (Native.createChatCompletion this 2 options Sample.start),
   List.length (calls (snd (Native.createChatCompletion this 2 options Sample.start))))
  = (Resolved (Extracted Sample.a_is_1 Sample.no_usage), 1).
Proof. vm_compute. reflexivity. Qed.

(** The method itself has no handler around the cache: were the cache
    object to throw on [get], the rejection would be the caller's, before
    any vendor call; the swallowing is the cache's own. *)
Lemma cache_get_throw_propagates {Store : Type}
      (this : OpenRouterClient Store) (retries : nat)
      (options : ChatCompletionOptions) (w : World Store)
      (c : LLMCache Store) (error : JS.Exn) (s : Store) :
  enableCaching this = true ->
  cache this = Some c ->
  cache_get c (cacheOptions (modelName this) options) (requestId options)
            (store w) = (inl error, s) ->
  fst (Native.createChatCompletion this retries options w) = Rejected error
  /\ calls (snd (Native.createChatCompletion this retries options w)) = calls w
  /\ fst (Instr.createChatCompletion this retries options w) = Rejected error
  /\ calls (snd (Instr.createChatCompletion this retries options w)) = calls w.
Proof.
  intros He Hc Hg.
  assert (lookup this (cacheOptions (modelName this) options) options
                 (logger creating_line w)
          = LookupThrew error (with_store s (logger creating_line w))) as L.
  { unfold lookup. rewrite He, Hc. simpl. rewrite Hg. reflexivity. }
  destruct retries; simpl;
    unfold Native.createChatCompletion_body, Instr.createChatCompletion_body;
    fold creating_line; rewrite L; repeat split.
Qed.

(* ================================================================== *)
(** ** Decoding the reply: content, tool call, markdown fallback *)
(* ================================================================== *)

(** The claim of C4 fails on a text with two objects: the match of the
    regular expression runs from the first opening brace to the last
    closing brace, spans both objects and does not parse, where the first
    balanced span is the first object and parses; the call rejects. *)
Lemma decode_is_not_first_balanced_span :
  JSON.parse two_objects = None
  /\ Text.match_json_object (Text.strip_code_fences two_objects)
     = Some two_objects
  /\ Spec.first_balanced_span (Text.strip_code_fences two_objects)
     = Some (dq "{'a':1}")
  /\ Spec.decode two_objects = Instr.Parsed Sample.a_is_1
  /\ Instr.decode two_objects = Instr.SecondParseError two_objects
  /\ Instr.decode two_objects <> Spec.decode two_objects
  /\ fst (Instr.createChatCompletion
            (Sample.plain (Sample.always (inr (Sample.reply (Some two_objects) None))))
            0 (Sample.ask "req-1" None (Some Sample.result_model)) Sample.start)
     = Rejected (instr_parse_failure two_objects).
Proof.
  repeat split; try (vm_compute; reflexivity).
  vm_compute. discriminate.
Qed.

(** C4, amended.  A text that does not parse as it is is stripped of its
    code-fence markers and searched for the span that runs from its
    first opening brace to its last closing brace; that span is what is
    parsed.  The stripping leaves no fence in the text, leaves a text
    without backticks as it is, and takes a fence out with its tag and
    the line feed behind it; it works on what is in front of a brace and
    on what is behind it apart, so the span is the text between the first
    opening brace and the last closing brace of the reply, stripped.  The
    fenced reply of the specification decodes to the object it holds.
    When no closing brace follows an opening brace there is no span, and
    the call, with [retries = 0] and after a lookup that misses, rejects
    with the error that no JSON was found. *)
Theorem decode_takes_first_open_to_last_close (text : string) :
  JSON.parse text = None ->
  (Str.includes Text.fence (Text.strip_code_fences text) = false
   /\ (Text.occurs Text.backtick text = false ->
       Text.strip_code_fences text = text)
   /\ (forall a b,
          Text.occurs Text.backtick a = false ->
          Text.strip_code_fences (a ++ Text.fence_json ++ b)
          = (a ++ Text.strip_code_fences (chomp b))%string)
   /\ (forall a b,
          Text.occurs Text.backtick a = false ->
          plain_start b = true ->
          Text.strip_code_fences (a ++ Text.fence ++ b)
          = (a ++ Text.strip_code_fences (chomp b))%string))
  /\ (forall pre inner post,
         text = (pre ++ "{" ++ inner ++ "}" ++ post)%string ->
         Text.occurs "{" pre = false ->
         Text.occurs "}" post = false ->
         Text.strip_code_fences text
         = (Text.strip_code_fences pre ++ "{" ++ Text.strip_code_fences inner
              ++ "}" ++ Text.strip_code_fences post)%string
         /\ Text.match_json_object (Text.strip_code_fences text)
            = Some ("{" ++ Text.strip_code_fences inner ++ "}")%string
         /\ Instr.decode text
            = match JSON.parse ("{" ++ Text.strip_code_fences inner ++ "}") with
              | Some parsedData => Instr.Parsed parsedData
              | None =>
                  Instr.SecondParseError
                    ("{" ++ Text.strip_code_fences inner ++ "}")
              end)
  /\ (forall span,
      Text.match_json_object (Text.strip_code_fences text) = Some span ->
      (exists pre inner post,
          Text.strip_code_fences text = (pre ++ span ++ post)%string
          /\ span = ("{" ++ inner ++ "}")%string
          /\ Text.occurs "{" pre = false
          /\ Text.occurs "}" post = false)
      /\ Instr.decode text
         = match JSON.parse span with
           | Some parsedData => Instr.Parsed parsedData
           | None => Instr.SecondParseError span
           end)
  /\ ((Text.match_json_object (Text.strip_code_fences text) = None
       <-> forall pre inner post,
             text <> (pre ++ "{" ++ inner ++ "}" ++ post)%string)
      /\ (Text.match_json_object (Text.strip_code_fences text) = None ->
      (forall pre inner post,
          Text.strip_code_fences text
          <> (pre ++ "{" ++ inner ++ "}" ++ post)%string)
      /\ Instr.decode text = Instr.NoMatch
      /\ forall (Store : Type) (this : OpenRouterClient Store)
                (options : ChatCompletionOptions) (rm : ResponseModel)
                (w : World Store) (apiResponse : ApiResponse),
          response_model options = Some rm ->
          missed this options (store w) <> None ->
          client this (List.length (calls w))
                 (Instr.request (modelName this) options) = inr apiResponse ->
          Instr.extractedData (formatResponse (modelName this) apiResponse)
          = Some text ->
          fst (Instr.createChatCompletion this 0 options w)
          = request_failed
              (JS.CreateChatCompletionResponseError
                 ("No JSON found in OpenRouter response: "
                    ++ JS.message (JSON.syntax_error text))%string)
          /\ calls (snd (Instr.createChatCompletion this 0 options w))
             = calls w ++ [Instr.request (modelName this) options]))
  /\ Instr.decode fenced_reply = Instr.Parsed Sample.a_is_1.
Proof.
  intros Hp. split; [|split; [|split; [|split]]].
  - split; [apply StripFacts.strip_leaves_no_fence|].
    split; [apply StripFacts.strip_plain|].
    split; [exact StripFacts.strip_tagged|exact StripFacts.strip_bare].
  - intros pre inner post -> Ho Hc. split; [|split].
    + apply StripFacts.strip_between.
    + rewrite StripFacts.strip_between.
      apply StripFacts.match_between; apply StripFacts.occurs_strip; assumption.
    + apply StripFacts.decode_between; assumption.
  - intros span Hm. split.
    + exact (TextFacts.match_json_object_some _ _ Hm).
    + unfold Instr.decode. rewrite Hp, Hm. reflexivity.
  - split; [apply StripFacts.match_strip_none|].
    intros Hm. split; [|split].
    + apply TextFacts.match_json_object_none. exact Hm.
    + unfold Instr.decode. rewrite Hp, Hm. reflexivity.
    + intros Store this options rm w apiResponse Hs Hmiss Hv He.
      apply instr_last_bad; [exact Hmiss|].
      apply (instr_extraction_verdict this options rm Hs _ apiResponse Hv).
      unfold instr_extraction_error, Instr.decode.
      rewrite He, Hp, Hm. reflexivity.
  - vm_compute. reflexivity.
Qed.

(** The theorem on a reply whose object holds a fence marker in a string
    value: the marker is stripped from the span before it is parsed. *)
Lemma decode_takes_first_open_to_last_close_witness :
  JSON.parse fence_in_value = None
  /\ Text.strip_code_fences fence_in_value = ("Result: " ++ dq "{'a':''}")%string
  /\ Text.match_json_object (Text.strip_code_fences fence_in_value)
     = Some (dq "{'a':''}")
  /\ Instr.decode fence_in_value = Instr.Parsed a_is_empty.
Proof.
  assert (JSON.parse fence_in_value = None) as Hp by (vm_compute; reflexivity).
  split; [exact Hp|].
  destruct (proj1 (proj2 (decode_takes_first_open_to_last_close
                            fence_in_value Hp))
              "Result: " (dq "'a':'```'") EmptyString)
    as (Hs & Hm & Hd); [reflexivity..|].
  split; [exact Hs|]. split; [exact Hm|exact Hd].
Defined.

Example fenced_reply_run :
  fst (Instr.createChatCompletion
         (Sample.plain (Sample.always (inr (Sample.reply (Some fenced_reply) None))))
         0 (Sample.ask "req-1" None (Some Sample.result_model)) Sample.start)
  = Resolved (Extracted Sample.a_is_1 Sample.no_usage).
Proof. vm_compute. reflexivity. Qed.

Example no_span_run :
  fst (Instr.createChatCompletion
         (Sample.plain (Sample.always (inr (Sample.reply (Some "no object here") None))))
         0 (Sample.ask "req-1" None (Some Sample.result_model)) Sample.start)
  = request_failed
      (JS.CreateChatCompletionResponseError
         ("No JSON found in OpenRouter response: "
            ++ JS.message (JSON.syntax_error "no object here"))%string).
Proof. vm_compute. reflexivity. Qed.

(** C5.  After a lookup that misses, the attempt decodes the content of
    the message when there is one (null and the empty string count as
    none), whatever the tool calls are, and otherwise the arguments of the
    first tool call: when that text decodes to data the schema accepts and
    the cache write does not throw, the call resolves with that data and
    the usage of the reply after one vendor call; when it does not decode,
    the attempt fails with the error of that text.  A text that parses is
    decoded by the first [JSON.parse] alone, without the markdown fallback,
    as for the tool call whose arguments are the text of the object.  When
    there is neither content nor tool call the call does not resolve.  A
    failed attempt with [retries = 0] rejects with the error of the
    attempt, wrapped as a failed request; with [retries > 0] the call is,
    after the vendor call, the call with one retry less. *)
Theorem extractedData_prefers_content :
  (forall response text,
      msg_content (choice_message response) = Some text ->
      JS.truthy_string text = true ->
      Instr.extractedData response = Some text)
  /\ (forall response toolCall others,
         JS.or_null (msg_content (choice_message response)) = None ->
         msg_tool_calls (choice_message response) = toolCall :: others ->
         Instr.extractedData response = Some (call_arguments toolCall))
  /\ (forall text data,
         JSON.parse text = Some data -> Instr.decode text = Instr.Parsed data)
  /\ (let this := Sample.plain
                    (Sample.always
                       (inr (Sample.reply None (Some [tool_call_a_is_1])))) in
      let options := Sample.ask "req-1" None (Some Sample.result_model) in
      JSON.parse (call_arguments tool_call_a_is_1) = Some Sample.a_is_1
      /\ fst (Instr.createChatCompletion this 0 options Sample.start)
         = Resolved (Extracted Sample.a_is_1 Sample.no_usage))
  /\ (forall (Store : Type) (this : OpenRouterClient Store)
             (options : ChatCompletionOptions) (rm : ResponseModel)
             (w : World Store) (apiResponse : ApiResponse),
         let response := formatResponse (modelName this) apiResponse in
         let rq := Instr.request (modelName this) options in
         let decoded (text : string) : Prop :=
           (forall data,
               Instr.decode text = Instr.Parsed data ->
               safeParse (schema rm) data = None ->
               save_succeeds this options ->
               forall retries,
                 fst (Instr.createChatCompletion this retries options w)
                 = Resolved (Extracted data (usage response))
                 /\ calls (snd (Instr.createChatCompletion this retries options w))
                    = calls w ++ [rq])
           /\ (forall error,
                  decode_error text = Some error ->
                  (fst (Instr.createChatCompletion this 0 options w)
                   = request_failed error
                   /\ calls (snd (Instr.createChatCompletion this 0 options w))
                      = calls w ++ [rq])
                  /\ forall n, exists w1,
                      calls w1 = calls w ++ [rq]
                      /\ Instr.createChatCompletion this (S n) options w
                         = Instr.createChatCompletion this n options w1) in
         response_model options = Some rm ->
         missed this options (store w) <> None ->
         client this (List.length (calls w)) rq = inr apiResponse ->
         (forall text,
             msg_content (choice_message response) = Some text ->
             JS.truthy_string text = true ->
             decoded text)
         /\ (forall toolCall others,
                JS.or_null (msg_content (choice_message response)) = None ->
                msg_tool_calls (choice_message response) = toolCall :: others ->
                decoded (call_arguments toolCall))
         /\ (JS.or_null (msg_content (choice_message response)) = None ->
             msg_tool_calls (choice_message response) = [] ->
             Instr.extractedData response = None
             /\ fst (Instr.createChatCompletion this 0 options w)
                = request_failed
                    (JS.CreateChatCompletionResponseError
                       "No content or tool calls found in OpenRouter response for response_model")
             /\ calls (snd (Instr.createChatCompletion this 0 options w))
                = calls w ++ [rq]
             /\ forall n, exists w1,
                 calls w1 = calls w ++ [rq]
                 /\ Instr.createChatCompletion this (S n) options w
                    = Instr.createChatCompletion this n options w1)).
Proof.
  split; [|split; [|split; [|split]]].
  - exact extractedData_content.
  - exact extractedData_tool_call.
  - exact decode_direct.
  - split; vm_compute; reflexivity.
  - intros Store this options rm w apiResponse response rq decoded Hs Hm Hv.
    split; [|split].
    + intros text Hc Ht.
      apply (instr_decodes_extracted this options rm Hs w Hm apiResponse Hv).
      apply extractedData_content; assumption.
    + intros toolCall others Hc Ht.
      apply (instr_decodes_extracted this options rm Hs w Hm apiResponse Hv).
      apply (extractedData_tool_call _ toolCall others); assumption.
    + intros Hc Ht.
      pose proof (extractedData_nothing response Hc Ht) as He.
      destruct (instr_nothing_to_decode this options rm Hs w Hm apiResponse
                  Hv He) as ((F & C) & R).
      split; [exact He|]. split; [exact F|]. split; [exact C|exact R].
Qed.

(** The theorem on a reply that holds a content and a tool call with
    different objects, through a cache that holds no entry: the call
    resolves with the object of the content after one vendor call. *)
Lemma extractedData_prefers_content_witness :
  let this := Sample.cached (Sample.always (inr content_and_tool_call)) in
  let options := Sample.ask "req-1" None (Some Sample.result_model) in
  fst (Instr.createChatCompletion this 2 options Cases.empty_slot)
  = Resolved (Extracted a_is_empty Sample.no_usage)
  /\ calls (snd (Instr.createChatCompletion this 2 options Cases.empty_slot))
     = [Instr.request (modelName this) options].
Proof.
  intros this options.
  assert (missed this options (store Cases.empty_slot) <> None) as Hm
      by (vm_compute; discriminate).
  refine (proj1 (proj1 (proj2 (proj2 (proj2 (proj2 extractedData_prefers_content)))
                          (option Completion) this options Sample.result_model
                          Cases.empty_slot content_and_tool_call
                          eq_refl Hm eq_refl)
                   (dq "{'a':''}") eq_refl eq_refl)
            a_is_empty _ eq_refl _ 2).
  - vm_compute. reflexivity.
  - apply one_slot_save_succeeds.
Defined.

Example content_wins_over_tool_call :
  Instr.extractedData
    (formatResponse "m" (Sample.reply (Some "{}") (Some [tool_call_a_is_1])))
  = Some "{}"%string
  /\ Instr.extractedData
       (formatResponse "m" (Sample.reply (Some EmptyString) (Some [tool_call_a_is_1])))
     = Some (dq "{'a':1}").
Proof. split; vm_compute; reflexivity. Qed.

(** The reply without any choice, with [retries = 0]. *)
Example nothing_to_decode_run :
  let this := Sample.cached (Sample.always (inr Sample.empty_reply)) in
  let options := Sample.ask "req-1" None (Some Sample.result_model) in
  fst (Instr.createChatCompletion this 0 options Cases.empty_slot)
  = request_failed
      (JS.CreateChatCompletionResponseError
         "No content or tool calls found in OpenRouter response for response_model").
Proof. vm_compute. reflexivity. Qed.

(* ================================================================== *)
(** ** How structured output is requested *)
(* ================================================================== *)

(** C7, at the failing input: a vendor that rejects every request that
    carries a response format and answers the others.  The native variant
    sends the same request, response format included and without any
    schema instruction, three times and rejects; it never logs that it
    falls back.  The fallback it announces is taken only when
    [zodResponseFormat] throws: then it logs the line, sends the
    instruction without response format, and this vendor answers.  The
    instruction-based variant never asks for a response format and
    resolves on this vendor. *)
Theorem native_does_not_fall_back_when_vendor_rejects :
  let this := Sample.plain Sample.rejects_response_format in
  let options := Sample.ask "req-1" None (Some Sample.result_model) in
  let rq := Native.request (modelName this) options in
  let run := Native.createChatCompletion this 2 options Sample.start in
  let options' :=
    Sample.ask "req-1" None
               (Some {| name := "Result"; schema := unconvertible |}) in
  let rq' := Native.request (modelName this) options' in
  let run' := Native.createChatCompletion this 2 options' Sample.start in
  fst run
  = request_failed (JS.Error "400 response_format is not supported by this model")
  /\ calls (snd run) = [rq; rq; rq]
  /\ p_response_format rq
     = Some {| format_name := "Result"; format_schema := Sample.object_schema |}
  /\ p_messages rq = [formatMessage Sample.hello]
  /\ existsb (String.eqb fallback_line) (map log_message (logs (snd run)))
     = false
  /\ (fst run' = Resolved (Extracted Sample.a_is_1 Sample.no_usage)
      /\ calls (snd run') = [rq']
      /\ p_response_format rq' = None
      /\ p_messages rq'
         = [formatMessage Sample.hello;
            Native.instruction {| name := "Result"; schema := unconvertible |}]
      /\ existsb (String.eqb fallback_line) (map log_message (logs (snd run')))
         = true)
  /\ p_response_format (Instr.request (modelName this) options) = None
  /\ fst (Instr.createChatCompletion this 2 options Sample.start)
     = Resolved (Extracted Sample.a_is_1 Sample.no_usage).
Proof. repeat split; vm_compute; reflexivity. Qed.

(** How the two variants build the request for a response model: the
    instruction-based variant asks for no response format and appends a
    user message that carries the JSON schema of the model; the native
    variant asks for the response format [zodResponseFormat] builds, then
    without instruction, and appends its own instruction when
    [zodResponseFormat] throws. *)
Lemma structured_output_request {Store : Type}
        (this : OpenRouterClient Store) (options : ChatCompletionOptions)
        (rm : ResponseModel) (retries : nat) (w : World Store) :
  response_model options = Some rm ->
  let instr := Instr.request (modelName this) options in
  let native := Native.request (modelName this) options in
  (p_response_format instr = None
   /\ p_messages instr = formattedMessages options ++ [Instr.instruction rm])
  /\ (forall js,
         strictJsonSchema (schema rm) = inr js ->
         p_response_format native
         = Some {| format_name := name rm; format_schema := js |}
         /\ p_messages native = formattedMessages options)
  /\ (forall error,
         strictJsonSchema (schema rm) = inl error ->
         p_response_format native = None
         /\ p_messages native
            = formattedMessages options ++ [Native.instruction rm])
  /\ (param_role (Instr.instruction rm) = user
      /\ param_role (Native.instruction rm) = user
      /\ param_content (Instr.instruction rm)
         = StringParam (Instr.instruction_head ++ jsonSchema (schema rm)
                          ++ Instr.instruction_tail)%string
      /\ param_content (Native.instruction rm)
         = StringParam (Native.instruction_head ++ jsonSchema (schema rm)
                          ++ Native.instruction_tail)%string)
  /\ (exists k,
         calls (snd (Instr.createChatCompletion this retries options w))
         = calls w ++ repeat instr k)
  /\ (exists k,
         calls (snd (Native.createChatCompletion this retries options w))
         = calls w ++ repeat native k).
Proof.
  intros Hs instr native.
  split; [|split; [|split; [|split; [|split]]]].
  - subst instr. unfold Instr.request, Instr.requestMessages. simpl.
    rewrite Hs. split; reflexivity.
  - intros js Hj. subst native.
    unfold Native.request, Native.requestMessages, Native.responseFormat.
    simpl. rewrite Hs, Hj. split; [reflexivity|apply app_nil_r].
  - intros error Hj. subst native.
    unfold Native.request, Native.requestMessages, Native.responseFormat.
    simpl. rewrite Hs, Hj. split; reflexivity.
  - repeat split.
  - destruct (InstrFacts.instr_run_calls this options retries w)
      as (k & _ & E). exists k. exact E.
  - destruct (NativeFacts.native_run_calls this options retries w)
      as (k & _ & E). exists k. exact E.
Qed.

Example structured_output_request_sample :
  let this := Sample.plain Sample.rejects_response_format in
  let options := Sample.ask "req-1" None (Some Sample.result_model) in
  p_response_format (Instr.request (modelName this) options) = None
  /\ p_messages (Instr.request (modelName this) options)
     = formattedMessages options ++ [Instr.instruction Sample.result_model].
Proof.
  intros this options.
  exact (proj1 (structured_output_request this options Sample.result_model
                  2 Sample.start eq_refl)).
Qed.

(* ================================================================== *)
(** ** The response returned *)
(* ================================================================== *)


Lemma lookup_hit_from_cache {Store : Type} (this : OpenRouterClient Store)
      (options : ChatCompletionOptions) (w w' : World Store)
      (value : Completion) :
  lookup this (cacheOptions (modelName this) options) options w = Hit value w' ->
  from_cache this options value.
Proof.
  unfold lookup, from_cache.
  destruct (enableCaching this); [|discriminate].
  destruct (cache this) as [c|]; [|discriminate].
  destruct (cache_get c _ _ _) as [[e|[v|]] s] eqn:G; try discriminate.
  intros [= <- _]. split; [reflexivity|].
  exists c, (store w). split; [reflexivity|]. rewrite G. reflexivity.
Qed.

Section AllRejected.

Context {Store : Type}.
Variable this : OpenRouterClient Store.
Variable options : ChatCompletionOptions.
Hypothesis rejects : always_rejects (client this).

Lemma native_body_all_rejected retry retries w value w' :
  resolves_from_cache this options retry ->
  Native.createChatCompletion_body this retry retries options w
  = (Resolved value, w') ->
  from_cache this options value.
Proof.
  intros Hr. unfold Native.createChatCompletion_body.
  destruct (lookup _ _ _ _) as [v w1|w1|e w1] eqn:L.
  - intros [= <- _]. exact (lookup_hit_from_cache _ _ _ _ _ L).
  - unfold Native.attempt, create.
    match goal with
    | |- context [client this ?n ?rq] =>
        destruct (rejects n rq) as (error & ->)
    end.
    destruct retry as [again|]; [|discriminate].
    apply (Hr again eq_refl).
  - discriminate.
Qed.

Lemma instr_body_all_rejected retry retries w value w' :
  resolves_from_cache this options retry ->
  Instr.createChatCompletion_body this retry retries options w
  = (Resolved value, w') ->
  from_cache this options value.
Proof.
  intros Hr. unfold Instr.createChatCompletion_body.
  destruct (lookup _ _ _ _) as [v w1|w1|e w1] eqn:L.
  - intros [= <- _]. exact (lookup_hit_from_cache _ _ _ _ _ L).
  - unfold Instr.attempt, create.
    match goal with
    | |- context [client this ?n ?rq] =>
        destruct (rejects n rq) as (error & ->)
    end.
    destruct retry as [again|]; [|discriminate].
    apply (Hr again eq_refl).
  - discriminate.
Qed.

Lemma native_all_rejected retries :
  forall w value w',
    Native.createChatCompletion this retries options w = (Resolved value, w') ->
    from_cache this options value.
Proof.
  induction retries as [|n IH]; intros w value w'; simpl;
    apply native_body_all_rejected; intros again [=].
  subst again. exact IH.
Qed.

Lemma instr_all_rejected retries :
  forall w value w',
    Instr.createChatCompletion this retries options w = (Resolved value, w') ->
    from_cache this options value.
Proof.
  induction retries as [|n IH]; intros w value w'; simpl;
    apply instr_body_all_rejected; intros again [=].
  subst again. exact IH.
Qed.

End AllRejected.

Lemma or_null_none (a : option string) :
  JS.or_null a = None <-> a = None \/ a = Some EmptyString.
Proof.
  unfold JS.or_null. destruct a as [[|c s]|]; simpl.
  - split; auto.
  - split; [discriminate|]. intros [H|H]; discriminate.
  - split; auto.
Qed.



Example offline_vendor_run :
  let this := Sample.plain (Sample.always (inl (JS.Error "offline"))) in
  let options := Sample.ask "req-1" None None in
  (fst (Native.createChatCompletion this 2 options Sample.start),
   List.length (calls (snd (Native.createChatCompletion this 2 options Sample.start))))
  = (request_failed (JS.Error "offline"), 3).
Proof. vm_compute. reflexivity. Qed.

(* ================================================================== *)
(** ** What a run does to the cache store *)
(* ================================================================== *)

(** After the attempt's case analysis: a leaf is a retry, a rejection or a
    resolution; the store of its world is the one the attempt started
    with. *)
Ltac rejected_store_leaf Hretry Hsave :=
  try discriminate;
  match goal with
  | |- ?again ?w1 = (Rejected _, _) -> _ =>
      let H := fresh in
      intros H; apply (Hretry again eq_refl) in H; rewrite H
  | |- (Rejected _, _) = (Rejected _, _) -> _ => intros [= _ <-]
  | _ => idtac
  end;
  cbn [store logger with_store];
  repeat match goal with
    | E : save _ _ _ _ ?w0 = (inl _, ?w') |- context [store ?w'] =>
        rewrite (Hsave _ _ _ _ _ E); cbn [store logger with_store]
    end;
  try assumption; try reflexivity.

Section Stores.
Context {Store : Type}.
Variable this : OpenRouterClient Store.
Variable options : ChatCompletionOptions.
Hypothesis quiet : reads_quietly this.
Hypothesis kept : failed_writes_keep_store this.

Lemma store_lookup key w :
  match lookup this key options w with
  | Hit _ w' | Miss w' | LookupThrew _ w' => store w' = store w
  end.
Proof.
  unfold lookup.
  destruct (enableCaching this); [|reflexivity].
  destruct (cache this) as [c|] eqn:Ec; [|reflexivity].
  pose proof (quiet c Ec key (requestId options) (store w)) as H.
  destruct (cache_get c _ _ _) as [[e|[v|]] s]; simpl in *; exact H.
Qed.

Lemma store_save_failed key value w error w' :
  save this key value options w = (inl error, w') ->
  store w' = store w.
Proof.
  unfold save.
  destruct (enableCaching this); [|discriminate].
  destruct (cache this) as [c|] eqn:Ec; [|intros [= _ <-]; reflexivity].
  destruct (cache_set c _ _ _ _) as [r s] eqn:Es. intros [= -> <-].
  simpl. exact (kept c Ec _ _ _ _ _ _ Es).
Qed.

Lemma instr_body_rejected_store retry retries w error w' :
  rejects_keep_store retry ->
  Instr.createChatCompletion_body this retry retries options w
  = (Rejected error, w') ->
  store w' = store w.
Proof.
  intros Hretry. unfold Instr.createChatCompletion_body.
  pose proof (store_lookup (cacheOptions (modelName this) options)
                (logger (openrouter "creating chat completion" 2) w)) as L.
  destruct (lookup _ _ _ _) as [v w1|w1|e w1]; cbn [store logger] in L.
  - discriminate.
  - unfold Instr.attempt, create.
    repeat break_match; rejected_store_leaf Hretry store_save_failed.
  - intros [= _ <-]. exact L.
Qed.

Lemma native_body_rejected_store retry retries w error w' :
  rejects_keep_store retry ->
  Native.createChatCompletion_body this retry retries options w
  = (Rejected error, w') ->
  store w' = store w.
Proof.
  intros Hretry. unfold Native.createChatCompletion_body.
  pose proof (store_lookup (cacheOptions (modelName this) options)
                (logger (openrouter "creating chat completion" 2) w)) as L.
  destruct (lookup _ _ _ _) as [v w1|w1|e w1]; cbn [store logger] in L.
  - discriminate.
  - unfold Native.attempt, create.
    repeat break_match; rejected_store_leaf Hretry store_save_failed.
  - intros [= _ <-]. exact L.
Qed.

Lemma instr_rejected_store retries :
  forall w error w',
    Instr.createChatCompletion this retries options w = (Rejected error, w') ->
    store w' = store w.
Proof.
  induction retries as [|n IH]; intros w error w'; simpl;
    apply instr_body_rejected_store; intros again [=]. subst again. exact IH.
Qed.

Lemma native_rejected_store retries :
  forall w error w',
    Native.createChatCompletion this retries options w = (Rejected error, w') ->
    store w' = store w.
Proof.
  induction retries as [|n IH]; intros w error w'; simpl;
    apply native_body_rejected_store; intros again [=]. subst again. exact IH.
Qed.

End Stores.

Section Off.
Context {Store : Type}.
Variable this : OpenRouterClient Store.
Variable options : ChatCompletionOptions.
Hypothesis off : enableCaching this = false.

Lemma instr_body_off retry retries w :
  keeps_store retry ->
  store (snd (Instr.createChatCompletion_body this retry retries options w))
  = store w.
Proof.
  intros Hretry. unfold Instr.createChatCompletion_body.
  rewrite lookup_disabled by exact off.
  unfold Instr.attempt, create, save. rewrite off.
  repeat break_match;
    try match goal with
      | H : (_, _) = (_, _) |- _ => injection H as <- <-
      end;
    try rewrite (Hretry _ eq_refl); reflexivity.
Qed.

Lemma native_body_off retry retries w :
  keeps_store retry ->
  store (snd (Native.createChatCompletion_body this retry retries options w))
  = store w.
Proof.
  intros Hretry. unfold Native.createChatCompletion_body.
  rewrite lookup_disabled by exact off.
  unfold Native.attempt, create, save. rewrite off.
  repeat break_match;
    try match goal with
      | H : (_, _) = (_, _) |- _ => injection H as <- <-
      end;
    try rewrite (Hretry _ eq_refl); reflexivity.
Qed.

Lemma instr_off retries :
  forall w, store (snd (Instr.createChatCompletion this retries options w))
            = store w.
Proof.
  induction retries as [|n IH]; intros w; simpl;
    apply instr_body_off; intros again [=]. subst again. exact IH.
Qed.

Lemma native_off retries :
  forall w, store (snd (Native.createChatCompletion this retries options w))
            = store w.
Proof.
  induction retries as [|n IH]; intros w; simpl;
    apply native_body_off; intros again [=]. subst again. exact IH.
Qed.
End Off.

Section Hit.
Context {Store : Type}.
Variable this : OpenRouterClient Store.
Variable options : ChatCompletionOptions.

Lemma run_on_hit retries w value w' :
  lookup this (cacheOptions (modelName this) options) options
         (logger creating_line w) = Hit value w' ->
  Instr.createChatCompletion this retries options w = (Resolved value, w')
  /\ Native.createChatCompletion this retries options w = (Resolved value, w').
Proof.
  intros L. split; destruct retries; simpl;
    unfold Instr.createChatCompletion_body, Native.createChatCompletion_body;
    fold creating_line; rewrite L; reflexivity.
Qed.
End Hit.

Section RoundTrip.
Context {Store : Type}.
Variable this : OpenRouterClient Store.
Variable c : LLMCache Store.
Hypothesis enabled : enableCaching this = true.
Hypothesis wired : cache this = Some c.
Hypothesis lawful : gives_back c.

Lemma gives_back_save options : save_succeeds this options.
Proof.
  intros key value w. unfold save. rewrite enabled, wired.
  destruct (lawful key value (requestId options) (store w)) as (s' & E & _).
  rewrite E. eexists. split; reflexivity.
Qed.

(** What a successful write leaves: a store in which the key hits. *)
Lemma saved_is_found A B value w0 w1 :
  differ_only_in_requestId A B ->
  save this (cacheOptions (modelName this) A) value A w0 = (inr tt, w1) ->
  exists w2,
    lookup this (cacheOptions (modelName this) B) B (logger creating_line w1)
    = Hit value w2
    /\ calls w2 = calls w1.
Proof.
  intros HAB. unfold save. rewrite enabled, wired.
  destruct (lawful (cacheOptions (modelName this) A) value (requestId A)
                   (store w0)) as (s' & E & G).
  rewrite E. intros [= <-].
  unfold lookup. rewrite enabled, wired.
  assert (cacheOptions (modelName this) B = cacheOptions (modelName this) A) as ->
      by (symmetry; apply cacheOptions_eq_iff; split; [reflexivity|exact HAB]).
  cbn [store logger with_store]. rewrite G.
  eexists. split; reflexivity.
Qed.
End RoundTrip.

(** A cache whose every write throws: the throw is caught like any other
    error of the attempt. *)
Lemma throwing_cache_save {Store : Type} (this : OpenRouterClient Store)
      (options : ChatCompletionOptions) (c : LLMCache Store) :
  enableCaching this = true ->
  cache this = Some c ->
  writes_always_throw c ->
  save_throws this options.
Proof.
  intros He Hc Hw key value w. unfold save. rewrite He, Hc.
  destruct (Hw key value (requestId options) (store w)) as (error & s' & E).
  rewrite E. do 2 eexists. split; reflexivity.
Qed.

Ltac never_resolves_script this options retry w throws L :=
  let C := fresh "C" in
  let Cv := fresh "Cv" in
  pose proof (calls_lookup this (cacheOptions (modelName this) options) options
                (logger creating_line w)) as C;
  rewrite L in C; cbn [calls logger] in C;
  match goal with
  | |- context [client this (List.length (calls ?v))] =>
      assert (calls v = calls w) as Cv
          by (repeat break_match; simpl; exact C);
      rewrite Cv
  end;
  repeat first
    [ match goal with
      | |- context [save this ?k ?v options ?x] =>
          let error := fresh "error" in
          let w' := fresh "w" in
          let E := fresh "E" in
          let Cs := fresh "Cs" in
          destruct (throws k v x) as (error & w' & E & Cs); rewrite E
      end
    | break_match ];
  eexists;
  (split; [|first [reflexivity | eexists; reflexivity]]);
  cbn [calls logger];
  repeat match goal with
    | Cs : calls _ = calls _ |- _ => rewrite Cs; cbn [calls logger]
    end;
  try rewrite Cv; reflexivity.

Section WriteThrows.
Context {Store : Type}.
Variable this : OpenRouterClient Store.
Variable options : ChatCompletionOptions.
Hypothesis throws : save_throws this options.

Lemma instr_body_never_resolves retry retries w :
  misses_at this options w ->
  exists w1,
    calls w1 = calls w ++ [Instr.request (modelName this) options]
    /\ match retry with
       | Some again =>
           Instr.createChatCompletion_body this retry retries options w = again w1
       | None =>
           exists error,
           Instr.createChatCompletion_body this retry retries options w
           = (request_failed error, w1)
       end.
Proof.
  intros (w0 & L).
  unfold Instr.createChatCompletion_body. fold creating_line. rewrite L.
  unfold Instr.attempt, create.
  never_resolves_script this options retry w throws L.
Qed.

Lemma native_body_never_resolves retry retries w :
  misses_at this options w ->
  exists w1,
    calls w1 = calls w ++ [Native.request (modelName this) options]
    /\ match retry with
       | Some again =>
           Native.createChatCompletion_body this retry retries options w = again w1
       | None =>
           exists error,
           Native.createChatCompletion_body this retry retries options w
           = (request_failed error, w1)
       end.
Proof.
  intros (w0 & L).
  unfold Native.createChatCompletion_body. fold creating_line. rewrite L.
  unfold Native.attempt, create.
  never_resolves_script this options retry w throws L.
Qed.

Hypothesis misses : always_misses this options.

Lemma instr_never_resolves retries :
  forall w, exists error,
    fst (Instr.createChatCompletion this retries options w) = request_failed error
    /\ calls (snd (Instr.createChatCompletion this retries options w))
       = calls w ++ repeat (Instr.request (modelName this) options) (S retries).
Proof.
  induction retries as [|n IH]; intros w; cbn [Instr.createChatCompletion].
  - destruct (instr_body_never_resolves None 0 w (always_misses_at _ _ w misses))
      as (w1 & C & e & E).
    rewrite E. exists e. split; [reflexivity|exact C].
  - destruct (instr_body_never_resolves
                (Some (Instr.createChatCompletion this n options)) (S n) w
                (always_misses_at _ _ w misses)) as (w1 & C & E).
    rewrite E. destruct (IH w1) as (e' & F & G). exists e'. split; [exact F|].
    rewrite G, C, <- app_assoc. reflexivity.
Qed.

Lemma native_never_resolves retries :
  forall w, exists error,
    fst (Native.createChatCompletion this retries options w) = request_failed error
    /\ calls (snd (Native.createChatCompletion this retries options w))
       = calls w ++ repeat (Native.request (modelName this) options) (S retries).
Proof.
  induction retries as [|n IH]; intros w; cbn [Native.createChatCompletion].
  - destruct (native_body_never_resolves None 0 w (always_misses_at _ _ w misses))
      as (w1 & C & e & E).
    rewrite E. exists e. split; [reflexivity|exact C].
  - destruct (native_body_never_resolves
                (Some (Native.createChatCompletion this n options)) (S n) w
                (always_misses_at _ _ w misses)) as (w1 & C & E).
    rewrite E. destruct (IH w1) as (e' & F & G). exists e'. split; [exact F|].
    rewrite G, C, <- app_assoc. reflexivity.
Qed.

End WriteThrows.

(* ================================================================== *)
(** ** A reply in a markdown fence *)
(* ================================================================== *)



(** X13.  A reply that gives prose without opening brace and then, in a
    fence tagged json, an object on lines of its own, the whole not
    parseable as it is, decodes to what the object parses to once the
    fence markers inside it are taken out; when that text does not parse,
    the attempt fails at the second parse with it as the offending span.
    No fence is left in that text, and an object without backtick is
    parsed as it is. *)
Theorem fenced_object_is_decoded (prose inner : string) :
  Text.occurs "{" prose = false ->
  JSON.parse (fenced prose ("{" ++ inner ++ "}")%string) = None ->
  Instr.decode (fenced prose ("{" ++ inner ++ "}")%string)
  = match JSON.parse ("{" ++ Text.strip_code_fences inner ++ "}")%string with
    | Some parsedData => Instr.Parsed parsedData
    | None =>
        Instr.SecondParseError
          ("{" ++ Text.strip_code_fences inner ++ "}")%string
    end
  /\ Str.includes Text.fence (Text.strip_code_fences inner) = false
  /\ (Text.occurs Text.backtick inner = false ->
      Text.strip_code_fences inner = inner).
Proof.
  intros Hb Hparse.
  assert (fenced prose ("{" ++ inner ++ "}")
          = ((prose ++ Text.fence_json ++ LF) ++ "{" ++ inner ++ "}"
               ++ (LF ++ Text.fence))%string) as E.
  { unfold fenced. rewrite !TextFacts.append_assoc. reflexivity. }
  split; [|split].
  - rewrite E in *.
    apply StripFacts.decode_between; [|reflexivity|exact Hparse].
    rewrite TextFacts.occurs_app, Hb. reflexivity.
  - apply StripFacts.strip_leaves_no_fence.
  - apply StripFacts.strip_plain.
Qed.

(** The theorem on an object that holds a fence marker in a string
    value. *)
Lemma fenced_object_is_decoded_witness :
  Instr.decode (fenced "Sure - here it is:" (dq "{'a':'```'}"))
  = Instr.Parsed a_is_empty.
Proof.
  exact (proj1 (fenced_object_is_decoded "Sure - here it is:" (dq "'a':'```'")
                  eq_refl eq_refl)).
Defined.

(* ================================================================== *)
(** ** Properties of a run *)
(* ================================================================== *)

(** X1.  A call with [retries = n] issues at most [n + 1] vendor calls, in
    both variants, whatever the vendor, the cache and the schema do; all of
    them carry the same argument. *)
Theorem run_issues_at_most {Store : Type} (this : OpenRouterClient Store)
        (options : ChatCompletionOptions) (retries : nat) (w : World Store) :
  (exists k,
      k <= S retries
      /\ calls (snd (Instr.createChatCompletion this retries options w))
         = calls w ++ repeat (Instr.request (modelName this) options) k)
  /\ (exists k,
         k <= S retries
         /\ calls (snd (Native.createChatCompletion this retries options w))
            = calls w ++ repeat (Native.request (modelName this) options) k).
Proof.
  split.
  - exact (InstrFacts.instr_run_calls this options retries w).
  - exact (NativeFacts.native_run_calls this options retries w).
Qed.

(** X2.  When the lookups that open the attempts of a run miss (the
    first [retries + 1] of them, each on the store the one before left)
    and, in case the run ends on a good attempt, no cache write throws,
    the recursive method is the bounded loop over its attempts: the same
    outcome, and as many vendor calls as the loop makes attempts. *)
Theorem runs_are_bounded_loops {Store : Type} (this : OpenRouterClient Store)
        (options : ChatCompletionOptions) (retries : nat) (w : World Store) :
  keeps_missing this options retries (store w) ->
  (let run := Instr.createChatCompletion this retries options w in
   let loop := attempts (instr_verdict this options) retries
                        (List.length (calls w)) in
   ((exists value, fst loop = Resolved value) -> save_succeeds this options) ->
   fst run = fst loop
   /\ calls (snd run)
      = calls w ++ repeat (Instr.request (modelName this) options) (snd loop))
  /\ (let run := Native.createChatCompletion this retries options w in
      let loop := attempts (native_verdict this options) retries
                           (List.length (calls w)) in
      ((exists value, fst loop = Resolved value) -> save_succeeds this options) ->
      fst run = fst loop
      /\ calls (snd run)
         = calls w ++ repeat (Native.request (modelName this) options)
                             (snd loop)).
Proof.
  intros Hm. split; intros run loop Hs.
  - apply (instr_run_loop this options retries retries w Hs Hm).
    apply attempts_count.
  - apply (native_run_loop this options retries retries w Hs Hm).
    apply attempts_count.
Qed.

(** The theorem through a cache that holds no entry, on a vendor that
    rejects the first call and answers the second. *)
Lemma runs_are_bounded_loops_witness :
  let this := Sample.cached (Cases.flaky 1) in
  let options := Sample.ask "req-1" None (Some Sample.result_model) in
  let run := Instr.createChatCompletion this 2 options Cases.empty_slot in
  fst run = Resolved (Extracted Sample.a_is_1 Sample.no_usage)
  /\ calls (snd run)
     = [Instr.request (modelName this) options;
        Instr.request (modelName this) options].
Proof.
  intros this options.
  refine (proj1 (runs_are_bounded_loops this options 2 Cases.empty_slot _) _).
  - exact I.
  - intros _. apply one_slot_save_succeeds.
Defined.

(** X3.  When the lookups that open the first [k + 1] attempts miss, no
    cache write throws, the first [k] attempts fail, in whatever way, and
    the next one is good, with [k] at most [retries], the call resolves to
    the value of that attempt after exactly [k + 1] vendor calls. *)
Theorem retry_recovers {Store : Type} (this : OpenRouterClient Store)
        (options : ChatCompletionOptions) (retries k : nat)
        (value : Completion) (w : World Store) :
  keeps_missing this options k (store w) ->
  save_succeeds this options ->
  k <= retries ->
  let n := List.length (calls w) in
  ((forall i, i < k -> exists e, instr_verdict this options (n + i) = Bad e) ->
   instr_verdict this options (n + k) = Good value ->
   fst (Instr.createChatCompletion this retries options w) = Resolved value
   /\ calls (snd (Instr.createChatCompletion this retries options w))
      = calls w ++ repeat (Instr.request (modelName this) options) (S k))
  /\ ((forall i, i < k -> exists e, native_verdict this options (n + i) = Bad e) ->
      native_verdict this options (n + k) = Good value ->
      fst (Native.createChatCompletion this retries options w) = Resolved value
      /\ calls (snd (Native.createChatCompletion this retries options w))
         = calls w ++ repeat (Native.request (modelName this) options) (S k)).
Proof.
  intros Hm Hs Hk n. split; intros Hbad Hgood.
  - pose proof (instr_run_loop this options retries k w) as H.
    cbv zeta in H. fold n in H.
    rewrite (attempts_recover _ k retries n value Hk Hbad Hgood) in H.
    apply H; [intros _; exact Hs|exact Hm|apply Nat.le_refl].
  - pose proof (native_run_loop this options retries k w) as H.
    cbv zeta in H. fold n in H.
    rewrite (attempts_recover _ k retries n value Hk Hbad Hgood) in H.
    apply H; [intros _; exact Hs|exact Hm|apply Nat.le_refl].
Qed.

(** The theorem through a cache that holds no entry, on a vendor that
    rejects two calls and answers the third. *)
Lemma retry_recovers_witness :
  let this := Sample.cached (Cases.flaky 2) in
  let options := Sample.ask "req-1" None (Some Sample.result_model) in
  fst (Native.createChatCompletion this 3 options Cases.empty_slot)
  = Resolved (Extracted Sample.a_is_1 Sample.no_usage)
  /\ calls (snd (Native.createChatCompletion this 3 options Cases.empty_slot))
     = calls Cases.empty_slot
         ++ repeat (Native.request (modelName this) options) 3.
Proof.
  intros this options.
  refine (proj2 (retry_recovers this options 3 2
                   (Extracted Sample.a_is_1 Sample.no_usage) Cases.empty_slot
                   _ _ _) _ _).
  - exact I.
  - apply one_slot_save_succeeds.
  - repeat constructor.
  - intros i Hi. exists (JS.Error "offline").
    destruct i as [|[|i]]; [reflexivity|reflexivity|].
    exfalso. lia.
  - vm_compute. reflexivity.
Defined.

(** X4.  When the lookups that open the attempts of a run miss (the first
    [retries + 1] of them) and every attempt fails, in whatever way (the
    vendor rejects, the reply has no content, does not parse or does not
    validate), the call issues exactly [retries + 1] vendor calls and
    rejects with a [CreateChatCompletionResponseError] built on
    "OpenRouter request failed: " and the message of the error of the last
    attempt; the message of such an error is the name of its class and a
    colon in front of what it is built on. *)
Theorem failures_exhaust_retries {Store : Type}
        (this : OpenRouterClient Store) (options : ChatCompletionOptions)
        (retries : nat) (error : JS.Exn) (w : World Store) :
  keeps_missing this options retries (store w) ->
  let n := List.length (calls w) in
  let terminal :=
    JS.CreateChatCompletionResponseError
      ("OpenRouter request failed: " ++ JS.message error)%string in
  ((forall i, i < retries ->
              exists e, instr_verdict this options (n + i) = Bad e) ->
   instr_verdict this options (n + retries) = Bad error ->
   fst (Instr.createChatCompletion this retries options w) = Rejected terminal
   /\ calls (snd (Instr.createChatCompletion this retries options w))
      = calls w ++ repeat (Instr.request (modelName this) options) (S retries))
  /\ ((forall i, i < retries ->
                 exists e, native_verdict this options (n + i) = Bad e) ->
      native_verdict this options (n + retries) = Bad error ->
      fst (Native.createChatCompletion this retries options w)
      = Rejected terminal
      /\ calls (snd (Native.createChatCompletion this retries options w))
         = calls w ++ repeat (Native.request (modelName this) options)
                             (S retries))
  /\ JS.message terminal
     = ("CreateChatCompletionResponseError: OpenRouter request failed: "
          ++ JS.message error)%string
  /\ (forall m,
         error = JS.CreateChatCompletionResponseError m ->
         JS.message terminal
         = ("CreateChatCompletionResponseError: OpenRouter request failed: "
              ++ "CreateChatCompletionResponseError: " ++ m)%string).
Proof.
  intros Hm n terminal. split; [|split; [|split]].
  - intros Hbad Hlast.
    pose proof (instr_run_loop this options retries retries w) as H.
    cbv zeta in H. fold n in H.
    rewrite (attempts_exhaust _ retries n error Hbad Hlast) in H.
    apply H; [|exact Hm|apply Nat.le_refl].
    intros (value & E). discriminate E.
  - intros Hbad Hlast.
    pose proof (native_run_loop this options retries retries w) as H.
    cbv zeta in H. fold n in H.
    rewrite (attempts_exhaust _ retries n error Hbad Hlast) in H.
    apply H; [|exact Hm|apply Nat.le_refl].
    intros (value & E). discriminate E.
  - reflexivity.
  - intros m ->. reflexivity.
Qed.

(** The theorem through a cache that holds no entry, on a schema that
    accepts nothing. *)
Lemma failures_exhaust_retries_witness :
  let this := Sample.cached
                (Sample.always (inr (Sample.reply (Some (dq "{'a':1}")) None))) in
  let options :=
    Sample.ask "req-1" None
               (Some {| name := "Result"; schema := Cases.nothing |}) in
  fst (Instr.createChatCompletion this 1 options Cases.empty_slot)
  = Rejected
      (JS.CreateChatCompletionResponseError
         "OpenRouter request failed: CreateChatCompletionResponseError: Required")
  /\ calls (snd (Instr.createChatCompletion this 1 options Cases.empty_slot))
     = calls Cases.empty_slot
         ++ repeat (Instr.request (modelName this) options) 2.
Proof.
  intros this options.
  refine (proj1 (failures_exhaust_retries this options 1
                   (JS.CreateChatCompletionResponseError "Required")
                   Cases.empty_slot _) _ _).
  - exact I.
  - intros i Hi. exists (JS.CreateChatCompletionResponseError "Required").
    destruct i; [vm_compute; reflexivity|].
    exfalso. lia.
  - vm_compute. reflexivity.
Defined.

(* ================================================================== *)
(** ** Properties of the cache use *)
(* ================================================================== *)

(** X5.  Over a cache that gives back what was set, a call whose opening
    lookup misses and whose first attempt is good resolves after one
    vendor call, and a later call with the same options, but for the
    request identifier, resolves to the same value without any vendor
    call. *)
Theorem success_is_cached {Store : Type} (this : OpenRouterClient Store)
        (c : LLMCache Store) (A B : ChatCompletionOptions)
        (retries retries' : nat) (value : Completion) (w : World Store) :
  enableCaching this = true ->
  cache this = Some c ->
  gives_back c ->
  differ_only_in_requestId A B ->
  misses_at this A w ->
  (instr_verdict this A (List.length (calls w)) = Good value ->
   exists w1 w2,
     Instr.createChatCompletion this retries A w = (Resolved value, w1)
     /\ calls w1 = calls w ++ [Instr.request (modelName this) A]
     /\ Instr.createChatCompletion this retries' B w1 = (Resolved value, w2)
     /\ calls w2 = calls w1)
  /\ (native_verdict this A (List.length (calls w)) = Good value ->
      exists w1 w2,
        Native.createChatCompletion this retries A w = (Resolved value, w1)
        /\ calls w1 = calls w ++ [Native.request (modelName this) A]
        /\ Native.createChatCompletion this retries' B w1 = (Resolved value, w2)
        /\ calls w2 = calls w1).
Proof.
  intros He Hc Hg HAB Hm.
  pose proof (gives_back_save this c He Hc Hg A) as Hs.
  split; intros Hv.
  - assert (exists w1,
               Instr.createChatCompletion this retries A w = (Resolved value, w1)
               /\ calls w1 = calls w ++ [Instr.request (modelName this) A]
               /\ exists w0, save this (cacheOptions (modelName this) A) value A w0
                             = (inr tt, w1)) as (w1 & R & C & w0 & S).
    { destruct retries as [|n]; cbn [Instr.createChatCompletion];
        match goal with
        | |- context [Instr.createChatCompletion_body this ?retry ?r A w] =>
            destruct (instr_body_verdict this A Hs retry r w Hm)
              as (w1 & C & E & S)
        end;
        rewrite Hv in E; exists w1; (split; [exact E|split; [exact C|]]);
        exact (S value Hv). }
    destruct (saved_is_found this c He Hc Hg A B value w0 w1 HAB S)
      as (w2 & L & C2).
    exists w1, w2. repeat split; try assumption.
    exact (proj1 (run_on_hit this B retries' w1 value w2 L)).
  - assert (exists w1,
               Native.createChatCompletion this retries A w = (Resolved value, w1)
               /\ calls w1 = calls w ++ [Native.request (modelName this) A]
               /\ exists w0, save this (cacheOptions (modelName this) A) value A w0
                             = (inr tt, w1)) as (w1 & R & C & w0 & S).
    { destruct retries as [|n]; cbn [Native.createChatCompletion];
        match goal with
        | |- context [Native.createChatCompletion_body this ?retry ?r A w] =>
            destruct (native_body_verdict this A Hs retry r w Hm)
              as (w1 & C & E & S)
        end;
        rewrite Hv in E; exists w1; (split; [exact E|split; [exact C|]]);
        exact (S value Hv). }
    destruct (saved_is_found this c He Hc Hg A B value w0 w1 HAB S)
      as (w2 & L & C2).
    exists w1, w2. repeat split; try assumption.
    exact (proj2 (run_on_hit this B retries' w1 value w2 L)).
Qed.

Lemma success_is_cached_witness :
  let this := Sample.cached Cases.obliging in
  let A := Sample.ask "req-1" None (Some Sample.result_model) in
  let B := Sample.ask "req-2" None (Some Sample.result_model) in
  exists w1 w2,
    Instr.createChatCompletion this 2 A Cases.empty_slot
    = (Resolved Sample.stored, w1)
    /\ calls w1 = calls Cases.empty_slot ++ [Instr.request (modelName this) A]
    /\ Instr.createChatCompletion this 0 B w1 = (Resolved Sample.stored, w2)
    /\ calls w2 = calls w1.
Proof.
  intros this A B.
  refine (proj1 (success_is_cached this Sample.one_slot A B 2 0 Sample.stored
                   Cases.empty_slot eq_refl eq_refl _ _ _) _).
  - intros key value rid s. exists (Some value). split; reflexivity.
  - repeat split.
  - eexists. reflexivity.
  - vm_compute. reflexivity.
Defined.

(** X6.  A call that rejects leaves the cache store as it found it,
    provided reading the cache does not change the store and a write that
    throws has written nothing. *)
Theorem rejected_run_keeps_store {Store : Type}
        (this : OpenRouterClient Store) (options : ChatCompletionOptions)
        (retries : nat) (w : World Store) :
  reads_quietly this ->
  failed_writes_keep_store this ->
  (forall error,
      fst (Instr.createChatCompletion this retries options w) = Rejected error ->
      store (snd (Instr.createChatCompletion this retries options w)) = store w)
  /\ (forall error,
         fst (Native.createChatCompletion this retries options w)
         = Rejected error ->
         store (snd (Native.createChatCompletion this retries options w))
         = store w).
Proof.
  intros Hq Hk. split; intros error.
  - destruct (Instr.createChatCompletion this retries options w) as [o w'] eqn:E.
    simpl. intros ->.
    exact (instr_rejected_store this options Hq Hk retries w error w' E).
  - destruct (Native.createChatCompletion this retries options w) as [o w'] eqn:E.
    simpl. intros ->.
    exact (native_rejected_store this options Hq Hk retries w error w' E).
Qed.

Lemma rejected_run_keeps_store_witness :
  store (snd (Native.createChatCompletion
                (Sample.cached Cases.offline) 1
                (Sample.ask "req-1" None None) Cases.empty_slot))
  = store Cases.empty_slot.
Proof.
  refine (proj2 (rejected_run_keeps_store
                   (Sample.cached Cases.offline)
                   (Sample.ask "req-1" None None) 1 Cases.empty_slot _ _)
                (JS.CreateChatCompletionResponseError
                   "OpenRouter request failed: offline") _).
  - intros c H key rid s. simpl in H. injection H as <-. reflexivity.
  - intros c H key value rid s error s' E. simpl in H. injection H as <-.
    discriminate E.
  - vm_compute. reflexivity.
Defined.

(** X7.  A client whose caching is off never changes the cache store,
    whatever cache object it holds and however the call ends. *)
Theorem disabled_cache_is_never_touched {Store : Type}
        (this : OpenRouterClient Store) (options : ChatCompletionOptions)
        (retries : nat) (w : World Store) :
  enableCaching this = false ->
  store (snd (Instr.createChatCompletion this retries options w)) = store w
  /\ store (snd (Native.createChatCompletion this retries options w)) = store w.
Proof.
  intros off. split.
  - exact (instr_off this options off retries w).
  - exact (native_off this options off retries w).
Qed.

Lemma disabled_cache_is_never_touched_witness :
  let this := Cases.dormant Cases.obliging in
  let options := Sample.ask "req-1" None (Some Sample.result_model) in
  store (snd (Instr.createChatCompletion this 1 options Cases.empty_slot))
  = store Cases.empty_slot
  /\ store (snd (Native.createChatCompletion this 1 options Cases.empty_slot))
     = store Cases.empty_slot.
Proof.
  intros this options.
  exact (disabled_cache_is_never_touched this options 1 Cases.empty_slot
           eq_refl).
Defined.

(** X8.  The cache write is awaited inside the [try] block: over a cache
    whose every write throws and whose lookups miss, no call resolves,
    however good the vendor's replies are; each attempt ends in the
    [catch] clause, so that the call issues [retries + 1] vendor calls
    and rejects with a [CreateChatCompletionResponseError]. *)
Theorem throwing_cache_fails_every_call {Store : Type}
        (this : OpenRouterClient Store) (c : LLMCache Store)
        (options : ChatCompletionOptions) (retries : nat) (w : World Store) :
  enableCaching this = true ->
  cache this = Some c ->
  writes_always_throw c ->
  always_misses this options ->
  (exists error,
      fst (Instr.createChatCompletion this retries options w)
      = request_failed error
      /\ calls (snd (Instr.createChatCompletion this retries options w))
         = calls w ++ repeat (Instr.request (modelName this) options)
                             (S retries))
  /\ (exists error,
         fst (Native.createChatCompletion this retries options w)
         = request_failed error
         /\ calls (snd (Native.createChatCompletion this retries options w))
            = calls w ++ repeat (Native.request (modelName this) options)
                                (S retries)).
Proof.
  intros He Hc Hw Hm.
  pose proof (throwing_cache_save this options c He Hc Hw) as Ht.
  split.
  - exact (instr_never_resolves this options Ht Hm retries w).
  - exact (native_never_resolves this options Ht Hm retries w).
Qed.

Lemma throwing_cache_fails_every_call_witness :
  let this := Cases.over Cases.unwritable Cases.obliging in
  let options := Sample.ask "req-1" None None in
  exists error,
    fst (Native.createChatCompletion this 2 options Sample.start)
    = request_failed error
    /\ calls (snd (Native.createChatCompletion this 2 options Sample.start))
       = calls Sample.start
           ++ repeat (Native.request (modelName this) options) 3.
Proof.
  intros this options.
  refine (proj2 (throwing_cache_fails_every_call this Cases.unwritable options
                   2 Sample.start eq_refl eq_refl _ _)).
  - intros key value rid s. exists (JS.Error "EROFS"), s. reflexivity.
  - intros w. eexists. reflexivity.
Defined.

(** X9.  A client whose caching is on while it holds no cache object
    rejects every call with the [TypeError] of reading [get] of undefined:
    the lookup is outside the [try] block, so there is no vendor call, no
    retry and no wrapping of the error. *)
Theorem caching_without_cache_rejects {Store : Type}
        (this : OpenRouterClient Store) (options : ChatCompletionOptions)
        (retries : nat) (w : World Store) :
  enableCaching this = true ->
  cache this = None ->
  let error :=
    JS.TypeError "Cannot read properties of undefined (reading 'get')" in
  (fst (Instr.createChatCompletion this retries options w) = Rejected error
   /\ calls (snd (Instr.createChatCompletion this retries options w)) = calls w)
  /\ (fst (Native.createChatCompletion this retries options w) = Rejected error
      /\ calls (snd (Native.createChatCompletion this retries options w))
         = calls w).
Proof.
  intros He Hc error.
  assert (lookup this (cacheOptions (modelName this) options) options
                 (logger creating_line w)
          = LookupThrew error (logger creating_line w)) as L
      by (unfold lookup; rewrite He, Hc; reflexivity).
  destruct retries; simpl;
    unfold Native.createChatCompletion_body, Instr.createChatCompletion_body;
    fold creating_line; rewrite L; repeat split.
Qed.

Lemma caching_without_cache_rejects_witness :
  fst (Instr.createChatCompletion (Cases.cacheless Cases.obliging) 3
         (Sample.ask "req-1" None None) Sample.start)
  = Rejected (JS.TypeError "Cannot read properties of undefined (reading 'get')").
Proof.
  exact (proj1 (proj1 (caching_without_cache_rejects
                         (Cases.cacheless Cases.obliging)
                         (Sample.ask "req-1" None None) 3 Sample.start
                         eq_refl eq_refl))).
Defined.

Lemma bodies_agree_without_response_model {Store : Type}
      (this : OpenRouterClient Store) (options : ChatCompletionOptions)
      (retry1 retry0 : option (World Store -> Outcome * World Store))
      (retries : nat) (w : World Store) :
  response_model options = None ->
  match retry1, retry0 with
  | Some again1, Some again0 => forall v, again1 v = again0 v
  | None, None => True
  | _, _ => False
  end ->
  Instr.createChatCompletion_body this retry1 retries options w
  = Native.createChatCompletion_body this retry0 retries options w.
Proof.
  intros H Hr.
  assert (Instr.request (modelName this) options
          = Native.request (modelName this) options) as Rq.
  { unfold Instr.request, Native.request, Instr.requestMessages,
      Native.requestMessages, Native.responseFormat. rewrite H. reflexivity. }
  unfold Instr.createChatCompletion_body, Native.createChatCompletion_body,
    Instr.attempt, Native.attempt.
  rewrite H, Rq.
  destruct retry1 as [again1|], retry0 as [again0|]; try contradiction;
    repeat break_match; try rewrite Hr; reflexivity.
Qed.

(** X14.  On a request without response model the two variants are the
    same function: the same outcome, the same vendor calls, the same log
    and the same store. *)
Theorem variants_agree_without_response_model {Store : Type}
        (this : OpenRouterClient Store) (options : ChatCompletionOptions)
        (retries : nat) (w : World Store) :
  response_model options = None ->
  Instr.createChatCompletion this retries options w
  = Native.createChatCompletion this retries options w.
Proof.
  intros H. revert w.
  induction retries as [|n IH]; intros w; simpl;
    apply bodies_agree_without_response_model; trivial.
Qed.

Lemma variants_agree_without_response_model_witness :
  Instr.createChatCompletion (Sample.plain (Cases.flaky 1)) 2
    (Cases.rich None) Sample.start
  = Native.createChatCompletion (Sample.plain (Cases.flaky 1)) 2
      (Cases.rich None) Sample.start.
Proof.
  exact (variants_agree_without_response_model
           (Sample.plain (Cases.flaky 1)) (Cases.rich None) 2 Sample.start
           eq_refl).
Defined.

(* ================================================================== *)
(** ** Properties of the request sent to the vendor *)
(* ================================================================== *)

Lemma filter_is_text_only (parts : list ContentPartParam) :
  forallb is_text (filter is_text parts) = true.
Proof.
  induction parts as [|p parts IH]; [reflexivity|].
  simpl. destruct (is_text p) eqn:E; simpl; [rewrite E|]; exact IH.
Qed.

Lemma formatMessage_text_only (message : ChatMessage) :
  param_role (formatMessage message) <> user ->
  text_only (formatMessage message) = true.
Proof.
  unfold formatMessage, text_only.
  destruct (content message), (role message); simpl; intros H;
    try reflexivity; try apply filter_is_text_only; now contradiction H.
Qed.

Lemma formatMessage_role (message : ChatMessage) :
  param_role (formatMessage message) = role message.
Proof.
  unfold formatMessage. destruct (content message), (role message); reflexivity.
Qed.

Lemma formattedMessages_text_only (options : ChatCompletionOptions)
      (m : MessageParam) :
  In m (formattedMessages options) ->
  param_role m <> user ->
  text_only m = true.
Proof.
  unfold formattedMessages. intros H Hr.
  apply in_app_or in H. destruct H as [H|H].
  - apply in_map_iff in H. destruct H as (message & <- & _).
    apply formatMessage_text_only, Hr.
  - destruct (image options); [|contradiction].
    destruct H as [<-|[]]. now contradiction Hr.
Qed.

Lemma formattedMessages_roles (options : ChatCompletionOptions) :
  map param_role (formattedMessages options)
  = map role (messages options) ++ (if has_image options then [user] else []).
Proof.
  unfold formattedMessages, has_image. rewrite map_app, map_map.
  f_equal.
  - apply map_ext, formatMessage_role.
  - destruct (image options); reflexivity.
Qed.

(** X10.  No message of a vendor request that is not a user message
    carries an image part, in either variant: image parts reach the
    vendor in user messages only. *)
Theorem no_image_outside_user_messages (modelName : string)
        (options : ChatCompletionOptions) (m : MessageParam) :
  In m (p_messages (Instr.request modelName options))
  \/ In m (p_messages (Native.request modelName options)) ->
  param_role m <> user ->
  text_only m = true.
Proof.
  intros H Hr.
  assert (In m (formattedMessages options) \/ param_role m = user) as [G|G].
  { destruct H as [H|H]; simpl in H;
      unfold Instr.requestMessages, Native.requestMessages in H;
      apply in_app_or in H; destruct H as [H|H]; auto; right;
      destruct (response_model options) as [rm|]; try contradiction.
    - destruct H as [<-|[]]. reflexivity.
    - destruct (strictJsonSchema (schema rm)); [|contradiction].
      destruct H as [<-|[]]. reflexivity. }
  - exact (formattedMessages_text_only options m G Hr).
  - contradiction.
Qed.

Lemma no_image_outside_user_messages_witness :
  text_only (formatMessage
               {| role := system;
                  content := ContentParts [Cases.picture; Cases.caption] |})
  = true.
Proof.
  apply (no_image_outside_user_messages "x-ai/grok-4" (Cases.rich None)).
  - left. simpl. left. reflexivity.
  - discriminate.
Defined.

(** X11.  The messages of a vendor request keep the roles and the order of
    the caller's messages; behind them come at most two user messages:
    one for the image, and one for the schema instruction, which the
    instruction-based variant adds for every response model and the
    native variant only when [zodResponseFormat] throws. *)
Theorem request_roles (modelName : string) (options : ChatCompletionOptions) :
  map param_role (p_messages (Instr.request modelName options))
  = map role (messages options)
      ++ appended_roles (has_image options) (has_response_model options)
  /\ map param_role (p_messages (Native.request modelName options))
     = map role (messages options)
         ++ appended_roles (has_image options) (native_falls_back options).
Proof.
  split; simpl;
    unfold Instr.requestMessages, Native.requestMessages, appended_roles,
      has_response_model, native_falls_back;
    rewrite map_app, formattedMessages_roles, <- app_assoc;
    do 2 f_equal;
    destruct (response_model options) as [rm|]; try reflexivity.
  destruct (strictJsonSchema (schema rm)); reflexivity.
Qed.

(** X12.  A vendor request names a tool choice exactly when it carries at
    least one tool; the choice is then the caller's when the caller gave a
    non-empty one, and [auto] when the caller gave none or an empty one.
    The tools sent are the caller's, in their order, each with its name,
    description, properties and required list; without tools none is sent.
    Both variants send this choice and these tools. *)
Theorem tool_choice_iff_tools (modelName : string)
        (options : ChatCompletionOptions)
        (msgs : list MessageParam) (rf : option ResponseFormat) :
  let rq := completionParams modelName options msgs rf in
  (p_tool_choice rq = None
   <-> tools options = None \/ tools options = Some [])
  /\ (forall t ts choice,
         tools options = Some (t :: ts) ->
         tool_choice options = Some choice ->
         choice <> EmptyString ->
         p_tool_choice rq = Some choice)
  /\ (forall t ts,
         tools options = Some (t :: ts) ->
         tool_choice options = None \/ tool_choice options = Some EmptyString ->
         p_tool_choice rq = Some "auto"%string)
  /\ (forall choice, p_tool_choice rq = Some choice ->
                     choice <> EmptyString
                     /\ (tool_choice options = Some choice
                         \/ choice = "auto"%string))
  /\ (tools options = None -> p_tools rq = None)
  /\ (forall ts,
         tools options = Some ts ->
         exists sent,
           p_tools rq = Some sent
           /\ List.length sent = List.length ts
           /\ forall i tool,
               nth_error ts i = Some tool ->
               nth_error sent i
               = Some {| function_name := tool_name tool;
                         function_description := tool_description tool;
                         function_properties := tool_properties tool;
                         function_required := tool_required tool |})
  /\ option_map (map function_name) (p_tools rq)
     = option_map (map tool_name) (tools options)
  /\ (p_tool_choice (Instr.request modelName options) = p_tool_choice rq
      /\ p_tools (Instr.request modelName options) = p_tools rq
      /\ p_tool_choice (Native.request modelName options) = p_tool_choice rq
      /\ p_tools (Native.request modelName options) = p_tools rq).
Proof.
  cbn [completionParams p_tool_choice p_tools Instr.request Native.request].
  unfold toolChoice, formatTools.
  split; [|split; [|split; [|split; [|split; [|split; [|split]]]]]].
  - destruct (tools options) as [[|t ts]|]; simpl.
    + split; auto.
    + split; [discriminate|]. intros [H|H]; discriminate.
    + split; auto.
  - intros t ts choice -> -> Hc. simpl. unfold JS.or_string.
    destruct choice; [contradiction Hc; reflexivity|reflexivity].
  - intros t ts -> [-> | ->]; reflexivity.
  - destruct (tools options) as [[|t ts]|]; simpl; try discriminate.
    intros choice [= <-]. unfold JS.or_string.
    destruct (tool_choice options) as [[|c s]|]; simpl;
      split; auto; discriminate.
  - intros ->. reflexivity.
  - intros ts ->. simpl. eexists. split; [reflexivity|].
    split; [apply length_map|].
    intros i tool H. exact (map_nth_error _ i ts H).
  - destruct (tools options) as [ts|]; simpl; [|reflexivity].
    rewrite map_map. reflexivity.
  - repeat split.
Qed.

(** The theorem on a request whose caller chose, and on one whose caller
    did not. *)
Lemma tool_choice_iff_tools_witness :
  p_tool_choice (Native.request "x-ai/grok-4" insisting)
  = Some "required"%string
  /\ p_tool_choice (Instr.request "x-ai/grok-4" (Cases.rich None))
     = Some "auto"%string
  /\ p_tools (Instr.request "x-ai/grok-4" (Cases.rich None))
     = Some [{| function_name := "search";
                function_description := "search the page";
                function_properties := None;
                function_required := None |}].
Proof.
  split; [|split].
  - destruct (tool_choice_iff_tools "x-ai/grok-4" insisting
                (Native.requestMessages insisting)
                (Native.responseFormat insisting))
      as (_ & C & _).
    refine (C Cases.search_tool [] "required"%string eq_refl eq_refl _).
    discriminate.
  - destruct (tool_choice_iff_tools "x-ai/grok-4" (Cases.rich None)
                (Instr.requestMessages (Cases.rich None)) None)
      as (_ & _ & A & _).
    exact (A Cases.search_tool [] eq_refl (or_introl eq_refl)).
  - destruct (tool_choice_iff_tools "x-ai/grok-4" (Cases.rich None)
                (Instr.requestMessages (Cases.rich None)) None)
      as (_ & _ & _ & _ & _ & T & _).
    destruct (T [Cases.search_tool] eq_refl) as (sent & E & L & N).
    rewrite E in *. clear E.
    destruct sent as [|f [|g sent]]; try discriminate L.
    specialize (N 0 Cases.search_tool eq_refl).
    cbn [nth_error] in N. injection N as ->. reflexivity.
Defined.

(* ================================================================== *)
(** ** Object literals: what a spread leaves *)
(* ================================================================== *)

Module ObjFacts.
Import Obj.

Lemma get_set k k' v o :
  get k (set k' v o) = if String.eqb k k' then v else get k o.
Proof.
  induction o as [|[k0 v0] o IH]; simpl.
  - reflexivity.
  - destruct (String.eqb k' k0) eqn:E; simpl.
    + apply String.eqb_eq in E. subst k0.
      destruct (String.eqb k k'); reflexivity.
    + rewrite IH. destruct (String.eqb k k0) eqn:E0; [|reflexivity].
      apply String.eqb_eq in E0. subst k0.
      destruct (String.eqb k k') eqn:E1; [|reflexivity].
      apply String.eqb_eq in E1. subst k'. rewrite String.eqb_refl in E.
      discriminate.
Qed.

Lemma has_set k k' v o :
  has k (set k' v o) = String.eqb k k' || has k o.
Proof.
  induction o as [|[k0 v0] o IH]; simpl.
  - reflexivity.
  - destruct (String.eqb k' k0) eqn:E; simpl.
    + apply String.eqb_eq in E. subst k0.
      destruct (String.eqb k k'); reflexivity.
    + rewrite IH. destruct (String.eqb k k0), (String.eqb k k'); reflexivity.
Qed.

Lemma has_keys k o : has k o = existsb (String.eqb k) (map fst o).
Proof.
  induction o as [|[k0 v0] o IH]; simpl; [reflexivity|]. rewrite IH. reflexivity.
Qed.

Lemma get_absent k o : has k o = false -> get k o = VUndefined.
Proof.
  induction o as [|[k0 v0] o IH]; simpl; [reflexivity|].
  destruct (String.eqb k k0); simpl; [discriminate|exact IH].
Qed.

Lemma fold_set k src ks :
  forall target,
    get k (fold_left (fun o k' => set k' (get k' src) o) ks target)
    = (if existsb (String.eqb k) ks then get k src else get k target)
    /\ has k (fold_left (fun o k' => set k' (get k' src) o) ks target)
       = existsb (String.eqb k) ks || has k target.
Proof.
  induction ks as [|a ks IH]; intros target; simpl.
  - split; reflexivity.
  - destruct (IH (set a (get a src) target)) as [G H].
    rewrite G, H, get_set, has_set. split.
    + destruct (String.eqb k a) eqn:E; simpl.
      * apply String.eqb_eq in E. subst a.
        destruct (existsb _ ks); reflexivity.
      * reflexivity.
    + destruct (String.eqb k a), (existsb _ ks); reflexivity.
Qed.

Lemma get_spread k target src :
  get k (spread target src) = if has k src then get k src else get k target.
Proof. unfold spread. rewrite (has_keys k src). apply fold_set. Qed.

Lemma has_spread k target src :
  has k (spread target src) = has k src || has k target.
Proof. unfold spread. rewrite (has_keys k src). apply fold_set. Qed.

Lemma get_spread_optional k target src :
  get k (spread_optional target src)
  = if owns src k then read src k else get k target.
Proof. destruct src; simpl; [apply get_spread|reflexivity]. Qed.

Lemma has_spread_optional k target src :
  has k (spread_optional target src) = owns src k || has k target.
Proof. destruct src; simpl; [apply has_spread|reflexivity]. Qed.

Lemma read_absent o k : owns o k = false -> read o k = VUndefined.
Proof. destruct o; simpl; [apply get_absent|reflexivity]. Qed.

End ObjFacts.

Ltac obj_simpl :=
  repeat first
    [ rewrite ObjFacts.get_set
    | rewrite ObjFacts.has_set
    | rewrite ObjFacts.get_spread_optional
    | rewrite ObjFacts.has_spread_optional
    | rewrite ObjFacts.get_spread
    | rewrite ObjFacts.has_spread ].

(** X15.  The caller's [clientOptions] are spread last into the options
    of the vendor's library: every property they own replaces the one the
    constructor names, so an [apiKey] they own is used as it is, even an
    empty one, and the environment variable only when they own none; the
    OpenRouter address and the two default headers hold only as long as
    [clientOptions] own no [baseURL] and no [defaultHeaders]. *)
Theorem client_options_take_precedence (clientOptions : option Obj.t)
        (OPENROUTER_API_KEY : option string) :
  let options := openAIOptions clientOptions OPENROUTER_API_KEY in
  (forall k, Obj.owns clientOptions k = true ->
             Obj.get k options = Obj.read clientOptions k)
  /\ (Obj.owns clientOptions "apiKey" = false ->
      Obj.get "apiKey" options = Obj.env OPENROUTER_API_KEY)
  /\ (Obj.owns clientOptions "baseURL" = false ->
      Obj.get "baseURL" options = VString "https://openrouter.ai/api/v1")
  /\ (Obj.owns clientOptions "defaultHeaders" = false ->
      Obj.get "defaultHeaders" options
      = VObject [("HTTP-Referer"%string, VString "https://stagehand.dev");
                 ("X-Title"%string, VString "Stagehand")]).
Proof.
  unfold openAIOptions. cbv zeta.
  repeat split; [intros k H|intros H ..];
    rewrite ObjFacts.get_spread_optional, H; try reflexivity.
  obj_simpl. simpl. rewrite (ObjFacts.read_absent _ _ H). reflexivity.
Qed.

Lemma client_options_take_precedence_witness :
  Obj.get "apiKey"
          (openAIOptions (Some [("apiKey"%string, VString EmptyString)])
                         (Some "sk-or-v1"%string))
  = VString EmptyString.
Proof.
  exact (proj1 (client_options_take_precedence
                  (Some [("apiKey"%string, VString EmptyString)])
                  (Some "sk-or-v1"%string)) "apiKey"%string eq_refl).
Defined.

(** X16.  A client constructed without [enableCaching], or with it false,
    never changes the cache store, whatever cache object it was given. *)
Theorem default_client_never_uses_the_cache {Store : Type}
        (OpenAI : Obj.t -> Vendor) (OPENROUTER_API_KEY : option string)
        (params : ConstructorParams Store) (options : ChatCompletionOptions)
        (retries : nat) (w : World Store) :
  params_enableCaching params = None
  \/ params_enableCaching params = Some false ->
  let this := constructor OpenAI OPENROUTER_API_KEY params in
  store (snd (Instr.createChatCompletion this retries options w)) = store w
  /\ store (snd (Native.createChatCompletion this retries options w))
     = store w.
Proof.
  intros H this.
  assert (enableCaching this = false) as off
      by (unfold this, constructor; simpl; destruct H as [-> | ->]; reflexivity).
  split.
  - exact (instr_off this options off retries w).
  - exact (native_off this options off retries w).
Qed.

Lemma default_client_never_uses_the_cache_witness :
  let this := constructor (fun _ => Cases.obliging) None
                          EvalCases.with_cache_only in
  let options := Sample.ask "req-1" None None in
  store (snd (Instr.createChatCompletion this 0 options Cases.empty_slot))
  = store Cases.empty_slot
  /\ store (snd (Native.createChatCompletion this 0 options Cases.empty_slot))
     = store Cases.empty_slot.
Proof.
  exact (default_client_never_uses_the_cache
           (fun _ => Cases.obliging) None EvalCases.with_cache_only
           (Sample.ask "req-1" None None) 0 Cases.empty_slot
           (or_introl eq_refl)).
Defined.

(* ================================================================== *)
(** ** The configuration of an evaluation run *)
(* ================================================================== *)

Module EvalFacts.

Lemma lower_cases (a c : ascii) :
  Str.lower a = c ->
  (65 <=? nat_of_ascii c)%nat && (nat_of_ascii c <=? 90)%nat = false ->
  a = c \/ a = ascii_of_nat (nat_of_ascii c - 32).
Proof.
  intros <-.
  destruct a as [[] [] [] [] [] [] [] []]; vm_compute; intros; auto; discriminate.
Qed.

End EvalFacts.

(** X17.  Caching of the evaluations is on exactly when
    [EVAL_ENABLE_CACHING] is set to the word true in any mix of upper and
    lower case: nothing else enables it, neither [1] nor [yes] nor the
    word with a blank around it. *)
Theorem caching_needs_the_word_true (EVAL_ENABLE_CACHING : option string) :
  Evals.enableCaching EVAL_ENABLE_CACHING = true
  <-> exists t r u e,
      EVAL_ENABLE_CACHING
      = Some (String t (String r (String u (String e EmptyString))))
      /\ (t = "t" \/ t = "T")%char
      /\ (r = "r" \/ r = "R")%char
      /\ (u = "u" \/ u = "U")%char
      /\ (e = "e" \/ e = "E")%char.
Proof.
  unfold Evals.enableCaching. split.
  - destruct EVAL_ENABLE_CACHING as [s|]; [|discriminate].
    intros H. apply String.eqb_eq in H.
    destruct s as [|t [|r [|u [|e [|x s]]]]]; try discriminate H.
    simpl in H. injection H as Ht Hr Hu He.
    exists t, r, u, e. split; [reflexivity|].
    repeat split;
      match goal with
      | |- ?a = _ \/ _ =>
          match goal with
          | H : Str.lower a = _ |- _ =>
              exact (EvalFacts.lower_cases _ _ H eq_refl)
          end
      end.
  - intros (t & r & u & e & -> & Ht & Hr & Hu & He).
    destruct Ht, Hr, Hu, He; subst; reflexivity.
Qed.

Import Evals.

Lemma eqb_other (k k' : string) : k <> k' -> String.eqb k k' = false.
Proof. apply String.eqb_neq. Qed.

Lemma get_guarded k k' x :
  Obj.get k (Obj.guarded k' x)
  = if Obj.has k (Obj.guarded k' x)
    then match x with Some n => VNumber n | None => VUndefined end
    else VUndefined.
Proof.
  unfold Obj.guarded. destruct x as [n|]; [|reflexivity].
  destruct (JS.truthy_number n); [|reflexivity].
  simpl. destruct (String.eqb k k'); reflexivity.
Qed.

Lemma has_guarded k k' x :
  Obj.has k (Obj.guarded k' x)
  = String.eqb k k'
    && match x with Some n => JS.truthy_number n | None => false end.
Proof.
  unfold Obj.guarded. destruct x as [n|]; [|rewrite andb_false_r; reflexivity].
  destruct (JS.truthy_number n); simpl;
    rewrite ?orb_false_r, ?andb_true_r, ?andb_false_r; reflexivity.
Qed.

(** X18.  Whatever the overrides of [initStagehand] hold, the logger of
    the configuration is the bound logger of the call; every other
    property the overrides own goes into the configuration as they have
    it. *)
Theorem logger_cannot_be_overridden (EVAL_ENABLE_CACHING : option string)
        (p : Evals.InitParams) :
  Obj.get "logger" (Evals.config EVAL_ENABLE_CACHING p) = Evals.log p
  /\ forall k, k <> "logger"%string ->
               Obj.owns (Evals.configOverrides p) k = true ->
               Obj.get k (Evals.config EVAL_ENABLE_CACHING p)
               = Obj.read (Evals.configOverrides p) k.
Proof.
  unfold Evals.config. cbv zeta. split.
  - obj_simpl. reflexivity.
  - intros k Hk Ho. obj_simpl. rewrite (eqb_other _ _ Hk), Ho. reflexivity.
Qed.

Lemma logger_cannot_be_overridden_witness :
  Obj.get "logger" (Evals.config None EvalCases.overridden) = VRef 2
  /\ Obj.get "headless" (Evals.config None EvalCases.overridden) = VBool false.
Proof.
  split.
  - exact (proj1 (logger_cannot_be_overridden None EvalCases.overridden)).
  - refine (proj2 (logger_cannot_be_overridden None EvalCases.overridden)
                  "headless"%string _ eq_refl).
    discriminate.
Defined.

(** X19.  In [initStagehandZQuery] the overrides come last: every
    property they own goes into the configuration as they have it, the
    model name included; the configuration has a logger or a client only
    when the overrides own one. *)
Theorem wrapper_overrides_everything (EVAL_ENABLE_CACHING : option string)
        (p : Evals.InitParams) :
  (forall k, Obj.owns (Evals.configOverrides p) k = true ->
             Obj.get k (Evals.wrapperConfig EVAL_ENABLE_CACHING p)
             = Obj.read (Evals.configOverrides p) k)
  /\ Obj.has "logger" (Evals.wrapperConfig EVAL_ENABLE_CACHING p)
     = Obj.owns (Evals.configOverrides p) "logger"
  /\ Obj.has "llmClient" (Evals.wrapperConfig EVAL_ENABLE_CACHING p)
     = Obj.owns (Evals.configOverrides p) "llmClient".
Proof.
  unfold Evals.wrapperConfig. cbv zeta. split; [|split].
  - intros k Ho. obj_simpl. rewrite Ho. reflexivity.
  - obj_simpl. unfold Obj.guarded.
    destruct (Evals.domSettleTimeoutMs p) as [x|], (Evals.actTimeoutMs p) as [y|];
      try destruct (JS.truthy_number x); try destruct (JS.truthy_number y);
      simpl; rewrite ?orb_false_r; reflexivity.
  - obj_simpl. unfold Obj.guarded.
    destruct (Evals.domSettleTimeoutMs p) as [x|], (Evals.actTimeoutMs p) as [y|];
      try destruct (JS.truthy_number x); try destruct (JS.truthy_number y);
      simpl; rewrite ?orb_false_r; reflexivity.
Qed.

Lemma wrapper_overrides_everything_witness :
  Obj.get "logger" (Evals.wrapperConfig None EvalCases.overridden) = VRef 3.
Proof.
  exact (proj1 (wrapper_overrides_everything None EvalCases.overridden)
               "logger"%string eq_refl).
Defined.

(** X20.  A settle timeout that is undefined, 0 or NaN leaves the default
    of 30000 ms in both configurations, unless the overrides own one.
    The action timeout is always a property of the configuration of
    [initStagehand], be it undefined or 0, and a property of the one of
    [initStagehandZQuery] only when it is truthy, unless the overrides own
    one. *)
Theorem falsy_timeouts (EVAL_ENABLE_CACHING : option string)
        (p : Evals.InitParams) :
  (Obj.owns (Evals.configOverrides p) "domSettleTimeoutMs" = false ->
   Obj.get "domSettleTimeoutMs" (Evals.config EVAL_ENABLE_CACHING p)
   = VNumber (JS.or_number (Evals.domSettleTimeoutMs p) 30000)
   /\ Obj.get "domSettleTimeoutMs" (Evals.wrapperConfig EVAL_ENABLE_CACHING p)
      = VNumber (JS.or_number (Evals.domSettleTimeoutMs p) 30000))
  /\ (Obj.owns (Evals.configOverrides p) "actTimeoutMs" = false ->
      Obj.has "actTimeoutMs" (Evals.config EVAL_ENABLE_CACHING p) = true
      /\ Obj.get "actTimeoutMs" (Evals.config EVAL_ENABLE_CACHING p)
         = Obj.number (Evals.actTimeoutMs p)
      /\ Obj.has "actTimeoutMs" (Evals.wrapperConfig EVAL_ENABLE_CACHING p)
         = match Evals.actTimeoutMs p with
           | Some n => JS.truthy_number n
           | None => false
           end).
Proof.
  unfold Evals.config, Evals.wrapperConfig. cbv zeta. split; intros Ho.
  - split; obj_simpl; rewrite Ho, ?get_guarded, ?has_guarded; simpl;
      unfold JS.or_number;
      destruct (Evals.domSettleTimeoutMs p) as [x|]; try reflexivity;
      destruct (JS.truthy_number x); reflexivity.
  - repeat split; obj_simpl; rewrite ?Ho, ?get_guarded, ?has_guarded; simpl;
      try reflexivity.
    rewrite ?andb_false_r. simpl.
    destruct (Evals.actTimeoutMs p) as [x|]; try reflexivity.
    destruct (JS.truthy_number x); reflexivity.
Qed.

Lemma falsy_timeouts_witness :
  let p := {| Evals.llmClient := VRef 1;
              Evals.domSettleTimeoutMs := Some 0%float;
              Evals.log := VRef 2;
              Evals.configOverrides := None;
              Evals.actTimeoutMs := Some 0%float;
              Evals.init_modelName := "gpt-4o-mini" |} in
  (Obj.get "domSettleTimeoutMs" (Evals.config None p) = VNumber 30000
   /\ Obj.get "domSettleTimeoutMs" (Evals.wrapperConfig None p) = VNumber 30000)
  /\ (Obj.has "actTimeoutMs" (Evals.config None p) = true
      /\ Obj.get "actTimeoutMs" (Evals.config None p) = VNumber 0
      /\ Obj.has "actTimeoutMs" (Evals.wrapperConfig None p) = false).
Proof.
  intros p. split.
  - exact (proj1 (falsy_timeouts None p) eq_refl).
  - exact (proj2 (falsy_timeouts None p) eq_refl).
Defined.

(** X21.  A property that neither the overrides own nor the call sets
    keeps the value of the shared defaults in both configurations; so
    caching is what the environment says unless it is overridden. *)
Theorem defaults_survive (EVAL_ENABLE_CACHING : option string)
        (p : Evals.InitParams) (k : string) :
  Obj.owns (Evals.configOverrides p) k = false ->
  k <> "domSettleTimeoutMs"%string ->
  k <> "actTimeoutMs"%string ->
  (k <> "llmClient"%string -> k <> "logger"%string ->
   Obj.get k (Evals.config EVAL_ENABLE_CACHING p)
   = Obj.get k (Evals.StagehandConfig EVAL_ENABLE_CACHING))
  /\ (k <> "modelName"%string ->
      Obj.get k (Evals.wrapperConfig EVAL_ENABLE_CACHING p)
      = Obj.get k (Evals.StagehandConfig EVAL_ENABLE_CACHING)).
Proof.
  intros Ho Hd Ha. unfold Evals.config, Evals.wrapperConfig. cbv zeta. split.
  - intros Hl Hg. obj_simpl.
    rewrite Ho, ?has_guarded, (eqb_other _ _ Hd), (eqb_other _ _ Ha),
      (eqb_other _ _ Hl), (eqb_other _ _ Hg). simpl.
    repeat match goal with
      | |- context [String.eqb k ?s] => destruct (String.eqb k s)
      end; reflexivity.
  - intros Hm. obj_simpl.
    rewrite Ho, ?has_guarded, (eqb_other _ _ Hd), (eqb_other _ _ Ha),
      (eqb_other _ _ Hm). simpl.
    repeat match goal with
      | |- context [String.eqb k ?s] => destruct (String.eqb k s)
      end; reflexivity.
Qed.

Lemma defaults_survive_witness :
  Obj.get "enableCaching" (Evals.config (Some "TRUE"%string) EvalCases.overridden)
  = VBool true
  /\ Obj.get "enableCaching"
             (Evals.wrapperConfig (Some "TRUE"%string) EvalCases.overridden)
     = VBool true.
Proof.
  destruct (defaults_survive (Some "TRUE"%string) EvalCases.overridden
              "enableCaching"%string eq_refl) as [C W];
    try discriminate.
  split; [apply C|apply W]; discriminate.
Defined.

(* ================================================================== *)
(** ** The task of the evaluation runner *)
(* ================================================================== *)

Module StrFacts.
Import Str.
Local Open Scope string_scope.

Lemma includes_char c s : includes (String c EmptyString) s = Text.occurs c s.
Proof.
  induction s as [|a s IH]; simpl; [reflexivity|].
  rewrite IH. destruct (Ascii.eqb c a) eqn:E.
  - apply Ascii.eqb_eq in E. subst a.
    destruct (ascii_dec c c) as [_|N]; [|contradiction N; reflexivity].
    destruct s; reflexivity.
  - destruct (ascii_dec c a) as [Eq|_]; [|reflexivity].
    subst a. rewrite Ascii.eqb_refl in E. discriminate.
Qed.

(** The shape of [s.split(c)]: a first segment without [c]; when there are
    more, the last one has no [c] and follows a [c] in [s]. *)
Lemma split_shape c s :
  exists segment segments,
    split c s = segment :: segments
    /\ Text.occurs c segment = false
    /\ match segments with
       | [] => s = segment /\ Text.occurs c s = false
       | _ :: _ =>
           Text.occurs c s = true
           /\ exists last before,
               pop segments = Some last
               /\ Text.occurs c last = false
               /\ s = before ++ String c last
       end.
Proof.
  induction s as [|a s (segment & segments & E & Hs & Hr)]; simpl.
  - exists EmptyString, []. repeat split.
  - rewrite E. rewrite (Ascii.eqb_sym c a).
    destruct (Ascii.eqb a c) eqn:Eac.
    + apply Ascii.eqb_eq in Eac. subst a.
      exists EmptyString, (segment :: segments). repeat split.
      destruct segments as [|s1 segments].
      * destruct Hr as [-> _]. exists segment, EmptyString. repeat split.
        exact Hs.
      * destruct Hr as (_ & last & before & P & L & ->).
        exists last, (String c before). repeat split; assumption.
    + exists (String a segment), segments. split; [reflexivity|].
      split; [simpl; rewrite (Ascii.eqb_sym c a), Eac; exact Hs|].
      destruct segments as [|s1 segments].
      * destruct Hr as [-> Ho]. split; [reflexivity|exact Ho].
      * destruct Hr as (Ho & last & before & P & L & ->).
        split; [rewrite Ho; apply orb_true_r|].
        exists last, (String a before). repeat split; assumption.
Qed.

Lemma pop_cons x y l : pop (x :: y :: l) = pop (y :: l).
Proof. reflexivity. Qed.

(** [s.substring(s.indexOf(c) + 1)] *)
Lemma after_first c s :
  (Text.occurs c s = false
   /\ indexOf c s = (-1)%Z)
  \/ exists before,
      Text.occurs c before = false
      /\ indexOf c s = Z.of_nat (String.length before)
      /\ s = before ++ String c (substring (indexOf c s + 1) s).
Proof.
  induction s as [|a s IH]; simpl.
  - left. split; reflexivity.
  - rewrite (Ascii.eqb_sym c a). destruct (Ascii.eqb a c) eqn:Eac.
    + apply Ascii.eqb_eq in Eac. subst a. right.
      exists EmptyString. repeat split.
    + destruct IH as [[Ho Hi]|(before & Hb & Hi & Hs)].
      * left. rewrite Ho, Hi. split; reflexivity.
      * right. exists (String a before). rewrite Hi.
        split; [simpl; rewrite (Ascii.eqb_sym c a), Eac; exact Hb|].
        match goal with
        | |- ?z = _ /\ _ =>
            assert (z = Z.of_nat (String.length (String a before))) as ->
                by (simpl String.length; rewrite Nat2Z.inj_succ;
                    destruct (Z.of_nat (String.length before)) eqn:Z0; lia)
        end.
        split; [reflexivity|].
        unfold substring in *.
        replace (Z.to_nat (Z.of_nat (String.length (String a before)) + 1))
          with (S (S (String.length before)))
          by (cbn [String.length]; lia).
        rewrite Hi in Hs.
        replace (Z.to_nat (Z.of_nat (String.length before) + 1))
          with (S (String.length before)) in Hs by lia.
        change (drop (S (S (String.length before))) (String a s))
          with (drop (S (String.length before)) s).
        cbn [append]. f_equal. exact Hs.
Qed.

End StrFacts.

(** X22.  The name under which the runner looks a task function up is
    the last segment of the input name: it has no slash, it is the input
    name when that has none, and otherwise what follows its last slash. *)
Theorem taskName_is_the_last_segment (name : string) :
  exists task,
    Evals.taskName name = Some task
    /\ Text.occurs "/" task = false
    /\ (Text.occurs "/" name = false -> task = name)
    /\ (Text.occurs "/" name = true ->
        exists directory, name = (directory ++ "/" ++ task)%string).
Proof.
  unfold Evals.taskName.
  rewrite (StrFacts.includes_char "/" name).
  destruct (StrFacts.split_shape "/" name)
    as (segment & segments & E & Hs & Hr).
  rewrite E.
  destruct segments as [|s1 segments].
  - destruct Hr as [-> Ho]. rewrite Ho. exists segment. repeat split; auto.
    intros H. rewrite H in Ho. discriminate.
  - destruct Hr as (Ho & last & before & P & L & ->).
    rewrite Ho. exists last. rewrite StrFacts.pop_cons, P.
    repeat split; auto.
    + intros H. rewrite H in Ho. discriminate.
    + intros _. exists before. reflexivity.
Qed.

(** X23.  A client of the AI SDK gets the model name as it is, except for
    groq and cerebras, which get what follows the first slash of the
    model name, and the whole name when it has no slash. *)
Theorem provider_model_names (modelName : string) (provider : Evals.Provider)
        (model : string) :
  Evals.selectClient modelName = Some (Evals.AISdkClient provider model) ->
  match provider with
  | Evals.groq | Evals.cerebras =>
      (Text.occurs "/" modelName = false /\ model = modelName)
      \/ exists before,
          Text.occurs "/" before = false
          /\ modelName = (before ++ "/" ++ model)%string
  | _ => model = modelName
  end.
Proof.
  unfold Evals.selectClient.
  pose proof (StrFacts.after_first "/" modelName) as H.
  repeat match goal with
    | |- context [if ?b then _ else _] => destruct b
    end;
    intros [= <- <-]; try reflexivity.
  all: destruct H as [[Ho Hi]|(before & Hb & Hi & Hs)];
    [left; rewrite Hi; split; [exact Ho|reflexivity]
    |right; exists before; split; [exact Hb|exact Hs]].
Qed.

Lemma provider_model_names_witness :
  (Text.occurs "/" "groq/llama-3.3-70b-versatile" = false
   /\ Str.substring (Str.indexOf "/" "groq/llama-3.3-70b-versatile" + 1)
                    "groq/llama-3.3-70b-versatile"
      = "groq/llama-3.3-70b-versatile"%string)
  \/ exists before,
      Text.occurs "/" before = false
      /\ "groq/llama-3.3-70b-versatile"%string
         = (before ++ "/"
              ++ Str.substring
                   (Str.indexOf "/" "groq/llama-3.3-70b-versatile" + 1)
                   "groq/llama-3.3-70b-versatile")%string.
Proof.
  exact (provider_model_names "groq/llama-3.3-70b-versatile" Evals.groq _
           eq_refl).
Defined.

(* ================================================================== *)
(** ** The test cases and the summary of an evaluation run *)
(* ================================================================== *)

Module SuiteFacts.
Import Evals.

Lemma keepCategory_all suite category testcases :
  (forall t, In t testcases ->
             keyHasCategory suite category (testcase_name t) = true) ->
  keepCategory suite category testcases = inr testcases.
Proof.
  induction testcases as [|t rest IH]; intros H; simpl; [reflexivity|].
  pose proof (H t (or_introl eq_refl)) as Ht.
  unfold keyHasCategory in Ht.
  destruct (categoriesOf suite (testcase_name t)) as [cs|]; [|discriminate Ht].
  rewrite IH by (intros t' Ht'; apply H; right; exact Ht').
  simpl in Ht. rewrite Ht. reflexivity.
Qed.

Lemma keepCategory_unknown suite category t rest :
  categoriesOf suite (testcase_name t) = None ->
  keepCategory suite category (t :: rest)
  = inl (JS.TypeError
           "Cannot read properties of undefined (reading 'categories')").
Proof. intros H. simpl. rewrite H. reflexivity. Qed.

Lemma keepCategory_same suite category categories testcases :
  (forall t, In t testcases ->
             categoriesOf suite (testcase_name t) = Some categories) ->
  keepCategory suite category testcases
  = inr (if Str.array_includes categories category then testcases else []).
Proof.
  induction testcases as [|t rest IH]; intros H; simpl.
  - destruct (Str.array_includes categories category); reflexivity.
  - rewrite (H t (or_introl eq_refl)).
    rewrite IH by (intros t' Ht'; apply H; right; exact Ht').
    destruct (Str.array_includes categories category); reflexivity.
Qed.

Lemma allTestcases_names suite t :
  In t (allTestcases suite) -> In (testcase_name t) (taskNamesToRun suite).
Proof.
  unfold allTestcases. intros H. apply in_flat_map in H.
  destruct H as (model & _ & H). apply in_map_iff in H.
  destruct H as (testName & <- & H). exact H.
Qed.

Lemma allTestcases_length suite :
  List.length (allTestcases suite)
  = List.length (getModelList suite (effectiveCategory suite))
    * List.length (taskNamesToRun suite).
Proof.
  unfold allTestcases.
  induction (getModelList suite (effectiveCategory suite)) as [|m ms IH];
    simpl; [reflexivity|].
  rewrite length_app, length_map, IH. reflexivity.
Qed.

Lemma lines_known suite results :
  (forall r, In r results ->
             categoriesOf suite (name (summary_input r)) <> None) ->
  exists ls, lines suite results = inr ls
             /\ List.length ls = List.length results.
Proof.
  induction results as [|r rest IH]; intros H; simpl.
  - exists []. split; reflexivity.
  - pose proof (H r (or_introl eq_refl)) as Hr.
    destruct (categoriesOf suite (name (summary_input r))); [|contradiction].
    destruct IH as (ls & -> & L); [intros r' Hr'; apply H; right; exact Hr'|].
    eexists. split; [reflexivity|]. simpl. rewrite L. reflexivity.
Qed.

Lemma lines_unknown suite results r :
  In r results ->
  categoriesOf suite (name (summary_input r)) = None ->
  lines suite results
  = inl (JS.TypeError
           "Cannot read properties of undefined (reading 'categories')").
Proof.
  induction results as [|r0 rest IH]; intros Hin Hn; simpl; [contradiction|].
  destruct Hin as [->|Hin].
  - rewrite Hn. reflexivity.
  - destruct (categoriesOf suite (name (summary_input r0))); [|reflexivity].
    rewrite (IH Hin Hn). reflexivity.
Qed.

Lemma filter_partition {A : Type} (f : A -> bool) (l : list A) :
  List.length (filter f l) + List.length (filter (fun x => negb (f x)) l)
  = List.length l.
Proof.
  induction l as [|a l IH]; simpl; [reflexivity|].
  destruct (f a); simpl; lia.
Qed.

Lemma flat_map_singleton {A B C : Type} (f : A -> B -> C) (x : B) (l : list A) :
  flat_map (fun a => map (f a) [x]) l = map (fun a => f a x) l.
Proof.
  induction l as [|a l IH]; [reflexivity|].
  cbn [flat_map map app]. f_equal; try exact IH.
Qed.

End SuiteFacts.

(** X24.  With a category filter and no evaluation name, the closing
    filter of [generateFilteredTestcases] removes nothing and cannot
    throw: every test case generated is of a task that [tasksByName]
    holds in that category. *)
Theorem category_filter_alone_keeps_every_testcase (suite : Evals.Suite)
        (category : string) :
  Evals.given (Evals.filterByEvalName suite) = None ->
  Evals.given (Evals.filterByCategory suite) = Some category ->
  Evals.generateFilteredTestcases suite = inr (Evals.allTestcases suite)
  /\ forall t, In t (Evals.allTestcases suite) ->
               exists categories,
                 Evals.categoriesOf suite (Evals.testcase_name t)
                 = Some categories
                 /\ Str.array_includes categories category = true.
Proof.
  intros He Hc.
  assert (forall t, In t (Evals.allTestcases suite) ->
                    Evals.keyHasCategory suite category (Evals.testcase_name t)
                    = true) as H.
  { intros t Ht. apply SuiteFacts.allTestcases_names in Ht.
    unfold Evals.taskNamesToRun in Ht. rewrite He, Hc in Ht.
    apply filter_In in Ht. apply Ht. }
  split.
  - unfold Evals.generateFilteredTestcases. rewrite Hc.
    apply SuiteFacts.keepCategory_all, H.
  - intros t Ht. specialize (H t Ht). unfold Evals.keyHasCategory in H.
    destruct (Evals.categoriesOf suite (Evals.testcase_name t)) as [cs|];
      [|discriminate H].
    exists cs. split; [reflexivity|exact H].
Qed.

Lemma category_filter_alone_keeps_every_testcase_witness :
  Evals.generateFilteredTestcases
    (EvalCases.suite None (Some "observe"%string))
  = inr (Evals.allTestcases (EvalCases.suite None (Some "observe"%string))).
Proof.
  exact (proj1 (category_filter_alone_keeps_every_testcase
                  (EvalCases.suite None (Some "observe"%string))
                  "observe" eq_refl eq_refl)).
Defined.

(** X25.  Without category filter the test cases are one per model and
    task, model by model; with an evaluation name there is one test case
    per model, for that name, whether [tasksByName] holds it or not. *)
Theorem testcases_are_models_times_tasks (suite : Evals.Suite) :
  Evals.given (Evals.filterByCategory suite) = None ->
  exists testcases,
    Evals.generateFilteredTestcases suite = inr testcases
    /\ List.length testcases
       = List.length (Evals.getModelList suite (Evals.effectiveCategory suite))
         * List.length (Evals.taskNamesToRun suite)
    /\ (forall evalName,
           Evals.given (Evals.filterByEvalName suite) = Some evalName ->
           testcases
           = map (fun model => Evals.testcase suite model evalName)
                 (Evals.getModelList suite (Evals.effectiveCategory suite))).
Proof.
  intros Hc. exists (Evals.allTestcases suite).
  unfold Evals.generateFilteredTestcases. rewrite Hc.
  split; [reflexivity|]. split; [apply SuiteFacts.allTestcases_length|].
  intros evalName He. unfold Evals.allTestcases, Evals.taskNamesToRun.
  rewrite He. apply SuiteFacts.flat_map_singleton.
Qed.

Lemma testcases_are_models_times_tasks_witness :
  exists testcases,
    Evals.generateFilteredTestcases
      (EvalCases.suite (Some "retired_task"%string) None)
    = inr testcases
    /\ List.length testcases = 2 * 1.
Proof.
  destruct (testcases_are_models_times_tasks
              (EvalCases.suite (Some "retired_task"%string) None) eq_refl)
    as (testcases & E & L & _).
  exists testcases. split; [exact E|exact L].
Defined.

(** X26.  With an evaluation name and a category filter, the test cases
    are kept all or dropped all, as the named task is in the category or
    not; and when [tasksByName] does not hold the named task, the closing
    filter throws a [TypeError] as soon as there is a model to run. *)
Theorem both_filters_keep_all_or_nothing (suite : Evals.Suite)
        (evalName category : string) :
  Evals.given (Evals.filterByEvalName suite) = Some evalName ->
  Evals.given (Evals.filterByCategory suite) = Some category ->
  match Evals.categoriesOf suite evalName with
  | Some categories =>
      Evals.generateFilteredTestcases suite
      = inr (if Str.array_includes categories category
             then Evals.allTestcases suite else [])
  | None =>
      Evals.generateFilteredTestcases suite
      = match Evals.allTestcases suite with
        | [] => inr []
        | _ :: _ =>
            inl (JS.TypeError
                   "Cannot read properties of undefined (reading 'categories')")
        end
  end.
Proof.
  intros He Hc.
  assert (forall t, In t (Evals.allTestcases suite) ->
                    Evals.testcase_name t = evalName) as H.
  { intros t Ht. apply SuiteFacts.allTestcases_names in Ht.
    unfold Evals.taskNamesToRun in Ht. rewrite He in Ht.
    destruct Ht as [<-|[]]. reflexivity. }
  unfold Evals.generateFilteredTestcases. rewrite Hc.
  destruct (Evals.categoriesOf suite evalName) as [cs|] eqn:E.
  - apply SuiteFacts.keepCategory_same. intros t Ht. rewrite (H t Ht). exact E.
  - destruct (Evals.allTestcases suite) as [|t rest]; [reflexivity|].
    apply SuiteFacts.keepCategory_unknown.
    rewrite (H t (or_introl eq_refl)). exact E.
Qed.

Lemma both_filters_keep_all_or_nothing_witness :
  Evals.generateFilteredTestcases
    (EvalCases.suite (Some "retired_task"%string) (Some "observe"%string))
  = inl (JS.TypeError
           "Cannot read properties of undefined (reading 'categories')").
Proof.
  exact (both_filters_keep_all_or_nothing
           (EvalCases.suite (Some "retired_task"%string)
                            (Some "observe"%string))
           "retired_task" "observe" eq_refl eq_refl).
Defined.

(** X27.  When every result is of a task that [tasksByName] holds, the
    lists [passed] and [failed] of the summary are both built and split
    the results between them: each result is a line of exactly one. *)
Theorem passed_and_failed_split_the_results (suite : Evals.Suite)
        (results : list Evals.SummaryResult) :
  (forall r, In r results ->
             Evals.categoriesOf suite (Evals.name (Evals.summary_input r))
             <> None) ->
  exists passed failed,
    Evals.passed suite results = inr passed
    /\ Evals.failed suite results = inr failed
    /\ List.length passed + List.length failed = List.length results
    /\ List.length passed
       = List.length (filter Evals.succeeded results).
Proof.
  intros H. unfold Evals.passed, Evals.failed.
  destruct (SuiteFacts.lines_known suite (filter Evals.succeeded results))
    as (p & -> & Lp).
  { intros r Hr. apply filter_In in Hr. apply H, Hr. }
  destruct (SuiteFacts.lines_known suite
              (filter (fun r => negb (Evals.succeeded r)) results))
    as (f & -> & Lf).
  { intros r Hr. apply filter_In in Hr. apply H, Hr. }
  exists p, f. repeat split; try assumption.
  rewrite Lp, Lf. apply SuiteFacts.filter_partition.
Qed.

Lemma passed_and_failed_split_the_results_witness :
  exists passed failed,
    Evals.passed (EvalCases.suite None None) EvalCases.known_results
    = inr passed
    /\ Evals.failed (EvalCases.suite None None) EvalCases.known_results
       = inr failed
    /\ List.length passed + List.length failed = 3.
Proof.
  destruct (passed_and_failed_split_the_results
              (EvalCases.suite None None) EvalCases.known_results)
    as (p & f & Ep & Ef & L & _).
  - intros r [<-|[<-|[<-|[]]]]; discriminate.
  - exists p, f. repeat split; assumption.
Defined.

(** X28.  One result of a task that [tasksByName] does not hold is enough
    for the summary to throw a [TypeError], in the list on whose side the
    result falls; no summary is written then. *)
Theorem unknown_task_breaks_the_summary (suite : Evals.Suite)
        (results : list Evals.SummaryResult) (r : Evals.SummaryResult) :
  In r results ->
  Evals.categoriesOf suite (Evals.name (Evals.summary_input r)) = None ->
  let error :=
    JS.TypeError "Cannot read properties of undefined (reading 'categories')" in
  (Evals.succeeded r = true -> Evals.passed suite results = inl error)
  /\ (Evals.succeeded r = false -> Evals.failed suite results = inl error).
Proof.
  intros Hin Hn error. split; intros Hs.
  - apply (SuiteFacts.lines_unknown suite _ r); [|exact Hn].
    apply filter_In. split; assumption.
  - apply (SuiteFacts.lines_unknown suite _ r); [|exact Hn].
    apply filter_In. split; [assumption|]. rewrite Hs. reflexivity.
Qed.

Lemma unknown_task_breaks_the_summary_witness :
  Evals.failed (EvalCases.suite None None)
               (EvalCases.known_results ++ [EvalCases.stray])
  = inl (JS.TypeError
           "Cannot read properties of undefined (reading 'categories')").
Proof.
  refine (proj2 (unknown_task_breaks_the_summary
                   (EvalCases.suite None None)
                   (EvalCases.known_results ++ [EvalCases.stray])
                   EvalCases.stray _ eq_refl) eq_refl).
  apply in_or_app. right. left. reflexivity.
Defined.

(** X29.  The score the runner gives a result is 1 exactly when the
    summary counts the result as passed, and 0 exactly when it counts it
    as failed; a task whose output is undefined or null gets no score,
    the mapping throws. *)
Theorem score_is_success (result : Evals.Input * Value)
        (r : Evals.SummaryResult) :
  Evals.summaryResult result = inr r ->
  (Evals.score r = 1 <-> Evals.succeeded r = true)
  /\ (Evals.score r = 0 <-> Evals.succeeded r = false)
  /\ snd result <> VUndefined /\ snd result <> VNull.
Proof.
  unfold Evals.summaryResult, Evals.succeeded.
  destruct result as [i v]. simpl.
  destruct v; simpl; try discriminate; intros [= <-]; simpl;
    repeat split; try discriminate;
    try match goal with
      | |- context [Obj.truthy ?x] => destruct (Obj.truthy x)
      end; auto; try discriminate.
  all: try (destruct b; auto; discriminate).
Qed.

Lemma score_is_success_witness :
  Evals.score (EvalCases.summarised "observe_github" "gpt-4o-mini" true) = 1
  <-> Evals.succeeded
        (EvalCases.summarised "observe_github" "gpt-4o-mini" true) = true.
Proof.
  exact (proj1 (score_is_success
                  (EvalCases.ran "observe_github" "gpt-4o-mini" (VBool true))
                  (EvalCases.summarised "observe_github" "gpt-4o-mini" true)
                  eq_refl)).
Defined.

(** X30.  The task [zquery_extract_multiple] succeeds exactly when the
    wrapper was constructed, initialised and closed without a throw and
    the extraction gave at least two items of which one has a title that
    is truthy and not the text of a missing title; the success flags of
    the items play no part. *)
Theorem extraction_success (wrapper : Evals.Wrapper) :
  Evals._success (Evals.zquery_extract_multiple wrapper) = true
  <-> exists items,
      Evals.constructed wrapper = inr tt
      /\ Evals.initialised wrapper = inr tt
      /\ Evals.extracted wrapper = inr items
      /\ Evals.closed wrapper = inr tt
      /\ 2 <= List.length items
      /\ exists item, In item items /\ Evals.titled item = true.
Proof.
  unfold Evals.zquery_extract_multiple. split.
  - destruct (Evals.constructed wrapper) as [e|[]]; [discriminate|].
    destruct (Evals.initialised wrapper) as [e|[]]; [discriminate|].
    destruct (Evals.extracted wrapper) as [e|items]; [discriminate|].
    destruct (Evals.closed wrapper) as [e|[]]; [discriminate|].
    cbn [Evals._success]. intros H. apply andb_true_iff in H.
    destruct H as [H2 Hx].
    exists items. repeat split.
    + apply Nat.leb_le in H2. exact H2.
    + apply existsb_exists in Hx. exact Hx.
  - intros (items & -> & -> & -> & -> & H2 & Hx). cbn [Evals._success].
    apply andb_true_iff. split.
    + apply Nat.leb_le. exact H2.
    + apply existsb_exists. exact Hx.
Qed.

